(** * Centrifugue native host: job supervision, progress store and worker pipeline

    A shallow embedding of [native-host/centrifugue_host.py].  The two
    persisted JSON files, the temporary directories and the table of live
    processes form an explicit [World]; every Python function that touches
    them becomes a function on worlds.  External tools (yt-dlp, demucs,
    ffmpeg, ffprobe) are not modelled internally: what they answer is read
    from an environment record, as a function of their command line.

    Conventions.
    - Instants are whole seconds; every [time.time()] of one request, and
      of one run of the worker, reads the same [clock].
    - The program swallows every error of reading, writing and unlinking
      its two files; the model follows the runs in which these operations
      succeed, and [shutil.rmtree(..., ignore_errors=True)] removes the
      directory.
    - Inside the worker every call that can raise is a [Point]; the
      environment says at which points an exception is raised, and with
      which text.
    - One process is modelled at a time: the host handles one request, or
      the worker runs from start to end. *)

From Stdlib Require Import QArith_base Ascii String Strings.Byte.
From stdpp Require Import base numbers strings list sorting gmap pretty.

Open Scope string_scope.
Open Scope Z_scope.
Open Scope list_scope.

(** ** Data model *)

(** The literals that the program stores under the key ['stage']. *)
Inductive Stage :=
  | Idle | Downloading | Processing | Finalizing | Complete | Error | Stale.

#[global] Instance Stage_eq_dec : EqDecision Stage.
Proof. solve_decision. Defined.

(** [stage in ['downloading', 'processing', 'finalizing']] *)
Definition mid_flight (s : Stage) : bool :=
  match s with
  | Downloading | Processing | Finalizing => true
  | _ => false
  end.

(** The dictionary dumped into [~/.centrifugue_progress.json].  A key that
    holds [None] (or is missing, as in the default record) is [None] here. *)
Module Progress.
Record t := mk {
  stage : Stage;
  message : string;
  percent : Z;
  estimated_seconds : option Z;
  video_title : option string;
  job_id : option string;
  action : option string;
  quality : option string;
  genre : option string;
  error : option string;
  timestamp : option Z
}.

Definition with_stale (p : t) : t :=
  mk Stale "Job appears to have stalled" (percent p) (estimated_seconds p)
     (video_title p) (job_id p) (action p) (quality p) (genre p) (error p)
     (timestamp p).

(** [{'stage': 'idle', 'message': 'Ready', 'percent': 0}] *)
Definition default : t :=
  mk Idle "Ready" 0 None None None None None None None None.
End Progress.

(** The dictionary dumped into [~/.centrifugue_job.json]. *)
Module Job.
Record t := mk {
  job_id : string;
  pid : option Z;
  temp_dir : option string;
  title : string;
  action : string;
  quality : string;
  genre : string;
  url : string;
  started : Z
}.
End Job.

#[global] Instance Progress_eq_dec : EqDecision Progress.t.
Proof. solve_decision. Defined.
#[global] Instance Job_eq_dec : EqDecision Job.t.
Proof. solve_decision. Defined.

(** Everything outside the interpreter that the program reads or changes,
    together with the two module globals of the running process.  Instants
    are whole seconds.  [written] is a ghost history: it lists every record
    passed to [write_progress], oldest first. *)
Record World := mkWorld {
  progress_file : option Progress.t;
  job_file : option Job.t;
  dirs : gset string;
  procs : gset Z;
  clock : Z;
  active_job : option string;
  active_process : option Z;
  written : list Progress.t
}.

Definition set_progress_file (v : option Progress.t) (w : World) : World :=
  mkWorld v (job_file w) (dirs w) (procs w) (clock w)
          (active_job w) (active_process w) (written w).
Definition set_job_file (v : option Job.t) (w : World) : World :=
  mkWorld (progress_file w) v (dirs w) (procs w) (clock w)
          (active_job w) (active_process w) (written w).
Definition set_dirs (v : gset string) (w : World) : World :=
  mkWorld (progress_file w) (job_file w) v (procs w) (clock w)
          (active_job w) (active_process w) (written w).
Definition set_procs (v : gset Z) (w : World) : World :=
  mkWorld (progress_file w) (job_file w) (dirs w) v (clock w)
          (active_job w) (active_process w) (written w).
Definition set_clock (v : Z) (w : World) : World :=
  mkWorld (progress_file w) (job_file w) (dirs w) (procs w) v
          (active_job w) (active_process w) (written w).
Definition set_active_job (v : option string) (w : World) : World :=
  mkWorld (progress_file w) (job_file w) (dirs w) (procs w) (clock w)
          v (active_process w) (written w).
Definition set_active_process (v : option Z) (w : World) : World :=
  mkWorld (progress_file w) (job_file w) (dirs w) (procs w) (clock w)
          (active_job w) v (written w).
Definition log_write (p : Progress.t) (w : World) : World :=
  mkWorld (progress_file w) (job_file w) (dirs w) (procs w) (clock w)
          (active_job w) (active_process w) (written w ++ [p]).

(** Python truthiness of the values the program tests with [if x:]. *)
Definition truthy_pid (p : option Z) : option Z :=
  match p with
  | Some n => if decide (n = 0) then None else Some n
  | None => None
  end.
Definition truthy_str (s : option string) : option string :=
  match s with
  | Some x => if decide (x = EmptyString) then None else Some x
  | None => None
  end.

(** ** Progress store and job registry *)

Definition write_progress (stage : Stage) (message : string) (percent : Z)
    (estimated_seconds : option Z) (video_title job_id action quality genre
     error : option string) (w : World) : World :=
  let progress :=
    Progress.mk stage message percent estimated_seconds video_title job_id
                action quality genre error (Some (clock w)) in
  log_write progress (set_progress_file (Some progress) w).

(** [data] is a fresh dictionary decoded from the file: changing its
    ['stage'] changes what is returned, and nothing is written back. *)
Definition read_progress (w : World) : Progress.t * World :=
  match progress_file w with
  | Some data =>
      if decide (Progress.stage data = Processing) then
        let age := clock w - default 0 (Progress.timestamp data) in
        if decide (age > 600) then (Progress.with_stale data, w) else (data, w)
      else (data, w)
  | None => (Progress.default, w)
  end.

Definition clear_progress (w : World) : World := set_progress_file None w.

Definition save_job_state (job_id : string) (pid : option Z)
    (temp_dir : option string) (title action quality genre url : string)
    (w : World) : World :=
  set_job_file
    (Some (Job.mk job_id pid temp_dir title action quality genre url (clock w)))
    w.

Definition load_job_state (w : World) : option Job.t := job_file w.

Definition clear_job_state (w : World) : World := set_job_file None w.

(** [os.kill(pid, 0)] returns when the process exists and raises [OSError]
    when it does not. *)
Definition process_exists (pid : Z) (w : World) : bool :=
  bool_decide (pid ∈ procs w).

(** [os.kill(pid, signal.SIGTERM)]: the default disposition ends the target. *)
Definition os_kill_term (pid : Z) (w : World) : World :=
  set_procs (procs w ∖ {[pid]}) w.

(** [os.path.exists(d)] and [shutil.rmtree(d, ignore_errors=True)]. *)
Definition path_exists (d : string) (w : World) : bool :=
  bool_decide (d ∈ dirs w).
Definition rmtree (d : string) (w : World) : World :=
  set_dirs (dirs w ∖ {[d]}) w.

(** ** Supervisor: the short-lived native host *)

(** The dictionaries handed to [send_message]. *)
Inductive Response :=
  | RespError (error : string)
  | RespBusy (error : string) (job_id : option string)
  | RespStarted (job_id video_title message : string)
  | RespProgress (progress : Progress.t)
  | RespDone (message : string)
  | RespDownloaded (filename message : string).

(** The value under ['success']. *)
Definition success (r : Response) : bool :=
  match r with
  | RespError _ | RespBusy _ _ => false
  | _ => true
  end.

(** How the synchronous [yt-dlp] run of [download_mp3] ends. *)
Inductive Mp3Outcome :=
  | Mp3Exit0 (filename : string)
  | Mp3ExitNonzero (stderr : string)
  | Mp3FileNotFound
  | Mp3Timeout
  | Mp3Raised (e : string).

(** What the operating system and the tools answer to the native host:
    [get_video_title url] is the result of the function of that name (the
    sanitised title that yt-dlp prints, or [None]), [popen_worker cmd] the
    pid of the process that [subprocess.Popen(cmd)] starts, and
    [run_ytdlp_mp3 url] the end of the yt-dlp run of [download_mp3]. *)
Record HostEnv := mkHostEnv {
  get_video_title : string → option string;
  sys_executable : string;
  SCRIPT_PATH : string;
  popen_worker : list string → Z;
  run_ytdlp_mp3 : string → Mp3Outcome
}.

Definition busy_message : string :=
  "A job is already running. Please wait for it to complete or cancel it.".

Section Supervisor.
Context (env : HostEnv).

(** The first block of [start_stems_job]: either the rejection, or the
    world in which the job is started (orphaned records cleared). *)
Definition check_active_job (w : World) : Response + World :=
  let '(progress, w) := read_progress w in
  if mid_flight (Progress.stage progress) then
    match load_job_state w with
    | Some job_state =>
        match truthy_pid (Job.pid job_state) with
        | Some pid =>
            if process_exists pid w
            then inl (RespBusy busy_message (Progress.job_id progress))
            else inr (clear_progress (clear_job_state w))
        | None => inr w
        end
    | None => inr w
    end
  else inr w.

Definition worker_cmd (job_id url quality genre title : string) : list string :=
  [sys_executable env; SCRIPT_PATH env; "--worker"; "--job-id"; job_id;
   "--url"; url; "--quality"; quality; "--genre"; genre; "--title"; title].

Definition start_stems_job (url quality genre : string) (w : World)
  : Response * World :=
  match check_active_job w with
  | inl busy => (busy, w)
  | inr w =>
      let title := default "stems" (truthy_str (get_video_title env url)) in
      let job_id := "job_" +:+ pretty (clock w) in
      let w := set_active_job (Some job_id) w in
      let worker_pid :=
        popen_worker env (worker_cmd job_id url quality genre title) in
      let w := set_procs ({[worker_pid]} ∪ procs w) w in
      let w := save_job_state job_id (Some worker_pid) None title
                              "download_stems" quality genre url w in
      let w := write_progress Downloading "Starting..." 0 None (Some title)
                 (Some job_id) (Some "download_stems") (Some quality)
                 (Some genre) None w in
      (RespStarted job_id title "Stem separation started", w)
  end.

Definition cancel_job (w : World) : Response * World :=
  let '(progress, w) := read_progress w in
  if negb (mid_flight (Progress.stage progress)) then
    (RespError "No active job to cancel", w)
  else
    let w :=
      match load_job_state w with
      | Some job_state =>
          let w :=
            match truthy_pid (Job.pid job_state) with
            | Some pid => os_kill_term pid w
            | None => w
            end in
          match truthy_str (Job.temp_dir job_state) with
          | Some temp_dir =>
              if path_exists temp_dir w then rmtree temp_dir w else w
          | None => w
          end
      | None => w
      end in
    let w :=
      match active_process w with
      | Some child => set_active_process None (os_kill_term child w)
      | None => w
      end in
    let w := set_active_job None w in
    let w := clear_progress w in
    let w := clear_job_state w in
    (RespDone "Job cancelled", w).

Definition check_stale_job (w : World) : World :=
  match load_job_state w with
  | None => w
  | Some job_state =>
      let running :=
        match truthy_pid (Job.pid job_state) with
        | Some pid => process_exists pid w
        | None => false
        end in
      if running then w
      else
        let w :=
          match truthy_str (Job.temp_dir job_state) with
          | Some temp_dir =>
              if path_exists temp_dir w then rmtree temp_dir w else w
          | None => w
          end in
        let w := clear_job_state w in
        let '(progress, w) := read_progress w in
        if mid_flight (Progress.stage progress) then
          write_progress Error "Previous job was interrupted" 0 None
            (Progress.video_title progress) (Progress.job_id progress)
            None None None (Some "Job interrupted") w
        else w
  end.

Definition download_mp3 (url : string) : Response :=
  match run_ytdlp_mp3 env url with
  | Mp3Exit0 filename => RespDownloaded filename "Download completed successfully"
  | Mp3ExitNonzero stderr =>
      RespError (if decide (stderr = EmptyString)
                 then "yt-dlp failed with no error message" else stderr)
  | Mp3FileNotFound =>
      RespError "yt-dlp not found. Please install it: brew install yt-dlp"
  | Mp3Timeout => RespError "Download timed out after 5 minutes"
  | Mp3Raised e => RespError e
  end.

(** The decoded request. *)
Record Message := mkMessage {
  msg_action : option string;
  msg_url : option string;
  msg_quality : option string;
  msg_genre : option string
}.

(** [main] without the [--worker] branch: one request, one response. *)
Definition main (message : option Message) (w : World) : Response * World :=
  let w := check_stale_job w in
  match message with
  | None => (RespError "No message received", w)
  | Some message =>
      let action := msg_action message in
      if decide (action = Some "download" ∨ action = Some "download_mp3") then
        match truthy_str (msg_url message) with
        | None => (RespError "No URL provided", w)
        | Some url =>
            let title := default "audio" (truthy_str (get_video_title env url)) in
            let w := write_progress Downloading "Downloading MP3..." 10 None
                       (Some title) None (Some "download_mp3") None None None w in
            let result := download_mp3 url in
            let w :=
              match result with
              | RespDownloaded filename _ =>
                  write_progress Complete ("Downloaded: " +:+ filename) 100 None
                    (Some title) None (Some "download_mp3") None None None w
              | RespError e =>
                  write_progress Error e 0 None (Some title) None
                    (Some "download_mp3") None None (Some e) w
              | _ => w
              end in
            (result, w)
        end
      else if decide (action = Some "download_stems") then
        let quality := default "fast" (msg_quality message) in
        let genre := default "full" (msg_genre message) in
        match truthy_str (msg_url message) with
        | None => (RespError "No URL provided", w)
        | Some url => start_stems_job url quality genre w
        end
      else if decide (action = Some "get_progress") then
        let '(progress, w) := read_progress w in (RespProgress progress, w)
      else if decide (action = Some "cancel_job") then cancel_job w
      else if decide (action = Some "ping") then (RespDone "pong", w)
      else
        (RespError ("Unknown action: " +:+ default "None" action), w)
  end.

End Supervisor.

(** ** Tables *)

(** An entry of [QUALITY_PRESETS].  ['overlap'] is only ever used through
    [str()], so it is kept as the text [str()] yields. *)
Record Preset := mkPreset {
  model : string;
  shifts : Z;
  overlap : string;
  cpu_limit : Z;
  time_multiplier : Q;
  preset_description : string
}.

Definition preset_fast : Preset :=
  mkPreset "htdemucs" 0 "0.25" 400 (4 # 10)%Q "Fast processing, basic quality".
Definition preset_balanced : Preset :=
  mkPreset "htdemucs" 5 "0.5" 400 (12 # 10)%Q "Good balance of speed and quality".
Definition preset_high : Preset :=
  mkPreset "htdemucs_ft" 10 "0.75" 500 (25 # 10)%Q
           "Best quality, minimal stem bleeding".

#[global] Instance Preset_inhabited : Inhabited Preset := populate preset_fast.

Definition QUALITY_PRESETS : gmap string Preset :=
  <["fast" := preset_fast]>
    (<["balanced" := preset_balanced]> (<["high" := preset_high]> ∅)).

(** An entry of [GENRE_MODES]; [combine] is [None] when the key is absent,
    and otherwise lists the items of the inner dictionary in order. *)
Record GenreMode := mkGenreMode {
  stems : list string;
  combine : option (list (string * list string));
  mode_description : string
}.

Definition mode_full : GenreMode :=
  mkGenreMode ["vocals"; "drums"; "bass"; "other"] None "All 4 stems".
Definition mode_hiphop : GenreMode :=
  mkGenreMode ["vocals"] (Some [("beat", ["drums"; "bass"; "other"])])
              "Vocals + Beat".
Definition mode_rock : GenreMode :=
  mkGenreMode ["vocals"; "drums"; "bass"] None "Vocals, Drums, Bass".

#[global] Instance GenreMode_inhabited : Inhabited GenreMode :=
  populate mode_full.

Definition GENRE_MODES : gmap string GenreMode :=
  <["full" := mode_full]>
    (<["hiphop" := mode_hiphop]> (<["rock" := mode_rock]> ∅)).

Definition fallback_estimates : gmap string Z :=
  <["fast" := 90]> (<["balanced" := 300]> (<["high" := 600]> ∅)).
Definition quality_suffix : gmap string string :=
  <["fast" := EmptyString]> (<["balanced" := " (HQ)"]> (<["high" := " (Ultra)"]> ∅)).
Definition genre_suffix : gmap string string :=
  <["full" := "Stems"]> (<["hiphop" := "Hip Hop"]> (<["rock" := "Rock"]> ∅)).
Definition stem_mapping : gmap string string :=
  <["vocals" := "Vocals"]>
    (<["drums" := "Drums"]> (<["bass" := "Bass"]> (<["other" := "Other"]> ∅))).

(** ** Strings *)

Definition is_digit (c : ascii) : bool :=
  let n := nat_of_ascii c in (48 <=? n)%nat && (n <=? 57)%nat.
Definition is_upper (c : ascii) : bool :=
  let n := nat_of_ascii c in (65 <=? n)%nat && (n <=? 90)%nat.
Definition is_lower (c : ascii) : bool :=
  let n := nat_of_ascii c in (97 <=? n)%nat && (n <=? 122)%nat.
Definition to_lower (c : ascii) : ascii :=
  if is_upper c then ascii_of_nat (nat_of_ascii c + 32) else c.
Definition to_upper (c : ascii) : ascii :=
  if is_lower c then ascii_of_nat (nat_of_ascii c - 32) else c.

(** [str.lower()] and [str.title()], on ASCII letters. *)
Fixpoint lower (s : string) : string :=
  match s with
  | EmptyString => EmptyString
  | String c s => String (to_lower c) (lower s)
  end.
Fixpoint title_from (after_letter : bool) (s : string) : string :=
  match s with
  | EmptyString => EmptyString
  | String c s =>
      if is_upper c || is_lower c
      then String (if after_letter then to_lower c else to_upper c)
                  (title_from true s)
      else String c (title_from false s)
  end.
Definition str_title (s : string) : string := title_from false s.

(** [re.search(r'(\d+)%\|', line)]: the leftmost run of digits that is
    followed by [%|], read as a decimal number.  [run] is the value of the
    digits just passed, if the previous character was a digit. *)
Fixpoint search_percent (run : option Z) (line : string) : option Z :=
  match line with
  | EmptyString => None
  | String c rest =>
      if is_digit c then
        search_percent
          (Some (10 * default 0 run + (Z.of_nat (nat_of_ascii c) - 48))) rest
      else
        match run, c, rest with
        | Some value, "%"%char, String "|"%char _ => Some value
        | _, _, _ => search_percent None rest
        end
  end.

Definition parse_demucs_progress (line : string) : option Z :=
  search_percent None line.

(** [10 + int(progress * 0.8)].  [progress] is a natural number; for
    [progress < 2^50] the double [progress * 0.8] has the integer part of
    the exact quotient [4 * progress / 5]. *)
Definition overall_percent (progress : Z) : Z := 10 + Z.quot (4 * progress) 5.

(** [int(x)] on a rational: truncation toward zero. *)
Definition int_of_Q (x : Q) : Z := Z.quot (Qnum x) (Z.pos (Qden x)).

Definition path_join (a b : string) : string := a +:+ "/" +:+ b.

(** ** Worker process *)

(** The calls inside the worker at which an exception can surface.
    [AtMkdtemp] precedes the [try] block, all others lie inside it. *)
Inductive Point :=
  | AtMkdtemp
  | AtDownload
  | AtGlob
  | AtEstimate
  | AtPopen
  | AtReadline (i : nat)
  | AtWait
  | AtMkdir
  | AtLocate
  | AtListing
  | AtCopy (stem_name : string)
  | AtCombine (combined_name : string).

(** A [Path]: its text, its [.stem] and its [.suffix]. *)
Record File := mkFile {
  file_path : string;
  file_stem : string;
  file_suffix : string
}.

(** What the operating system and the tools answer to the worker.  A tool
    answers as a function of its command line.  [raises p = Some e] makes
    the call at [p] raise an [Exception] whose [str()] is [e].
    - [download_dir], [ytdlp_path], [ffmpeg_path]: the results of
      [get_download_dir], [find_ytdlp], [find_ffmpeg];
    - [demucs_available]: [DEMUCS_PYTHON] is an executable file;
    - [mkdtemp]: the directory that [tempfile.mkdtemp] creates;
    - [run_ytdlp cmd]: return code and stderr of the download;
    - [glob_audio d]: the files [audio.*] in [d];
    - [get_audio_duration path]: the result of the function of that name;
    - [popen_demucs], [demucs_stderr], [demucs_returncode]: pid, lines
      printed on stderr and return code of the engine;
    - [glob_files d]: [None] if [d] does not exist, and else its files
      [*.*]; [rglob_mp3_dir d]: the first directory below [d] that holds
      an mp3;
    - [run_ffmpeg cmd]: the return code of the mixing tool, [None] if the
      run raises. *)
Record WorkerEnv := mkWorkerEnv {
  raises : Point → option string;
  getpid : Z;
  download_dir : string;
  ytdlp_path : string;
  ffmpeg_path : string;
  DEMUCS_PYTHON : string;
  demucs_available : bool;
  mkdtemp : string;
  run_ytdlp : list string → Z * string;
  glob_audio : string → list File;
  get_audio_duration : string → option Q;
  popen_demucs : list string → Z;
  demucs_stderr : list string → list string;
  demucs_returncode : list string → Z;
  glob_files : string → option (list File);
  rglob_mp3_dir : string → option string;
  run_ffmpeg : list string → option Z
}.

(** Control flow inside the [try] block: fall through to the next
    statement, [return], or raise. *)
Inductive Flow (A : Type) :=
  | Next (a : A)
  | Returned
  | Raised (e : string).
Arguments Next {A} a.
Arguments Returned {A}.
Arguments Raised {A} e.

Definition Try (A : Type) : Type := World → Flow A * World.

#[global] Instance Try_ret : MRet Try := λ A a w, (Next a, w).
#[global] Instance Try_bind : MBind Try := λ A B k m w,
  match m w with
  | (Next a, w) => k a w
  | (Returned, w) => (Returned, w)
  | (Raised e, w) => (Raised e, w)
  end.

Definition effect (f : World → World) : Try unit := λ w, (Next tt, f w).
Definition return_now {A} : Try A := λ w, (Returned, w).
Definition raise {A} (e : string) : Try A := λ w, (Raised e, w).

Section Worker.
Context (env : WorkerEnv) (job_id url quality genre title : string).

Definition call (p : Point) : Try unit :=
  match raises env p with
  | Some e => raise e
  | None => mret tt
  end.

(** [write_progress(..., job_id=job_id, video_title=title,
    action='download_stems', quality=quality, genre=genre)] *)
Definition report (stage : Stage) (message : string) (percent : Z)
    (estimated_seconds : option Z) (error : option string) : World → World :=
  write_progress stage message percent estimated_seconds (Some title)
    (Some job_id) (Some "download_stems") (Some quality) (Some genre) error.

(** The three statements that precede each [return] on a failed step. *)
Definition fail_and_clean (temp_dir message : string) (error : string)
  : Try unit :=
  effect (report Error message 0 None (Some error)) ;;
  effect (rmtree temp_dir) ;;
  effect clear_job_state.

Definition estimate (preset : Preset) (audio_duration : option Q) : Z :=
  match audio_duration with
  | Some d =>
      if Qeq_bool d 0 then default 120 (fallback_estimates !! quality)
      else int_of_Q (d * time_multiplier preset) + 30
  | None => default 120 (fallback_estimates !! quality)
  end.

(** [for line in active_process.stderr: ...], from line number [i] on;
    yields the final [last_percent]. *)
Fixpoint read_stderr (estimated_seconds : Z) (i : nat) (lines : list string)
    (last_percent : Z) : Try Z :=
  match lines with
  | [] => mret last_percent
  | line :: lines =>
      call (AtReadline i) ;;
      match parse_demucs_progress line with
      | Some progress =>
          if decide (progress > last_percent) then
            effect (report Processing
                      ("Separating stems... " +:+ pretty progress +:+ "%")
                      (overall_percent progress) (Some estimated_seconds) None) ;;
            read_stderr estimated_seconds (S i) lines progress
          else read_stderr estimated_seconds (S i) lines last_percent
      | None => read_stderr estimated_seconds (S i) lines last_percent
      end
  end.

Definition collect_stems (listing : list File) : gmap string File :=
  foldl (λ stem_files stem_file,
           let stem_name := lower (file_stem stem_file) in
           if decide (is_Some (stem_mapping !! stem_name))
           then <[stem_name := stem_file]> stem_files
           else stem_files)
        ∅ listing.

(** [for stem_name in genre_mode['stems']: ...] *)
Fixpoint copy_stems (stem_files : gmap string File) (names : list string)
    (copied_files : list string) : Try (list string) :=
  match names with
  | [] => mret copied_files
  | stem_name :: names =>
      match stem_files !! stem_name with
      | Some stem_file =>
          match stem_mapping !! stem_name with
          | Some label =>
              let dest_name :=
                title +:+ " - " +:+ label +:+ file_suffix stem_file in
              call (AtCopy stem_name) ;;
              copy_stems stem_files names (copied_files ++ [dest_name])
          | None => raise ("'" +:+ stem_name +:+ "'")
          end
      | None => copy_stems stem_files names copied_files
      end
  end.

Definition combine_stems (stem_files : list File) (output_path : string)
  : bool :=
  let cmd :=
    [ffmpeg_path env; "-y"]
    ++ flat_map (λ stem_file, ["-i"; file_path stem_file]) stem_files
    ++ ["-filter_complex";
        "amix=inputs=" +:+ pretty (length stem_files) +:+ ":duration=longest";
        "-codec:a"; "libmp3lame"; "-b:a"; "320k"; output_path] in
  match run_ffmpeg env cmd with
  | Some returncode => bool_decide (returncode = 0)
  | None => false
  end.

(** [for combined_name, source_stems in genre_mode['combine'].items(): ...] *)
Fixpoint combine_all (stem_files : gmap string File) (output_folder : string)
    (items : list (string * list string)) (copied_files : list string)
  : Try (list string) :=
  match items with
  | [] => mret copied_files
  | (combined_name, source_stems) :: items =>
      call (AtCombine combined_name) ;;
      let source_files := omap (λ s, stem_files !! s) source_stems in
      match source_files with
      | [] => combine_all stem_files output_folder items copied_files
      | _ :: _ =>
          let name := title +:+ " - " +:+ str_title combined_name +:+ ".mp3" in
          let combined_dest := path_join output_folder name in
          if combine_stems source_files combined_dest
          then combine_all stem_files output_folder items (copied_files ++ [name])
          else combine_all stem_files output_folder items copied_files
      end
  end.

(** The body of the [try] block, cut at the comments of the source.
    "Step 1: Download audio" yields the downloaded file. *)
Definition download_audio (temp_dir : string) : Try File :=
  effect (report Downloading "Downloading audio from YouTube..." 5 None None) ;;
  let download_cmd :=
    [ytdlp_path env; "--extract-audio"; "--audio-format"; "wav";
     "--audio-quality"; "0"; "--output"; path_join temp_dir "audio.wav";
     "--no-playlist"; url] in
  call AtDownload ;;
  let '(returncode, stderr) := run_ytdlp env download_cmd in
  if decide (returncode ≠ 0) then
    fail_and_clean temp_dir ("Download failed: " +:+ stderr) stderr ;;
    return_now
  else
    call AtGlob ;;
    match glob_audio env temp_dir with
    | [] =>
        fail_and_clean temp_dir "Downloaded audio file not found"
                       "Audio file not found" ;;
        return_now
    | audio_file :: _ => mret audio_file
    end.

Definition demucs_cmd (preset : Preset) (temp_dir : string)
    (audio_file : File) : list string :=
  [DEMUCS_PYTHON env; "-m"; "demucs"; file_path audio_file;
   "-n"; model preset; "-o"; path_join temp_dir "separated";
   "--overlap"; overlap preset; "--mp3"; "--mp3-bitrate"; "320"; "-d"; "mps"]
  ++ (if decide (shifts preset > 0)
      then ["--shifts"; pretty (shifts preset)] else []).

(** "Step 2: Run Demucs with real-time progress parsing" *)
Definition separate (preset : Preset) (temp_dir : string)
    (audio_file : File) : Try unit :=
  call AtEstimate ;;
  let estimated_seconds :=
    estimate preset (get_audio_duration env (file_path audio_file)) in
  effect (report Processing "Separating stems with AI..." 10
                 (Some estimated_seconds) None) ;;
  let cmd := demucs_cmd preset temp_dir audio_file in
  call AtPopen ;;
  let child := popen_demucs env cmd in
  effect (λ w, set_active_process (Some child)
                 (set_procs ({[child]} ∪ procs w) w)) ;;
  _ ← read_stderr estimated_seconds 0 (demucs_stderr env cmd) 10 ;
  call AtWait ;;
  effect (λ w, set_procs (procs w ∖ {[child]}) w) ;;
  if decide (demucs_returncode env cmd ≠ 0) then
    effect (report Error "Stem separation failed" 0 None (Some EmptyString)) ;;
    effect (rmtree temp_dir) ;;
    effect clear_job_state ;;
    effect (set_active_process None) ;;
    return_now
  else effect (set_active_process None).

(** "Find the stems": the files of the directory that the model's layout
    names or, if that is missing, of the first directory below the output
    that holds an mp3; [None] when the directory chosen does not exist. *)
Definition find_stems (preset : Preset) (temp_dir : string)
    (audio_file : File) : option (list File) :=
  let demucs_output := path_join temp_dir "separated" in
  let expected :=
    path_join (path_join demucs_output (model preset)) (file_stem audio_file) in
  let stems_dir :=
    match glob_files env expected with
    | Some _ => expected
    | None => default expected (rglob_mp3_dir env demucs_output)
    end in
  glob_files env stems_dir.

(** "Step 3: Organize output files" yields [copied_files]. *)
Definition organize (preset : Preset) (genre_mode : GenreMode)
    (temp_dir : string) (audio_file : File) : Try (list string) :=
  effect (report Finalizing "Organizing stem files..." 92 None None) ;;
  let output_folder :=
    path_join (download_dir env)
      (title +:+ " - " +:+ default "Stems" (genre_suffix !! genre)
             +:+ default EmptyString (quality_suffix !! quality)) in
  call AtMkdir ;;
  call AtLocate ;;
  match find_stems preset temp_dir audio_file with
  | None =>
      fail_and_clean temp_dir "Stem files not found after separation"
                     "Output files not found" ;;
      return_now
  | Some listing =>
      call AtListing ;;
      let stem_files := collect_stems listing in
      copied_files ← copy_stems stem_files (stems genre_mode) [] ;
      match combine genre_mode with
      | Some items => combine_all stem_files output_folder items copied_files
      | None => mret copied_files
      end
  end.

(** "Cleanup temp directory" and the last write. *)
Definition finish (temp_dir : string) (copied_files : list string) : Try unit :=
  effect (rmtree temp_dir) ;;
  effect clear_job_state ;;
  match copied_files with
  | [] =>
      effect (report Error "No stem files were created" 0 None
                     (Some "No output files")) ;;
      return_now
  | _ :: _ =>
      effect (report Complete
                ("Created " +:+ pretty (length copied_files) +:+ " stem files")
                100 None None)
  end.

Definition pipeline (preset : Preset) (genre_mode : GenreMode)
    (temp_dir : string) : Try unit :=
  audio_file ← download_audio temp_dir ;
  separate preset temp_dir audio_file ;;
  copied_files ← organize preset genre_mode temp_dir audio_file ;
  finish temp_dir copied_files.

(** The result is [Some e] when the exception [e] leaves the function
    uncaught, and [None] when the function returns. *)
Definition run_stem_separation_background (w : World)
  : option string * World :=
  let preset := default (QUALITY_PRESETS !!! "fast") (QUALITY_PRESETS !! quality) in
  let genre_mode := default (GENRE_MODES !!! "full") (GENRE_MODES !! genre) in
  if negb (demucs_available env) then
    let w :=
      report Error
        "Demucs not found. Run install.sh to set up the virtual environment."
        0 None (Some "Demucs not installed - run install.sh") w in
    (None, clear_job_state w)
  else
    match raises env AtMkdtemp with
    | Some e => (Some e, w)
    | None =>
        let temp_dir := mkdtemp env in
        let w := set_dirs ({[temp_dir]} ∪ dirs w) w in
        let w := save_job_state job_id (Some (getpid env)) (Some temp_dir)
                   title "download_stems" quality genre url w in
        match pipeline preset genre_mode temp_dir w with
        | (Raised e, w) =>
            let w := report Error e 0 None (Some e) w in
            let w := rmtree temp_dir w in
            (None, clear_job_state w)
        | (_, w) => (None, w)
        end
    end.

End Worker.

(** ** The worker's command line *)

(** The option strings of the parser that [run_worker_mode] builds. *)
Definition option_strings : list string :=
  ["-h"; "--help"; "--worker"; "--job-id"; "--url"; "--quality"; "--genre";
   "--title"].

Fixpoint contains (c : ascii) (s : string) : bool :=
  match s with
  | EmptyString => false
  | String a s => if decide (a = c) then true else contains c s
  end.

(** [s.split(c, 1)[0]]: all of [s] when [c] does not occur. *)
Fixpoint before (c : ascii) (s : string) : string :=
  match s with
  | EmptyString => EmptyString
  | String a s => if decide (a = c) then EmptyString else String a (before c s)
  end.

Fixpoint drop_digits (s : string) : string :=
  match s with
  | EmptyString => EmptyString
  | String a s' => if is_digit a then drop_digits s' else s
  end.

(** The end of the text, as [$] matches it: here, or before a last newline. *)
Definition at_end (s : string) : bool :=
  bool_decide (s = EmptyString) || bool_decide (s = String "010"%char EmptyString).

(** [argparse]'s pattern for negative numbers, [^-\d+$|^-\d*\.\d+$]. *)
Definition negative_number (s : string) : bool :=
  match s with
  | String "-"%char rest =>
      let rest' := drop_digits rest in
      (negb (bool_decide (rest' = rest)) && at_end rest')
      || match rest' with
         | String "."%char frac =>
             negb (bool_decide (drop_digits frac = frac))
             && at_end (drop_digits frac)
         | _ => false
         end
  | _ => false
  end.

(** [_get_option_tuples] finds a candidate: an option that a string of two
    dashes abbreviates, or the one-letter option that a string of one dash
    starts with. *)
Definition abbreviates_option (s : string) : bool :=
  match s with
  | String "-"%char (String "-"%char _) =>
      existsb (String.prefix (before "="%char s)) option_strings
  | String "-"%char _ =>
      existsb (λ o, bool_decide (o = substring 0 2 s) || String.prefix s o)
              option_strings
  | _ => false
  end.

(** [_parse_optional]: [true] when the string is read as an option, known
    or not, or is an ambiguous abbreviation; [false] when it is read as a
    value. *)
Definition reads_as_option (s : string) : bool :=
  match s with
  | EmptyString => false
  | String c _ =>
      if negb (bool_decide (c = "-"%char)) then false
      else if bool_decide (s ∈ option_strings) then true
      else if bool_decide (String.length s = 1%nat) then false
      else if contains "="%char s
              && bool_decide (before "="%char s ∈ option_strings) then true
      else if abbreviates_option s then true
      else if negative_number s then false
      else if contains " "%char s then false
      else true
  end.

(** A string that [parse_args] accepts as the value of the option before
    it; ["--"] ends the options instead. *)
Definition taken_as_value (s : string) : bool :=
  negb (bool_decide (s = "--")) && negb (reads_as_option s).

(** The namespace made by [parser.parse_args]. *)
Record WorkerArgs := mkWorkerArgs {
  arg_job_id : string;
  arg_url : string;
  arg_quality : string;
  arg_genre : string;
  arg_title : string
}.

(** [parser.parse_args(args)] for the arguments that [start_stems_job]
    puts on the worker's command line, [--worker --job-id job_id --url url
    --quality quality --genre genre --title title]; [None] is the parser's
    error, which ends the process with status 2.  Every option is on the
    command line, so that no default is used. *)
Definition parse_args (job_id url quality genre title : string)
  : option WorkerArgs :=
  if forallb taken_as_value [job_id; url; quality; genre; title]
  then Some (mkWorkerArgs job_id url quality genre title)
  else None.

(** How the worker process ends. *)
Inductive ProcessEnd :=
  | ExitOk
  | ExitUsage
  | ExitTraceback (e : string).

Definition run_worker_mode (env : WorkerEnv)
    (job_id url quality genre title : string) (w : World)
  : ProcessEnd * World :=
  match parse_args job_id url quality genre title with
  | None => (ExitUsage, w)
  | Some parsed =>
      match run_stem_separation_background env (arg_job_id parsed)
              (arg_url parsed) (arg_quality parsed) (arg_genre parsed)
              (arg_title parsed) w with
      | (None, w) => (ExitOk, w)
      | (Some e, w) => (ExitTraceback e, w)
      end
  end.

(** The process that [start_stems_job] spawns, from [main] to its end. *)
Definition worker_process (env : WorkerEnv)
    (job_id url quality genre title : string) (w : World)
  : ProcessEnd * World :=
  let '(how, w) := run_worker_mode env job_id url quality genre title w in
  (how, set_procs (procs w ∖ {[getpid env]}) w).

(** ** File names *)

(** A character of a [string] is a code point below 256.  [isspace] is the
    class [\s] of a pattern and the test of [str.strip()] on them. *)
Definition isspace (c : ascii) : bool :=
  let n := nat_of_ascii c in
  ((9 <=? n) && (n <=? 13) || (28 <=? n) && (n <=? 32)
   || (n =? 133) || (n =? 160))%nat.

(** The nine characters of the class that [sanitize_filename] deletes:
    less-than, greater-than, colon, double quote, slash, backslash, bar,
    question mark and star. *)
Definition unsafe_chars : list ascii :=
  ["<"; ">"; ":"; "034"; "/"; "092"; "|"; "?"; "*"]%char.

(** [re.sub(class, '', name)] *)
Fixpoint remove_unsafe (name : string) : string :=
  match name with
  | EmptyString => EmptyString
  | String c name =>
      if bool_decide (c ∈ unsafe_chars) then remove_unsafe name
      else String c (remove_unsafe name)
  end.

(** [re.sub(r'\s+', ' ', name)]: every maximal run of whitespace becomes one
    space.  [in_run] tells that the character before was whitespace. *)
Fixpoint collapse_spaces (in_run : bool) (name : string) : string :=
  match name with
  | EmptyString => EmptyString
  | String c name =>
      if isspace c then
        if in_run then collapse_spaces true name
        else String " " (collapse_spaces true name)
      else String c (collapse_spaces false name)
  end.

Fixpoint lstrip (s : string) : string :=
  match s with
  | EmptyString => EmptyString
  | String c s' => if isspace c then lstrip s' else s
  end.

Fixpoint rstrip (s : string) : string :=
  match s with
  | EmptyString => EmptyString
  | String c s' =>
      match rstrip s' with
      | EmptyString => if isspace c then EmptyString else String c EmptyString
      | kept => String c kept
      end
  end.

(** [s.strip()] *)
Definition strip (s : string) : string := rstrip (lstrip s).

Definition sanitize_filename (name : string) : string :=
  let name := remove_unsafe name in
  let name := strip (collapse_spaces false name) in
  let name :=
    if decide (100 < String.length name)%nat then substring 0 100 name
    else name in
  if decide (name = EmptyString) then "download" else name.

(** ** Native messaging: length-prefixed frames *)

(** The format ['@I'] is an unsigned integer of four bytes in the byte
    order of the machine. *)
Inductive ByteOrder := LittleEndian | BigEndian.

Definition byte_of (n : Z) : byte :=
  default x00 (Byte.of_N (Z.to_N (n mod 256))).
Definition byte_value (b : byte) : Z := Z.of_N (Byte.to_N b).

Definition in_order {A} (order : ByteOrder) (l : list A) : list A :=
  match order with LittleEndian => l | BigEndian => reverse l end.

(** [struct.pack('@I', n)]; [None] stands for [struct.error]. *)
Definition pack_I (order : ByteOrder) (n : Z) : option (list byte) :=
  if decide (0 ≤ n < 2 ^ 32) then
    Some (in_order order
            [byte_of n; byte_of (n / 2 ^ 8); byte_of (n / 2 ^ 16);
             byte_of (n / 2 ^ 24)])
  else None.

(** [struct.unpack('@I', raw)[0]]; [None] stands for [struct.error]. *)
Definition unpack_I (order : ByteOrder) (raw : list byte) : option Z :=
  match in_order order raw with
  | [b0; b1; b2; b3] =>
      Some (byte_value b0 + 2 ^ 8 * byte_value b1 + 2 ^ 16 * byte_value b2
            + 2 ^ 24 * byte_value b3)
  | _ => None
  end.

(** How [read_message] ends: it returns [None], it returns the decoded
    value, or it raises, in [struct.unpack] or while decoding. *)
Inductive Received (J : Type) :=
  | NoMessage
  | Decoded (value : J)
  | StructError
  | DecodeError.
Arguments NoMessage {J}.
Arguments Decoded {J} value.
Arguments StructError {J}.
Arguments DecodeError {J}.

Section NativeMessaging.
(** [J] is the type of the values of JSON; [json_loads payload] is
    [json.loads(payload.decode('utf-8'))], [None] when that raises, and
    [json_dumps message] is [json.dumps(message).encode('utf-8')]. *)
Context {J : Type} (order : ByteOrder).
Context (json_loads : list byte → option J) (json_dumps : J → list byte).

(** [stdin] holds the bytes that arrive before the end of input; the
    result comes with the bytes left unread. *)
Definition read_message (stdin : list byte) : Received J * list byte :=
  let raw_length := take 4 stdin in
  let stdin := drop 4 stdin in
  match raw_length with
  | [] => (NoMessage, stdin)
  | _ :: _ =>
      match unpack_I order raw_length with
      | None => (StructError, stdin)
      | Some message_length =>
          let message := take (Z.to_nat message_length) stdin in
          let stdin := drop (Z.to_nat message_length) stdin in
          match json_loads message with
          | Some value => (Decoded value, stdin)
          | None => (DecodeError, stdin)
          end
      end
  end.

(** The bytes written to [stdout]; [None] when [struct.pack] raises,
    before anything is written. *)
Definition send_message (message : J) : option (list byte) :=
  let encoded := json_dumps message in
  match pack_I order (Z.of_nat (length encoded)) with
  | Some length_prefix => Some (length_prefix ++ encoded)
  | None => None
  end.

End NativeMessaging.

(** ** The host's tools *)

(** How [subprocess.run(cmd, capture_output=True, text=True, timeout=t)]
    ends: the process exits, or the call raises [FileNotFoundError],
    [TimeoutExpired], or another exception whose [str()] is [e]. *)
Inductive RunResult :=
  | Completed (returncode : Z) (stdout stderr : string)
  | FileNotFound
  | TimedOut
  | RunRaised (e : string).

(** What the operating system answers to the host's helper functions:
    [executable loc] is [os.path.isfile(loc) and os.access(loc, os.X_OK)],
    [run_process cmd] the end of [subprocess.run(cmd, ...)],
    [os_path_exists] is [os.path.exists], and [downloads] is
    [str(get_download_dir())]. *)
Record HostOS := mkHostOS {
  executable : string → bool;
  run_process : list string → RunResult;
  os_path_exists : string → bool;
  downloads : string
}.

(** [for loc in locations: if ...: return loc] *)
Fixpoint first_executable (executable : string → bool)
    (locations : list string) : option string :=
  match locations with
  | [] => None
  | loc :: locations =>
      if executable loc then Some loc
      else first_executable executable locations
  end.

(** [s.split(c)] *)
Fixpoint split_on (c : ascii) (s : string) : list string :=
  match s with
  | EmptyString => [EmptyString]
  | String a s' =>
      if decide (a = c) then EmptyString :: split_on c s'
      else match split_on c s' with
           | field :: fields => String a field :: fields
           | [] => [String a EmptyString]
           end
  end.

(** [os.path.basename(p)]: what follows the last slash. *)
Fixpoint basename (p : string) : string :=
  match p with
  | EmptyString => EmptyString
  | String c p' =>
      if contains "/" p' then basename p'
      else if decide (c = "/"%char) then p' else p
  end.

Section Tools.
Context (os : HostOS).

Definition find_ytdlp : string :=
  default "yt-dlp"
    (first_executable (executable os)
       ["/opt/homebrew/bin/yt-dlp"; "/usr/local/bin/yt-dlp"; "/usr/bin/yt-dlp"]).

Definition find_ffmpeg : string :=
  default "ffmpeg"
    (first_executable (executable os)
       ["/opt/homebrew/bin/ffmpeg"; "/usr/local/bin/ffmpeg"; "/usr/bin/ffmpeg"]).

Definition find_ffprobe : option string :=
  first_executable (executable os)
    ["/opt/homebrew/bin/ffprobe"; "/usr/local/bin/ffprobe"; "/usr/bin/ffprobe"].

End Tools.

(** The two functions of the host that run yt-dlp. *)
Module Ytdlp.
Section Ytdlp.
Context (os : HostOS).

Definition get_video_title (url : string) : option string :=
  let ytdlp_path := find_ytdlp os in
  match run_process os [ytdlp_path; "--get-title"; "--no-playlist"; url] with
  | Completed returncode stdout _ =>
      if decide (returncode = 0) then Some (sanitize_filename (strip stdout))
      else None
  | _ => None
  end.

Definition mp3_cmd (url : string) : list string :=
  [find_ytdlp os; "--extract-audio"; "--audio-format"; "mp3";
   "--audio-quality"; "0";
   "--output"; path_join (downloads os) "%(title)s.%(ext)s";
   "--no-playlist"; "--print"; "after_move:filepath"; url].

(** The [try] statement of [download_mp3], up to the dictionaries. *)
Definition download_mp3 (url : string) : Mp3Outcome :=
  match run_process os (mp3_cmd url) with
  | Completed returncode stdout stderr =>
      if decide (returncode = 0) then
        let output_lines := split_on "010" (strip stdout) in
        let filename := default "download complete" (last output_lines) in
        Mp3Exit0 (if os_path_exists os filename then basename filename
                  else filename)
      else Mp3ExitNonzero stderr
  | FileNotFound => Mp3FileNotFound
  | TimedOut => Mp3Timeout
  | RunRaised e => Mp3Raised e
  end.

End Ytdlp.
End Ytdlp.

(** The environment of the host on the operating system [os]. *)
Definition host_on (os : HostOS) (sys_executable SCRIPT_PATH : string)
    (popen_worker : list string → Z) : HostEnv :=
  mkHostEnv (Ytdlp.get_video_title os) sys_executable SCRIPT_PATH popen_worker
            (Ytdlp.download_mp3 os).

(** ** Notions used in the statements *)

(** The record that the loop over the engine's output writes for the
    parsed percentage [progress]. *)
Definition separation_update (job_id quality genre title : string)
    (estimated_seconds clock progress : Z) : Progress.t :=
  Progress.mk Processing ("Separating stems... " +:+ pretty progress +:+ "%")
    (overall_percent progress) (Some estimated_seconds) (Some title)
    (Some job_id) (Some "download_stems") (Some quality) (Some genre) None
    (Some clock).

(** The record that ends a run which got through all steps, for [n] output
    files. *)
Definition last_record (job_id quality genre title : string) (clock : Z)
    (n : nat) : Progress.t :=
  if decide (n = 0%nat)
  then Progress.mk Error "No stem files were created" 0 None (Some title)
         (Some job_id) (Some "download_stems") (Some quality) (Some genre)
         (Some "No output files") (Some clock)
  else Progress.mk Complete ("Created " +:+ pretty n +:+ " stem files") 100
         None (Some title) (Some job_id) (Some "download_stems")
         (Some quality) (Some genre) None (Some clock).

(** The world after such updates have been written for the percentages
    [reported], one after the other. *)
Definition reports (job_id quality genre title : string) (est : Z) (w : World)
    (reported : list Z) : World :=
  foldl (λ w p, report job_id quality genre title Processing
                  ("Separating stems... " +:+ pretty p +:+ "%")
                  (overall_percent p) (Some est) None w)
        w reported.

(** The state in which the worker is meant to leave things: no job file, no
    workspace, and a last-written progress record that is [complete], or
    [error] with an error text. *)
Definition cleaned (temp_dir : string) (w : World) : Prop :=
  job_file w = None
  ∧ (temp_dir ∉ dirs w)
  ∧ ∃ p, progress_file w = Some p ∧ last (written w) = Some p
         ∧ (Progress.stage p = Complete
            ∨ (Progress.stage p = Error ∧ is_Some (Progress.error p))).

(** The world in which the [try] block is entered. *)
Definition workspace_created (env : WorkerEnv)
    (job_id url quality genre title : string) (w : World) : World :=
  save_job_state job_id (Some (getpid env)) (Some (mkdtemp env)) title
    "download_stems" quality genre url
    (set_dirs ({[mkdtemp env]} ∪ dirs w) w).

(** The order [idle < downloading < processing < finalizing <
    {complete, error}]; [stale] is never written and is ranked with [idle]. *)
Definition stage_rank (s : Stage) : nat :=
  match s with
  | Idle | Stale => 0
  | Downloading => 1
  | Processing => 2
  | Finalizing => 3
  | Complete | Error => 4
  end.

(** What a poll shows of a record apart from the echoed job parameters,
    the estimate and the instant; and what it has shown over time. *)
Definition essence (p : Progress.t) : Stage * string * Z * option string :=
  (Progress.stage p, Progress.message p, Progress.percent p, Progress.error p).
Definition shown (w : World) : list (Stage * string * Z * option string) :=
  essence <$> written w.

(** Two computations take the same path and show the same records. *)
Definition alike {A} (m1 m2 : Try A) : Prop :=
  ∀ w1 w2, shown w1 = shown w2 →
    (m1 w1).1 = (m2 w2).1 ∧ shown (m1 w1).2 = shown (m2 w2).2.

Definition rank_le (a b : Progress.t) : Prop :=
  (stage_rank (Progress.stage a) ≤ stage_rank (Progress.stage b))%nat.
Definition percent_le (a b : Progress.t) : Prop :=
  Progress.percent a ≤ Progress.percent b.

(** Whatever command line it is given, the engine prints no percentage
    above 100. *)
Definition bounded_output (env : WorkerEnv) : Prop :=
  ∀ cmd line p,
    line ∈ demucs_stderr env cmd → parse_demucs_progress line = Some p →
    p ≤ 100.

(** Invariants of the write history while the [try] block runs.  [new] is
    what the worker has written so far: mid-flight records only, of rank at
    most [r], ordered by rank and, if the engine's output is bounded, of
    percent at most [c] and ordered by percent. *)
Definition body_upto (env : WorkerEnv) (r : nat) (c : Z)
    (new : list Progress.t) : Prop :=
  Forall (λ x, mid_flight (Progress.stage x) = true
               ∧ (stage_rank (Progress.stage x) ≤ r)%nat
               ∧ (bounded_output env → Progress.percent x ≤ c)) new
  ∧ StronglySorted rank_le new
  ∧ (bounded_output env → StronglySorted percent_le new).

Definition upto (env : WorkerEnv) (r : nat) (c : Z)
    (base history : list Progress.t) : Prop :=
  ∃ new, history = base ++ new ∧ body_upto env r c new.

(** The history once the terminal record [t] has been written. *)
Definition finished (env : WorkerEnv) (base history : list Progress.t) : Prop :=
  ∃ body t, history = base ++ body ++ [t] ∧ body_upto env 3 92 body
            ∧ ((Progress.stage t = Error ∧ Progress.percent t = 0)
               ∨ (Progress.stage t = Complete ∧ Progress.percent t = 100)).

(** The job file names no process that is alive. *)
Definition orphan (job : Job.t) (w : World) : Prop :=
  ∀ pid, Job.pid job = Some pid → pid ≠ 0 → pid ∉ procs w.

(** The last character is whitespace. *)
Fixpoint ends_in_space (s : string) : bool :=
  match s with
  | EmptyString => false
  | String c EmptyString => isspace c
  | String _ s' => ends_in_space s'
  end.

(** Every whitespace character is a space, and no space follows another
    one or, when [after_space] is set, stands first. *)
Fixpoint single_spaced (after_space : bool) (s : string) : bool :=
  match s with
  | EmptyString => true
  | String c s' =>
      if isspace c
      then bool_decide (c = " "%char) && negb after_space && single_spaced true s'
      else single_spaced false s'
  end.

(** A name that needs no change: between 1 and 100 characters, none of
    them unsafe, words separated by single spaces, no whitespace at either
    end. *)
Definition clean_name (s : string) : bool :=
  forallb (λ c, negb (contains c s)) unsafe_chars
  && single_spaced true s
  && negb (ends_in_space s)
  && negb (bool_decide (s = EmptyString))
  && bool_decide (String.length s ≤ 100)%nat.

(** The name before the cut at 100 characters. *)
Definition tidy (name : string) : string :=
  strip (collapse_spaces false (remove_unsafe name)).

(** The three places in which the host looks for a tool, in this order. *)
Definition locations_of (tool : string) : list string :=
  ["/opt/homebrew/bin/" +:+ tool; "/usr/local/bin/" +:+ tool;
   "/usr/bin/" +:+ tool].

(** The job file, if there is one, names a process that is alive. *)
Definition job_settled (w : World) : Prop :=
  match job_file w with
  | Some job => ∃ pid, Job.pid job = Some pid ∧ pid ≠ 0 ∧ pid ∈ procs w
  | None => True
  end.

(** The request [{'action': 'get_progress'}]. *)
Definition poll : option Message :=
  Some (mkMessage (Some "get_progress") None None None).

(** The last character is a digit. *)
Fixpoint ends_in_digit (s : string) : bool :=
  match s with
  | EmptyString => false
  | String c EmptyString => is_digit c
  | String _ s' => ends_in_digit s'
  end.

(** Every record that the computation writes satisfies [P]. *)
Definition writes_only {A} (P : Progress.t → Prop) (m : Try A) : Prop :=
  ∀ w, ∃ new, written (m w).2 = written w ++ new ∧ Forall P new.

(** The record echoes the parameters of the job and its stage is one that
    the program writes. *)
Definition names_job (job_id quality genre title : string) (p : Progress.t)
  : Prop :=
  Progress.job_id p = Some job_id
  ∧ Progress.video_title p = Some title
  ∧ Progress.action p = Some "download_stems"
  ∧ Progress.quality p = Some quality
  ∧ Progress.genre p = Some genre
  ∧ Progress.stage p ≠ Idle ∧ Progress.stage p ≠ Stale.

(** [P] holds of every record that names the job and whose stage and
    percent are [allowed]. *)
Definition holds_at (job_id quality genre title : string)
    (P : Progress.t → Prop) (allowed : Stage → Z → Prop) : Prop :=
  ∀ stage message percent est error clock,
    allowed stage percent →
    P (Progress.mk stage message percent est (Some title) (Some job_id)
         (Some "download_stems") (Some quality) (Some genre) error
         (Some clock)).

(** The updates that the loop writes for the lines are [allowed]. *)
Definition updates_allowed (allowed : Stage → Z → Prop) (lines : list string)
  : Prop :=
  ∀ line p, line ∈ lines → parse_demucs_progress line = Some p →
            allowed Processing (overall_percent p).

(** The command line of the download in the worker. *)
Definition download_cmd (env : WorkerEnv) (url temp_dir : string) : list string :=
  [ytdlp_path env; "--extract-audio"; "--audio-format"; "wav";
   "--audio-quality"; "0"; "--output"; path_join temp_dir "audio.wav";
   "--no-playlist"; url].

(** The computation keeps the property [I] of the world. *)
Definition preserves {A} (I : World → Prop) (m : Try A) : Prop :=
  ∀ w, I w → I (m w).2.

(** The world [w] is [w0] outside the two files, the write history, the
    global [active_process], the directory [temp_dir] and the children
    that the engine is started as. *)
Definition same_outside (env : WorkerEnv) (temp_dir : string) (w0 w : World)
  : Prop :=
  clock w = clock w0
  ∧ active_job w = active_job w0
  ∧ (∀ d, d ≠ temp_dir → d ∈ dirs w ↔ d ∈ dirs w0)
  ∧ (∀ pid, (∀ cmd, pid ≠ popen_demucs env cmd) →
            pid ∈ procs w ↔ pid ∈ procs w0).

(** ** Sample worlds and environments *)

Module Sample.

Definition host : HostEnv :=
  mkHostEnv (λ url, if decide (url = "https://youtu.be/x") then Some "Song" else None)
            "/usr/bin/python3" "/opt/centrifugue_host.py" (λ _, 4321)
            (λ _, Mp3Timeout).

Definition progress_at (stage : Stage) (percent timestamp : Z) : Progress.t :=
  Progress.mk stage "..." percent None (Some "Song") (Some "job_100")
    (Some "download_stems") (Some "fast") (Some "full") None (Some timestamp).

Definition job_with (pid : Z) (temp_dir : option string) : Job.t :=
  Job.mk "job_100" (Some pid) temp_dir "Song" "download_stems" "fast" "full"
         "https://youtu.be/x" 100.

Definition empty_world (clock : Z) : World :=
  mkWorld None None ∅ ∅ clock None None [].

(** A worker (pid 77) is alive and its last write, a [processing] record,
    is ten seconds old. *)
Definition busy : World :=
  mkWorld (Some (progress_at Processing 40 100))
          (Some (job_with 77 (Some "/tmp/centrifugue_a")))
          {[ "/tmp/centrifugue_a" ]} {[ 77 ]} 110 None None [].

(** The same worker is alive, but its last write is 601 seconds old. *)
Definition silent : World := set_clock 701 busy.

(** A [downloading] record that is 1000 seconds old. *)
Definition old_download : World :=
  mkWorld (Some (progress_at Downloading 5 0)) None ∅ ∅ 1000 None None [].

(** A [processing] record that is 1000 seconds old. *)
Definition old_processing : World :=
  mkWorld (Some (progress_at Processing 40 0)) None ∅ ∅ 1000 None None [].

(** The worker of [busy] has died. *)
Definition orphaned : World := set_procs ∅ busy.

(** The worker has died and the host is next started 601 seconds after
    the last write. *)
Definition orphaned_late : World := set_procs ∅ silent.

(** The worker has died and the stored record is a [complete] one. *)
Definition orphaned_complete : World :=
  set_progress_file (Some (progress_at Complete 100 100)) orphaned.

(** Tools that all succeed, except as the four arguments say: where a call
    raises, how [yt-dlp] exits, what demucs prints, how [ffmpeg] exits. *)
Definition tools (raises : Point → option string) (ytdlp_returncode : Z)
    (lines : list string) (ffmpeg_returncode : Z) : WorkerEnv :=
  mkWorkerEnv raises 4321 "/home/u/Downloads" "yt-dlp" "ffmpeg"
    "/opt/centrifugue/venv-demucs/bin/python" true "/tmp/centrifugue_b"
    (λ _, (ytdlp_returncode, "ERROR: unavailable"))
    (λ d, [mkFile (path_join d "audio.wav") "audio" ".wav"])
    (λ _, Some (200 # 1)%Q)
    (λ _, 5000)
    (λ _, lines)
    (λ _, 0)
    (λ d, if decide (d = "/tmp/centrifugue_b/separated/htdemucs/audio")
          then Some [mkFile (path_join d "vocals.mp3") "vocals" ".mp3";
                     mkFile (path_join d "drums.mp3") "drums" ".mp3";
                     mkFile (path_join d "bass.mp3") "bass" ".mp3";
                     mkFile (path_join d "other.mp3") "other" ".mp3"]
          else None)
    (λ _, None)
    (λ _, Some ffmpeg_returncode).

Definition no_fault : Point → option string := λ _, None.
Definition copy_fault : Point → option string :=
  λ p, match p with AtCopy _ => Some "No space left on device" | _ => None end.
Definition mkdtemp_fault : Point → option string :=
  λ p, match p with
       | AtMkdtemp => Some "No usable temporary directory found"
       | _ => None
       end.

Definition stems_found : list File :=
  let d := "/tmp/centrifugue_b/separated/htdemucs/audio" in
  [mkFile (path_join d "vocals.mp3") "vocals" ".mp3";
   mkFile (path_join d "drums.mp3") "drums" ".mp3";
   mkFile (path_join d "bass.mp3") "bass" ".mp3";
   mkFile (path_join d "other.mp3") "other" ".mp3"].

Definition tqdm : list string :=
  ["  5%|5         | 6/123"; " 15%|#5        | 18/123";
   " 16%|#6        | 20/123"; " 12%|#2        | 15/123";
   "100%|##########| 123/123"].

(** The world in which a worker spawned by the host starts. *)
Definition spawned : World :=
  (start_stems_job host "https://youtu.be/x" "fast" "hiphop"
                   (empty_world 1700000000)).2.

(** The worker's run for the request above, with the given tools. *)
Definition run (env : WorkerEnv) (quality : string) : option string * World :=
  run_stem_separation_background env "job_1700000000" "https://youtu.be/x"
    quality "hiphop" "Song" spawned.

(** The percents of the records that the run has added. *)
Definition percents_added (r : option string * World) : list Z :=
  Progress.percent <$> drop (length (written spawned)) (written r.2).
Definition stages_added (r : option string * World) : list Stage :=
  Progress.stage <$> drop (length (written spawned)) (written r.2).

End Sample.

(** * Theorems *)

(** ** Progress store *)

Lemma read_progress_world w : (read_progress w).2 = w.
Proof.
  unfold read_progress. destruct (progress_file w) as [p|]; [|done].
  repeat case_decide; done.
Qed.

Lemma read_progress_none w :
  progress_file w = None → read_progress w = (Progress.default, w).
Proof. unfold read_progress. by intros ->. Qed.

(** A record is read back as it was stored unless it is a [processing]
    record older than 600 seconds. *)
Lemma read_progress_fresh w p :
  progress_file w = Some p →
  ¬ (Progress.stage p = Processing ∧ clock w - default 0 (Progress.timestamp p) > 600) →
  read_progress w = (p, w).
Proof.
  unfold read_progress. intros -> Hfresh.
  repeat case_decide; try done. destruct Hfresh; done.
Qed.

(** C2, as amended: a stored record whose stage is [processing] and whose
    timestamp lies more than 600 seconds before the read instant is
    returned with stage [stale] and the message "Job appears to have
    stalled", every other field as stored; the read returns the world it
    was given, so the stored record still has stage [processing].  A
    stored record of any other stage is returned as it is, whatever its
    age. *)
Theorem read_progress_stale w p :
  progress_file w = Some p →
  Progress.stage p = Processing →
  clock w - default 0 (Progress.timestamp p) > 600 →
  read_progress w = (Progress.with_stale p, w)
  ∧ Progress.stage (read_progress w).1 = Stale
  ∧ progress_file (read_progress w).2 = Some p
  ∧ ∀ w' p', progress_file w' = Some p' → Progress.stage p' ≠ Processing →
             read_progress w' = (p', w').
Proof.
  intros Hfile Hstage Hage.
  assert (read_progress w = (Progress.with_stale p, w)) as ->.
  { unfold read_progress. rewrite Hfile.
    rewrite decide_True by done. by rewrite decide_True by done. }
  repeat split; try done.
  intros w' p' Hfile' Hstage'. apply read_progress_fresh; [done|].
  by intros [? _].
Qed.

Lemma read_progress_stale_witness :
  clock Sample.old_processing - 0 > 600
  ∧ Progress.stage (read_progress Sample.old_processing).1 = Stale.
Proof.
  split; [reflexivity|].
  refine (proj1 (proj2 (read_progress_stale Sample.old_processing
            (Sample.progress_at Processing 40 0) _ _ _))).
  - reflexivity.
  - reflexivity.
  - reflexivity.
Defined.

(** C2 fails as stated: a [downloading] record that is 1000 seconds old is
    read back with stage [downloading]. *)
Lemma read_progress_old_download_not_stale :
  progress_file Sample.old_download = Some (Sample.progress_at Downloading 5 0)
  ∧ mid_flight (Progress.stage (Sample.progress_at Downloading 5 0)) = true
  ∧ clock Sample.old_download - 0 > 600
  ∧ Progress.stage (read_progress Sample.old_download).1 = Downloading
  ∧ Progress.stage (read_progress Sample.old_download).1 ≠ Stale.
Proof. repeat split; try done. Qed.

(** ** Supervisor *)

Section SupervisorFacts.
Context (env : HostEnv).

Lemma check_active_job_busy w p job pid :
  progress_file w = Some p →
  mid_flight (Progress.stage p) = true →
  ¬ (Progress.stage p = Processing
     ∧ clock w - default 0 (Progress.timestamp p) > 600) →
  job_file w = Some job →
  Job.pid job = Some pid → pid ≠ 0 → pid ∈ procs w →
  check_active_job w = inl (RespBusy busy_message (Progress.job_id p)).
Proof.
  intros Hfile Hstage Hfresh Hjob Hpid Hnz Hlive. unfold check_active_job.
  rewrite (read_progress_fresh w p) by done. rewrite Hstage.
  unfold load_job_state. rewrite Hjob, Hpid. simpl.
  rewrite decide_False by done. unfold process_exists.
  by rewrite bool_decide_eq_true_2.
Qed.

(** When the check lets the request through, it has at most cleared the
    two files. *)
Lemma check_active_job_free w w1 :
  check_active_job w = inr w1 →
  clock w1 = clock w ∧ procs w1 = procs w ∧ dirs w1 = dirs w
  ∧ written w1 = written w.
Proof.
  unfold check_active_job.
  destruct (read_progress w) as [p w0] eqn:Hread.
  pose proof (read_progress_world w) as Hw. rewrite Hread in Hw. simpl in Hw.
  subst w0. repeat case_match; intros ?; by simplify_eq.
Qed.

Lemma start_stems_job_when_free url quality genre w w1 :
  check_active_job w = inr w1 →
  let title := default "stems" (truthy_str (get_video_title env url)) in
  let job_id := "job_" +:+ pretty (clock w) in
  let worker_pid :=
    popen_worker env (worker_cmd env job_id url quality genre title) in
  let started :=
    Progress.mk Downloading "Starting..." 0 None (Some title) (Some job_id)
      (Some "download_stems") (Some quality) (Some genre) None
      (Some (clock w)) in
  start_stems_job env url quality genre w =
    (RespStarted job_id title "Stem separation started",
     mkWorld (Some started)
       (Some (Job.mk job_id (Some worker_pid) None title "download_stems"
                     quality genre url (clock w)))
       (dirs w) ({[worker_pid]} ∪ procs w) (clock w) (Some job_id)
       (active_process w1) (written w ++ [started])).
Proof.
  intros Hfree. destruct (check_active_job_free _ _ Hfree) as (Hc & Hp & Hd & Hl).
  unfold start_stems_job. rewrite Hfree. simpl.
  unfold write_progress, save_job_state, log_write, set_progress_file,
    set_job_file, set_procs, set_active_job. simpl.
  by rewrite Hc, Hp, Hd, Hl.
Qed.

(** A request is let through exactly when the check finds no live job. *)
Lemma start_stems_job_success url quality genre w :
  success (start_stems_job env url quality genre w).1 = true
  ↔ ∃ w1, check_active_job w = inr w1.
Proof.
  unfold start_stems_job. destruct (check_active_job w) as [r|w1] eqn:Hc.
  - split; [|by intros [? ?]]. simpl.
    unfold check_active_job in Hc. destruct (read_progress w).
    repeat case_match; simplify_eq; done.
  - simpl. split; eauto.
Qed.

(** C1, as amended: a request made while the stored record is mid-flight,
    is not a [processing] record older than 600 seconds (which is read as
    [stale]), and the job file names a non-zero process that is alive, is
    answered with [success: False] and the [job_id] of the progress record,
    and the world, hence both files, is left as it was. *)
Theorem start_stems_job_rejects_live_job url quality genre w p job pid :
  progress_file w = Some p →
  mid_flight (Progress.stage p) = true →
  ¬ (Progress.stage p = Processing
     ∧ clock w - default 0 (Progress.timestamp p) > 600) →
  job_file w = Some job →
  Job.pid job = Some pid → pid ≠ 0 → pid ∈ procs w →
  start_stems_job env url quality genre w
    = (RespBusy busy_message (Progress.job_id p), w)
  ∧ success (start_stems_job env url quality genre w).1 = false
  ∧ progress_file (start_stems_job env url quality genre w).2 = Some p
  ∧ job_file (start_stems_job env url quality genre w).2 = Some job.
Proof.
  intros Hfile Hstage Hfresh Hjob Hpid Hnz Hlive.
  assert (start_stems_job env url quality genre w
          = (RespBusy busy_message (Progress.job_id p), w)) as ->; [|done].
  unfold start_stems_job.
  by rewrite (check_active_job_busy w p job pid).
Qed.

(** After an accepted request, any further request is rejected with the
    accepted job's id for as long as the spawned worker is alive and the
    record written by the host is the stored one, whatever the instant. *)
Lemma start_stems_job_twice url quality genre url' quality' genre' w t :
  (∀ cmd, popen_worker env cmd ≠ 0) →
  success (start_stems_job env url quality genre w).1 = true →
  let w1 := set_clock t (start_stems_job env url quality genre w).2 in
  start_stems_job env url' quality' genre' w1
    = (RespBusy busy_message (Some ("job_" +:+ pretty (clock w))), w1).
Proof.
  intros Hpid [w0 Hfree]%start_stems_job_success. simpl.
  rewrite (start_stems_job_when_free _ _ _ _ _ Hfree). simpl.
  match goal with |- context [Job.mk ?a (Some ?b) ?c ?d ?e ?f ?g ?h ?i] =>
    set (job := Job.mk a (Some b) c d e f g h i); set (pid := b) end.
  match goal with |- context [Some (Progress.mk ?a ?b ?c ?d ?e ?f ?g ?h ?i ?j ?k)] =>
    set (p := Progress.mk a b c d e f g h i j k) end.
  unfold start_stems_job at 1.
  rewrite (check_active_job_busy _ p job pid); try done.
  - by intros [? _].
  - apply Hpid.
  - simpl. set_solver.
Qed.

(** C9: an accepted request stores a job record that holds the spawned
    worker's pid and no workspace, stores a [downloading] record at percent
    0, and answers with [job_<t>] and the resolved title, or "stems" when
    the title could not be resolved.  Nothing in the answer or in the world
    depends on the worker's run. *)
Theorem start_stems_job_accepted url quality genre w :
  success (start_stems_job env url quality genre w).1 = true →
  let title := default "stems" (truthy_str (get_video_title env url)) in
  let job_id := "job_" +:+ pretty (clock w) in
  let worker_pid :=
    popen_worker env (worker_cmd env job_id url quality genre title) in
  let w' := (start_stems_job env url quality genre w).2 in
  (start_stems_job env url quality genre w).1
    = RespStarted job_id title "Stem separation started"
  ∧ job_file w'
    = Some (Job.mk job_id (Some worker_pid) None title "download_stems"
                   quality genre url (clock w))
  ∧ progress_file w'
    = Some (Progress.mk Downloading "Starting..." 0 None (Some title)
              (Some job_id) (Some "download_stems") (Some quality)
              (Some genre) None (Some (clock w)))
  ∧ worker_pid ∈ procs w'
  ∧ (get_video_title env url = None → title = "stems").
Proof.
  intros [w0 Hfree]%start_stems_job_success. simpl.
  rewrite (start_stems_job_when_free _ _ _ _ _ Hfree). simpl.
  repeat split; [set_solver|]. by intros ->.
Qed.

(** With both files gone, a poll shows the default idle record and a
    cancellation is refused, through [main] as well, and nothing changes. *)
Lemma nothing_to_cancel w :
  progress_file w = None → job_file w = None →
  read_progress w = (Progress.default, w)
  ∧ cancel_job w = (RespError "No active job to cancel", w)
  ∧ main env (Some (mkMessage (Some "get_progress") None None None)) w
    = (RespProgress Progress.default, w)
  ∧ main env (Some (mkMessage (Some "cancel_job") None None None)) w
    = (RespError "No active job to cancel", w).
Proof.
  intros Hprogress Hjob.
  assert (check_stale_job w = w) as Hcheck.
  { unfold check_stale_job, load_job_state. by rewrite Hjob. }
  assert (read_progress w = (Progress.default, w)) as Hread
    by (by apply read_progress_none).
  assert (cancel_job w = (RespError "No active job to cancel", w)) as Hcancel.
  { unfold cancel_job. by rewrite Hread. }
  split; [done|]. split; [done|].
  unfold main. rewrite Hcheck. simpl. rewrite Hread, Hcancel. done.
Qed.

(** C4: when [cancel_job] succeeds, the stage it read was mid-flight and
    both files are gone afterwards; from then on, at any instant, reading
    the progress (directly, or by a [get_progress] request) yields the
    default idle record [{idle, "Ready", 0}], and a second [cancel_job]
    (directly, or by a [cancel_job] request) answers "No active job to
    cancel" and leaves the world as it was. *)
Theorem cancel_job_idempotent w :
  success (cancel_job w).1 = true →
  let w1 := (cancel_job w).2 in
  mid_flight (Progress.stage (read_progress w).1) = true
  ∧ progress_file w1 = None ∧ job_file w1 = None
  ∧ ∀ t,
      let w2 := set_clock t w1 in
      read_progress w2 = (Progress.default, w2)
      ∧ cancel_job w2 = (RespError "No active job to cancel", w2)
      ∧ main env (Some (mkMessage (Some "get_progress") None None None)) w2
        = (RespProgress Progress.default, w2)
      ∧ main env (Some (mkMessage (Some "cancel_job") None None None)) w2
        = (RespError "No active job to cancel", w2).
Proof.
  unfold cancel_job at 1 2.
  destruct (read_progress w) as [p w0] eqn:Hread.
  pose proof (read_progress_world w) as Hw. rewrite Hread in Hw. simpl in Hw.
  subst w0. destruct (mid_flight (Progress.stage p)) eqn:Hmid; [|done].
  simpl. intros _. split; [done|]. split; [done|]. split; [done|].
  intros t. by apply nothing_to_cancel.
Qed.

(** C3, as amended: the startup check does nothing when there is no job
    file, and nothing when the job file names a non-zero process that is
    alive.  Otherwise it removes the recorded workspace, deletes the job
    file and only the job file, and looks at the progress as [read_progress]
    reports it: a mid-flight record is overwritten with stage [error],
    message "Previous job was interrupted", keeping the job id and title;
    any other record, and a missing one, are left as they were. *)
Theorem check_stale_job_cases w :
  (job_file w = None → check_stale_job w = w)
  ∧ (∀ job pid, job_file w = Some job → Job.pid job = Some pid → pid ≠ 0 →
       pid ∈ procs w → check_stale_job w = w)
  ∧ (∀ job, job_file w = Some job → orphan job w →
       let w' := check_stale_job w in
       let p := (read_progress w).1 in
       job_file w' = None
       ∧ dirs w' = match truthy_str (Job.temp_dir job) with
                   | Some temp_dir => dirs w ∖ {[temp_dir]}
                   | None => dirs w
                   end
       ∧ progress_file w'
         = if mid_flight (Progress.stage p)
           then Some (Progress.mk Error "Previous job was interrupted" 0 None
                        (Progress.video_title p) (Progress.job_id p)
                        None None None (Some "Job interrupted")
                        (Some (clock w)))
           else progress_file w).
Proof.
  unfold check_stale_job, load_job_state. split; [by intros ->|]. split.
  - intros job pid -> -> Hnz Hlive. simpl. rewrite decide_False by done.
    unfold process_exists. by rewrite bool_decide_eq_true_2.
  - intros job -> Horphan.
    assert ((match truthy_pid (Job.pid job) with
             | Some pid => process_exists pid w
             | None => false
             end) = false) as ->.
    { unfold truthy_pid. destruct (Job.pid job) as [pid|] eqn:Hpid; [|done].
      case_decide; [done|]. unfold process_exists.
      apply bool_decide_eq_false_2. by apply Horphan. }
    set (w1 := match truthy_str (Job.temp_dir job) with
               | Some temp_dir =>
                   if path_exists temp_dir w then rmtree temp_dir w else w
               | None => w
               end).
    assert (progress_file w1 = progress_file w ∧ clock w1 = clock w
            ∧ dirs w1 = match truthy_str (Job.temp_dir job) with
                        | Some temp_dir => dirs w ∖ {[temp_dir]}
                        | None => dirs w
                        end) as (Hp & Hc & Hd).
    { unfold w1. destruct (truthy_str (Job.temp_dir job)) as [d|]; [|done].
      unfold path_exists. destruct (decide (d ∈ dirs w)) as [Hin|Hout].
      - by rewrite bool_decide_eq_true_2.
      - rewrite bool_decide_eq_false_2 by done.
        repeat split. apply leibniz_equiv. set_solver. }
    assert (read_progress (clear_job_state w1)
            = ((read_progress w).1, clear_job_state w1)) as ->.
    { unfold read_progress. simpl. rewrite Hp, Hc.
      destruct (progress_file w); [|done]. repeat case_decide; done. }
    simpl. destruct (mid_flight _); simpl; by rewrite ?Hc.
Qed.

End SupervisorFacts.

(** ** Supervisor: instances *)

Lemma start_stems_job_rejects_live_job_witness :
  77 ∈ procs Sample.busy
  ∧ start_stems_job Sample.host "https://youtu.be/y" "high" "rock" Sample.busy
    = (RespBusy busy_message (Some "job_100"), Sample.busy).
Proof.
  split; [set_solver|].
  refine (proj1 (start_stems_job_rejects_live_job Sample.host _ _ _
            Sample.busy (Sample.progress_at Processing 40 100)
            (Sample.job_with 77 (Some "/tmp/centrifugue_a")) 77 _ _ _ _ _ _ _)).
  - reflexivity.
  - reflexivity.
  - intros [_ Hage]. vm_compute in Hage. discriminate.
  - reflexivity.
  - reflexivity.
  - discriminate.
  - set_solver.
Defined.

(** C1 fails as stated: the stored stage is [processing] and the recorded
    worker 77 is alive, but the record is 601 seconds old; the request is
    accepted, a second worker is spawned and both files are overwritten. *)
Lemma start_stems_job_accepts_beside_silent_worker :
  let w := Sample.silent in
  let r := start_stems_job Sample.host "https://youtu.be/y" "fast" "full" w in
  progress_file w = Some (Sample.progress_at Processing 40 100)
  ∧ job_file w = Some (Sample.job_with 77 (Some "/tmp/centrifugue_a"))
  ∧ 77 ∈ procs w
  ∧ success r.1 = true
  ∧ progress_file r.2 ≠ progress_file w
  ∧ job_file r.2 ≠ job_file w
  ∧ 77 ∈ procs r.2 ∧ 4321 ∈ procs r.2.
Proof.
  repeat split; try done; simpl; set_solver.
Qed.

Lemma start_stems_job_accepted_witness :
  let w := Sample.empty_world 1700000000 in
  let r := start_stems_job Sample.host "https://youtu.be/x" "fast" "full" w in
  r.1 = RespStarted "job_1700000000" "Song" "Stem separation started"
  ∧ job_file r.2
    = Some (Job.mk "job_1700000000" (Some 4321) None "Song" "download_stems"
                   "fast" "full" "https://youtu.be/x" 1700000000).
Proof.
  pose proof (start_stems_job_accepted Sample.host "https://youtu.be/x"
                "fast" "full" (Sample.empty_world 1700000000) eq_refl) as H.
  split; [exact (proj1 H)|exact (proj1 (proj2 H))].
Defined.

Lemma cancel_job_idempotent_witness :
  success (cancel_job Sample.busy).1 = true
  ∧ cancel_job (cancel_job Sample.busy).2
    = (RespError "No active job to cancel", (cancel_job Sample.busy).2).
Proof.
  split; [reflexivity|].
  pose proof (cancel_job_idempotent Sample.host Sample.busy eq_refl)
    as (_ & _ & _ & H).
  exact (proj1 (proj2 (H 110))).
Defined.

Lemma check_stale_job_cases_witness :
  orphan (Sample.job_with 77 (Some "/tmp/centrifugue_a")) Sample.orphaned
  ∧ job_file (check_stale_job Sample.orphaned) = None
  ∧ ("/tmp/centrifugue_a" ∉ dirs (check_stale_job Sample.orphaned))
  ∧ progress_file (check_stale_job Sample.orphaned)
    = Some (Progress.mk Error "Previous job was interrupted" 0 None
              (Some "Song") (Some "job_100") None None None
              (Some "Job interrupted") (Some 110)).
Proof.
  assert (orphan (Sample.job_with 77 (Some "/tmp/centrifugue_a"))
                 Sample.orphaned) as Horphan.
  { intros pid _ _. simpl. set_solver. }
  split; [exact Horphan|].
  destruct (check_stale_job_cases Sample.orphaned) as (_ & _ & H).
  destruct (H _ eq_refl Horphan) as (Hjob & Hdirs & Hprogress).
  split; [exact Hjob|]. split.
  - rewrite Hdirs. simpl. set_solver.
  - exact Hprogress.
Defined.

(** C3 fails as stated: the job file names the dead process 77, the stored
    stage is [processing], and the host starts 601 seconds after the last
    write.  The progress file is neither cleared nor overwritten. *)
Lemma check_stale_job_leaves_old_processing :
  let w := Sample.orphaned_late in
  job_file w = Some (Sample.job_with 77 (Some "/tmp/centrifugue_a"))
  ∧ (77 ∉ procs w)
  ∧ progress_file w = Some (Sample.progress_at Processing 40 100)
  ∧ job_file (check_stale_job w) = None
  ∧ progress_file (check_stale_job w)
    = Some (Sample.progress_at Processing 40 100).
Proof. repeat split; try done; try (simpl; set_solver). Qed.

(** The progress file is not cleared either when the stored record is a
    terminal one. *)
Lemma check_stale_job_leaves_complete :
  let w := Sample.orphaned_complete in
  (77 ∉ procs w)
  ∧ progress_file (check_stale_job w) = progress_file w
  ∧ progress_file (check_stale_job w) ≠ None.
Proof. repeat split; try done; try (simpl; set_solver). Qed.

(** ** Worker: the loop over the engine's output *)

Lemma overall_percent_mono (p q : Z) :
  0 ≤ p → p ≤ q → overall_percent p ≤ overall_percent q.
Proof.
  intros Hp Hle. unfold overall_percent.
  rewrite !Z.quot_div_nonneg by lia.
  pose proof (Z.div_le_mono (4 * p) (4 * q) 5). lia.
Qed.

Lemma overall_percent_range (p : Z) :
  0 ≤ p ≤ 100 → 10 ≤ overall_percent p ≤ 90.
Proof.
  intros [H0 H100]. unfold overall_percent.
  rewrite Z.quot_div_nonneg by lia.
  pose proof (Z.div_le_mono 0 (4 * p) 5). pose proof (Z.div_le_mono (4 * p) 400 5).
  change (0 `div` 5) with 0 in *. change (400 `div` 5) with 80 in *. lia.
Qed.

Lemma increasing_overall (l : list Z) : ∀ x : Z,
  0 ≤ x → StronglySorted Z.lt (x :: l) →
  StronglySorted Z.le (overall_percent <$> l)
  ∧ Forall (λ q, overall_percent x ≤ overall_percent q) l.
Proof.
  induction l as [|y l IH]; intros x Hx Hs.
  - split; constructor.
  - apply StronglySorted_inv in Hs as [Hs Hall].
    pose proof (Forall_inv Hall) as Hxy. simpl in Hxy.
    destruct (IH y ltac:(lia) Hs) as [Hsorted Hy]. split.
    + simpl. constructor; [done|]. by apply Forall_fmap.
    + eapply Forall_impl; [exact Hall|]. simpl. intros q Hq.
      apply overall_percent_mono; lia.
Qed.

Lemma append_percent_inj (s1 s2 : string) :
  s1 +:+ "%" = s2 +:+ "%" → s1 = s2.
Proof.
  revert s2. induction s1 as [|a s1 IH]; intros [|b s2] Heq; try done.
  - injection Heq as _ Heq. by destruct s2.
  - injection Heq as _ Heq. by destruct s1.
  - injection Heq as -> Heq. f_equal. by apply IH.
Qed.

(** Updates for different percentages differ, in their message. *)
Lemma separation_update_inj job_id quality genre title est clock (p q : Z) :
  separation_update job_id quality genre title est clock p
  = separation_update job_id quality genre title est clock q →
  p = q.
Proof.
  intros [= Hmsg _]. apply String.app_inj in Hmsg.
  apply append_percent_inj in Hmsg. by apply (inj pretty).
Qed.

Section LoopFacts.
Context (env : WorkerEnv) (job_id url quality genre title : string).

#[local] Abbreviation read_stderr :=
  (read_stderr env job_id quality genre title).
#[local] Abbreviation report := (report job_id quality genre title).
#[local] Abbreviation reports := (reports job_id quality genre title).

Lemma reports_fields est reported w :
  written (reports est w reported)
    = written w
      ++ (separation_update job_id quality genre title est (clock w) <$> reported)
  ∧ clock (reports est w reported) = clock w
  ∧ job_file (reports est w reported) = job_file w
  ∧ dirs (reports est w reported) = dirs w
  ∧ procs (reports est w reported) = procs w
  ∧ active_process (reports est w reported) = active_process w.
Proof.
  revert w. induction reported as [|p reported IH]; intros w; simpl.
  - by rewrite app_nil_r.
  - destruct (IH (report Processing ("Separating stems... " +:+ pretty p +:+ "%")
                    (overall_percent p) (Some est) None w))
      as (-> & -> & -> & -> & -> & ->).
    simpl. by rewrite <- app_assoc.
Qed.

(** The loop never executes [return]; what it wrote are the updates for a
    strictly increasing list of percentages above [last_percent]; when no
    read raises, it ends with the largest of them as [last_percent]. *)
Lemma read_stderr_run est lines : ∀ i last w,
  ∃ reported,
    (read_stderr est i lines last w).2 = reports est w reported
    ∧ StronglySorted Z.lt (last :: reported)
    ∧ (read_stderr est i lines last w).1 ≠ Returned
    ∧ ((∀ k, raises env (AtReadline k) = None) →
       ∃ last', (read_stderr est i lines last w).1 = Next last'
                ∧ last' ∈ last :: reported
                ∧ Forall (λ q, q ≤ last') (last :: reported)).
Proof.
  induction lines as [|line lines IH]; intros i last w.
  - exists []. simpl. repeat split; try done.
    + repeat constructor.
    + intros _. exists last. repeat split; [set_solver|]. by repeat constructor.
  - simpl. unfold mbind, Try_bind, call.
    destruct (raises env (AtReadline i)) as [e|] eqn:Hraise.
    { exists []. simpl. repeat split; try done.
      - repeat constructor.
      - intros Hno. by rewrite Hno in Hraise. }
    simpl. destruct (parse_demucs_progress line) as [p|]; [|apply IH].
    case_decide as Hgt; [|apply IH]. simpl.
    destruct (IH (S i) p
                (report Processing ("Separating stems... " +:+ pretty p +:+ "%")
                   (overall_percent p) (Some est) None w))
      as (reported & Hw & Hsorted & Hflow & Hlast).
    exists (p :: reported). split; [done|]. split; [|split; [done|]].
    + apply StronglySorted_inv in Hsorted as [Hs Hp].
      constructor; [by constructor|]. constructor; [lia|].
      eapply Forall_impl; [exact Hp|]. simpl. lia.
    + intros Hno. destruct (Hlast Hno) as (last' & -> & Hin & Hall).
      exists last'. split; [done|]. split; [set_solver|].
      apply Forall_cons in Hall as [Hp Hall]. constructor; [lia|by constructor].
Qed.

(** Reading [pre ++ post] is reading [pre] and then [post]. *)
Lemma read_stderr_app est pre post : ∀ i last w,
  read_stderr est i (pre ++ post) last w
  = match read_stderr est i pre last w with
    | (Next last', w') => read_stderr est (i + length pre) post last' w'
    | (Returned, w') => (Returned, w')
    | (Raised e, w') => (Raised e, w')
    end.
Proof.
  induction pre as [|line pre IH]; intros i last w; simpl.
  - by rewrite Nat.add_0_r.
  - unfold mbind, Try_bind, call.
    destruct (raises env (AtReadline i)); [done|]. simpl.
    replace (i + S (length pre))%nat with (S i + length pre)%nat by lia.
    destruct (parse_demucs_progress line); [|apply IH].
    case_decide; [|apply IH]. simpl. apply IH.
Qed.

(** C5, as amended: while no read raises, a line from which the percentage
    [progress] is parsed makes the loop write exactly one update when
    [progress] exceeds 10 and every percentage reported for an earlier
    line, and none otherwise.  The update carries
    [10 + int(progress * 0.8)], which lies between 10 and 90 when
    [progress] is at most 100.  The reported percentages, which the
    updates written determine, are strictly increasing; the written
    percents never decrease. *)
Theorem read_stderr_reports est pre line progress w :
  (∀ k, raises env (AtReadline k) = None) →
  parse_demucs_progress line = Some progress →
  let update := separation_update job_id quality genre title est (clock w) in
  let before := (read_stderr est 0 pre 10 w).2 in
  let after := (read_stderr est 0 (pre ++ [line]) 10 w).2 in
  ∃ reported : list Z,
    written before = written w ++ (update <$> reported)
    ∧ StronglySorted Z.lt (10 :: reported)
    ∧ StronglySorted Z.le (10 :: (Progress.percent ∘ update <$> reported))
    ∧ written after
      = written before
        ++ (if decide (Forall (λ q, q < progress) (10 :: reported))
            then [update progress] else [])
    ∧ Progress.percent (update progress) = overall_percent progress
    ∧ (0 ≤ progress ≤ 100 → 10 ≤ overall_percent progress ≤ 90)
    ∧ (∀ p q, update p = update q → p = q).
Proof.
  intros Hno Hparse update before after.
  destruct (read_stderr_run est pre 0 10 w)
    as (reported & Hw & Hsorted & _ & Hlast).
  destruct (Hlast Hno) as (last' & Hflow & Hin & Hall).
  exists reported.
  assert (written before = written w ++ (update <$> reported)) as Hbefore.
  { unfold before. rewrite Hw. apply reports_fields. }
  split; [done|]. split; [done|]. split.
  { destruct (increasing_overall reported 10 ltac:(lia) Hsorted)
      as [Hs Hfloor].
    rewrite list_fmap_compose.
    replace (Progress.percent <$> (update <$> reported))
      with (overall_percent <$> reported)
      by (rewrite <- list_fmap_compose; done).
    constructor; [done|]. apply Forall_fmap.
    eapply Forall_impl; [exact Hfloor|]. simpl. intros q Hq.
    change (overall_percent 10) with 18 in Hq. lia. }
  split; [|split; [done|split; [apply overall_percent_range|]]];
    [|intros p q; apply separation_update_inj].
  unfold after. rewrite read_stderr_app.
  destruct (read_stderr est 0 pre 10 w) as [flow w'] eqn:Hpre.
  simpl in Hflow, Hw, Hbefore. subst flow. simpl.
  unfold mbind, Try_bind, call. rewrite Hno. simpl. rewrite Hparse.
  destruct (decide (progress > last')) as [Hgt|Hle].
  - rewrite decide_True.
    + simpl. unfold before. simpl.
      f_equal. unfold update, separation_update. do 2 f_equal.
      rewrite Hw. by rewrite (proj1 (proj2 (reports_fields est reported w))).
    + eapply Forall_impl; [exact Hall|]. simpl. lia.
  - rewrite decide_False.
    + simpl. unfold before. simpl. by rewrite app_nil_r.
    + intros Hforall. rewrite Forall_forall in Hforall.
      specialize (Hforall _ Hin). lia.
Qed.

End LoopFacts.

(** ** Worker: cleanup on every path *)

Section CleanupFacts.
Context (env : WorkerEnv) (job_id url quality genre title : string).

#[local] Abbreviation download_audio :=
  (download_audio env job_id url quality genre title).
#[local] Abbreviation separate := (separate env job_id quality genre title).
#[local] Abbreviation organize := (organize env job_id quality genre title).
#[local] Abbreviation finish := (finish job_id quality genre title).
#[local] Abbreviation pipeline := (pipeline env job_id url quality genre title).
#[local] Abbreviation copy_stems := (copy_stems env title).
#[local] Abbreviation combine_all := (combine_all env title).

Ltac run_try :=
  unfold mbind, Try_bind, mret, Try_ret, call, effect, return_now, raise,
    fail_and_clean; simpl.

Lemma cleaned_after_error temp_dir stage message percent est error w :
  stage = Complete ∨ (stage = Error ∧ is_Some error) →
  cleaned temp_dir
    (clear_job_state
       (rmtree temp_dir
          (report job_id quality genre title stage message percent est error w))).
Proof.
  intros Hstage. split; [done|]. split; [simpl; set_solver|].
  eexists. split; [done|]. split; [apply last_snoc|done].
Qed.

(** Copying leaves the world alone and never executes [return]. *)
Lemma copy_stems_flow stem_files names : ∀ copied w,
  (copy_stems stem_files names copied w).2 = w
  ∧ (copy_stems stem_files names copied w).1 ≠ Returned.
Proof.
  induction names as [|name names IH]; intros copied w; simpl; [done|].
  destruct (stem_files !! name); [|apply IH].
  destruct (stem_mapping !! name); [|done]. run_try.
  destruct (raises env (AtCopy name)); [done|]. apply IH.
Qed.

Lemma combine_all_flow stem_files folder items : ∀ copied w,
  (combine_all stem_files folder items copied w).2 = w
  ∧ (combine_all stem_files folder items copied w).1 ≠ Returned.
Proof.
  induction items as [|[name sources] items IH]; intros copied w; simpl; [done|].
  run_try. destruct (raises env (AtCombine name)); [done|]. simpl.
  destruct (omap _ sources); [apply IH|].
  destruct (combine_stems _ _ _); apply IH.
Qed.

Lemma download_audio_returned temp_dir w :
  (download_audio temp_dir w).1 = Returned →
  cleaned temp_dir (download_audio temp_dir w).2.
Proof.
  unfold download_audio. run_try.
  destruct (raises env AtDownload); [done|]. simpl.
  destruct (run_ytdlp env _) as [returncode stderr]. case_decide.
  - run_try. intros _. by apply cleaned_after_error; right.
  - run_try. destruct (raises env AtGlob); [done|]. simpl.
    destruct (glob_audio env temp_dir); [|done]. run_try.
    intros _. by apply cleaned_after_error; right.
Qed.

Lemma separate_returned preset temp_dir audio_file w :
  (separate preset temp_dir audio_file w).1 = Returned →
  cleaned temp_dir (separate preset temp_dir audio_file w).2.
Proof.
  unfold separate. run_try.
  destruct (raises env AtEstimate); [done|]. simpl.
  destruct (raises env AtPopen); [done|]. simpl.
  match goal with |- context [read_stderr ?a ?b ?c ?d ?e ?f ?g ?h ?i ?j] =>
    destruct (read_stderr_run a b c d e f h g i j) as (reported & _ & _ & Hflow & _);
    destruct (read_stderr a b c d e f g h i j) as [[last'| |exn] w1] end;
    simpl in *; try done.
  destruct (raises env AtWait); [done|]. simpl.
  case_decide; [|done]. run_try. intros _.
  destruct (cleaned_after_error temp_dir Error "Stem separation failed" 0 None
              (Some EmptyString) (set_procs (procs w1 ∖ {[popen_demucs env
                 (demucs_cmd env preset temp_dir audio_file)]}) w1))
    as (Hjob & Hdir & Hprogress); [by right|]. done.
Qed.

Lemma organize_returned preset genre_mode temp_dir audio_file w :
  (organize preset genre_mode temp_dir audio_file w).1 = Returned →
  cleaned temp_dir (organize preset genre_mode temp_dir audio_file w).2.
Proof.
  unfold organize. run_try.
  destruct (raises env AtMkdir); [done|]. simpl.
  destruct (raises env AtLocate); [done|]. simpl.
  destruct (find_stems env preset temp_dir audio_file) as [listing|].
  - run_try. destruct (raises env AtListing); [done|]. simpl.
    match goal with |- context [copy_stems ?a ?b ?c ?d] =>
      destruct (copy_stems_flow a b c d) as [_ Hcopy];
      destruct (copy_stems a b c d) as [[copied| |exn] w1] end; try done.
    destruct (combine genre_mode) as [items|]; [|done].
    match goal with |- context [combine_all ?a ?b ?c ?d ?e] =>
      destruct (combine_all_flow a b c d e) as [_ Hcombine] end.
    intros Hret. by rewrite Hret in Hcombine.
  - run_try. intros _. by apply cleaned_after_error; right.
Qed.

Lemma finish_cleaned temp_dir copied w :
  cleaned temp_dir (finish temp_dir copied w).2
  ∧ ∀ e, (finish temp_dir copied w).1 ≠ Raised e.
Proof.
  unfold finish. run_try. destruct copied; run_try.
  - split; [|done]. split; [done|]. split; [set_solver|].
    eexists. split; [done|]. split; [apply last_snoc|]. by right.
  - split; [|done]. split; [done|]. split; [set_solver|].
    eexists. split; [done|]. split; [apply last_snoc|]. by left.
Qed.

(** The [try] block either raises or leaves everything cleaned. *)
Lemma pipeline_cleaned preset genre_mode temp_dir w :
  (∃ e, (pipeline preset genre_mode temp_dir w).1 = Raised e)
  ∨ cleaned temp_dir (pipeline preset genre_mode temp_dir w).2.
Proof.
  unfold pipeline, mbind, Try_bind.
  pose proof (download_audio_returned temp_dir w) as H1.
  destruct (download_audio temp_dir w) as [[audio_file| |e] w1];
    [|right; by apply H1|left; by eexists].
  pose proof (separate_returned preset temp_dir audio_file w1) as H2.
  destruct (separate preset temp_dir audio_file w1) as [[[]| |e] w2];
    [|right; by apply H2|left; by eexists].
  pose proof (organize_returned preset genre_mode temp_dir audio_file w2) as H3.
  destruct (organize preset genre_mode temp_dir audio_file w2)
    as [[copied| |e] w3]; [|right; by apply H3|left; by eexists].
  right. apply finish_cleaned.
Qed.

(** When the engine is missing, or the workspace has been created, the
    function returns, the job file is gone, the workspace (if one was
    created) is gone, and the last record written is [complete], or [error]
    with an error text; after an exception inside the [try] block that
    record carries the exception's text as message and as error. *)
Lemma worker_cleans_up w :
  demucs_available env = false ∨ raises env AtMkdtemp = None →
  let r := run_stem_separation_background env job_id url quality genre title w in
  r.1 = None
  ∧ job_file r.2 = None
  ∧ (demucs_available env = true → mkdtemp env ∉ dirs r.2)
  ∧ (∃ p, progress_file r.2 = Some p ∧ last (written r.2) = Some p
          ∧ (Progress.stage p = Complete
             ∨ (Progress.stage p = Error ∧ is_Some (Progress.error p))))
  ∧ ∀ e,
      demucs_available env = true →
      (pipeline
         (default (QUALITY_PRESETS !!! "fast") (QUALITY_PRESETS !! quality))
         (default (GENRE_MODES !!! "full") (GENRE_MODES !! genre))
         (mkdtemp env)
         (workspace_created env job_id url quality genre title w)).1 = Raised e →
      ∃ p, progress_file r.2 = Some p ∧ Progress.stage p = Error
           ∧ Progress.message p = e ∧ Progress.error p = Some e.
Proof.
  intros Hpre. unfold run_stem_separation_background.
  destruct (demucs_available env) eqn:Havail; simpl.
  - destruct Hpre as [?|Hmk]; [done|]. rewrite Hmk.
    fold (workspace_created env job_id url quality genre title w).
    pose proof (pipeline_cleaned
                  (default (QUALITY_PRESETS !!! "fast") (QUALITY_PRESETS !! quality))
                  (default (GENRE_MODES !!! "full") (GENRE_MODES !! genre))
                  (mkdtemp env)
                  (workspace_created env job_id url quality genre title w))
      as Hclean.
    destruct (pipeline _ _ (mkdtemp env) _) as [flow w1] eqn:Hrun.
    simpl in Hclean.
    assert (∀ e w2, flow = Raised e →
              w2 = clear_job_state (rmtree (mkdtemp env)
                     (report job_id quality genre title Error e 0 None (Some e) w1)) →
              job_file w2 = None ∧ (mkdtemp env ∉ dirs w2)
              ∧ ∃ p, progress_file w2 = Some p ∧ last (written w2) = Some p
                     ∧ Progress.stage p = Error ∧ Progress.message p = e
                     ∧ Progress.error p = Some e) as Hhandler.
    { intros e w2 _ ->. split; [done|]. split; [simpl; set_solver|].
      eexists. split; [done|]. split; [apply last_snoc|done]. }
    destruct flow as [[]| |e]; simpl.
    + destruct Hclean as [[e He]|(? & ? & ?)]; [done|].
      repeat split; try done.
    + destruct Hclean as [[e He]|(? & ? & ?)]; [done|].
      repeat split; try done.
    + destruct (Hhandler e _ eq_refl eq_refl)
        as (Hjob & Hdir & p & Hfile & Hlast & Hstage & Hmsg & Herr).
      split; [done|]. split; [done|]. split; [done|]. split.
      * exists p. split; [done|]. split; [done|]. right. by rewrite Herr.
      * intros e' _ [= <-]. by exists p.
  - split; [done|]. split; [done|]. split; [done|]. split.
    + eexists. split; [done|]. split; [apply last_snoc|]. right. by eauto.
    + intros ? ?. done.
Qed.

End CleanupFacts.

(** ** Worker: order of the writes *)

Section TraceFacts.
Context (env : WorkerEnv) (job_id url quality genre title : string).

#[local] Abbreviation read_stderr :=
  (read_stderr env job_id quality genre title).
#[local] Abbreviation download_audio :=
  (download_audio env job_id url quality genre title).
#[local] Abbreviation separate := (separate env job_id quality genre title).
#[local] Abbreviation organize := (organize env job_id quality genre title).
#[local] Abbreviation finish := (finish job_id quality genre title).
#[local] Abbreviation pipeline := (pipeline env job_id url quality genre title).
#[local] Abbreviation copy_stems := (copy_stems env title).
#[local] Abbreviation combine_all := (combine_all env title).

Ltac run_try :=
  unfold mbind, Try_bind, mret, Try_ret, call, effect, return_now, raise,
    fail_and_clean; simpl.

Lemma upto_start base : upto env 0 0 base base.
Proof.
  exists []. split; [by rewrite app_nil_r|].
  split; [constructor|]. split; [constructor|]. intros _. constructor.
Qed.

Lemma upto_weaken r c r' c' base history :
  upto env r c base history → (r ≤ r')%nat → (bounded_output env → c ≤ c') →
  upto env r' c' base history.
Proof.
  intros (new & -> & Hall & Hrank & Hpercent) Hr Hc.
  exists new. split; [done|]. split; [|done].
  eapply Forall_impl; [exact Hall|]. simpl.
  intros x (? & ? & Hx). split; [done|]. split; [lia|].
  intros HB. specialize (Hx HB). specialize (Hc HB). lia.
Qed.

(** Writing a mid-flight record that is at or beyond the frontier. *)
Lemma upto_snoc r c base history x :
  upto env r c base history →
  mid_flight (Progress.stage x) = true →
  (r ≤ stage_rank (Progress.stage x))%nat →
  (bounded_output env → c ≤ Progress.percent x) →
  upto env (stage_rank (Progress.stage x)) (Progress.percent x) base
       (history ++ [x]).
Proof.
  intros (new & -> & Hall & Hrank & Hpercent) Hmid Hr Hc.
  exists (new ++ [x]). split; [by rewrite app_assoc|].
  rewrite Forall_forall in Hall. split; [|split].
  - apply Forall_app. split.
    + apply Forall_forall. intros y Hy.
      destruct (Hall y Hy) as (? & ? & Hy'). split; [done|]. split; [lia|].
      intros HB. specialize (Hy' HB). specialize (Hc HB). lia.
    + repeat constructor; [done|lia].
  - apply StronglySorted_app_2; [|done|repeat constructor].
    intros y ? Hy ->%list_elem_of_singleton.
    destruct (Hall y Hy) as (? & ? & _). unfold rank_le. lia.
  - intros HB. apply StronglySorted_app_2; [|by apply Hpercent|repeat constructor].
    intros y ? Hy ->%list_elem_of_singleton.
    destruct (Hall y Hy) as (? & ? & Hy'). specialize (Hy' HB).
    specialize (Hc HB). unfold percent_le. lia.
Qed.

(** Writing the terminal record. *)
Lemma finished_snoc r c base history t :
  upto env r c base history → (r ≤ 3)%nat → c ≤ 92 →
  (Progress.stage t = Error ∧ Progress.percent t = 0)
  ∨ (Progress.stage t = Complete ∧ Progress.percent t = 100) →
  finished env base (history ++ [t]).
Proof.
  intros Hupto Hr Hc Ht.
  destruct (upto_weaken r c 3 92 base history Hupto Hr ltac:(done))
    as (body & -> & Hbody).
  exists body, t. by rewrite app_assoc.
Qed.

Ltac snoc r c :=
  simpl;
  match goal with
  | |- upto _ _ _ ?b (?h ++ [?x]) =>
      apply (upto_snoc r c b h x); [done|done|simpl; lia|simpl; lia]
  end.

Lemma read_stderr_trace est base lines : ∀ i last w,
  upto env 2 (overall_percent last) base (written w) →
  10 ≤ last →
  (bounded_output env → last ≤ 100) →
  (bounded_output env →
   Forall (λ line, ∀ p, parse_demucs_progress line = Some p → p ≤ 100) lines) →
  (read_stderr est i lines last w).1 ≠ Returned
  ∧ upto env 2 90 base (written (read_stderr est i lines last w).2).
Proof.
  induction lines as [|line lines IH]; intros i last w Hupto Hlo Hhi Hlines.
  - simpl. split; [done|]. eapply upto_weaken; [done..|].
    intros HB. specialize (Hhi HB).
    pose proof (overall_percent_range last). lia.
  - simpl. run_try.
    assert (bounded_output env →
            Forall (λ line, ∀ p, parse_demucs_progress line = Some p → p ≤ 100)
                   lines) as Hrest.
    { intros HB. by eapply Forall_inv_tail, Hlines. }
    destruct (raises env (AtReadline i)).
    { simpl. split; [done|]. eapply upto_weaken; [done..|].
      intros HB. specialize (Hhi HB).
      pose proof (overall_percent_range last). lia. }
    simpl. destruct (parse_demucs_progress line) as [p|] eqn:Hparse;
      [|by apply IH].
    case_decide as Hgt; [|by apply IH]. simpl. apply IH; try lia.
    + apply (upto_snoc 2 (overall_percent last) base (written w)
               (Progress.mk Processing _ (overall_percent p) _ _ _ _ _ _ _ _));
        try done.
      intros _. apply overall_percent_mono; lia.
    + intros HB. eapply (Forall_inv (Hlines HB)). done.
    + done.
Qed.

Lemma download_audio_trace base temp_dir w :
  upto env 0 0 base (written w) →
  match download_audio temp_dir w with
  | (Next _, w') => upto env 1 5 base (written w')
  | (Returned, w') => finished env base (written w')
  | (Raised _, w') => upto env 3 92 base (written w')
  end.
Proof.
  intros Hupto. unfold download_audio. run_try.
  assert (upto env 1 5 base
            (written (report job_id quality genre title Downloading
                        "Downloading audio from YouTube..." 5 None None w)))
    as H5 by snoc 0%nat 0.
  destruct (raises env AtDownload).
  { simpl. eapply upto_weaken; [done|lia|lia]. }
  simpl. destruct (run_ytdlp env _) as [returncode stderr]. case_decide.
  - run_try. eapply finished_snoc; [done|lia|lia|by left].
  - run_try. destruct (raises env AtGlob).
    { simpl. eapply upto_weaken; [done|lia|lia]. }
    simpl. destruct (glob_audio env temp_dir); run_try; [|done].
    eapply finished_snoc; [done|lia|lia|by left].
Qed.

Lemma separate_trace base preset temp_dir audio_file w :
  upto env 1 5 base (written w) →
  match separate preset temp_dir audio_file w with
  | (Next _, w') => upto env 2 90 base (written w')
  | (Returned, w') => finished env base (written w')
  | (Raised _, w') => upto env 3 92 base (written w')
  end.
Proof.
  intros Hupto. unfold separate. run_try.
  destruct (raises env AtEstimate).
  { simpl. eapply upto_weaken; [done|lia|lia]. }
  simpl.
  match goal with |- context [report ?a ?b ?c ?d Processing ?m 10 ?e ?f w] =>
    assert (upto env 2 10 base (written (report a b c d Processing m 10 e f w)))
      as H10 by snoc 1%nat 5
  end.
  destruct (raises env AtPopen).
  { simpl. eapply upto_weaken; [done|lia|lia]. }
  simpl.
  match goal with |- context [read_stderr ?est ?i ?lines ?last ?w1] =>
    destruct (read_stderr_trace est base lines i last w1) as [Hflow Hloop];
    [ simpl; eapply upto_weaken; [exact H10|lia|done]
    | lia | lia
    | intros HB; apply Forall_forall; intros line Hin p Hp; by eapply HB
    | destruct (read_stderr est i lines last w1) as [[last'| |exn] w2] ]
  end; simpl in *; [|done|eapply upto_weaken; [done|lia|lia]].
  destruct (raises env AtWait).
  { simpl. eapply upto_weaken; [done|lia|lia]. }
  simpl. case_decide; run_try; [|done].
  eapply finished_snoc; [done|lia|lia|by left].
Qed.

Lemma organize_trace base preset genre_mode temp_dir audio_file w :
  upto env 2 90 base (written w) →
  match organize preset genre_mode temp_dir audio_file w with
  | (Next _, w') => upto env 3 92 base (written w')
  | (Returned, w') => finished env base (written w')
  | (Raised _, w') => upto env 3 92 base (written w')
  end.
Proof.
  intros Hupto. unfold organize. run_try.
  assert (upto env 3 92 base
            (written (report job_id quality genre title Finalizing
                        "Organizing stem files..." 92 None None w)))
    as H92 by snoc 2%nat 90.
  destruct (raises env AtMkdir); [done|]. simpl.
  destruct (raises env AtLocate); [done|]. simpl.
  destruct (find_stems env preset temp_dir audio_file) as [listing|].
  - run_try. destruct (raises env AtListing); [done|]. simpl.
    match goal with |- context [copy_stems ?a ?b ?c ?d] =>
      destruct (copy_stems_flow env title a b c d) as [Hw Hcopy];
      destruct (copy_stems a b c d) as [[copied| |exn] w1] end;
      simpl in *; subst; try done.
    destruct (combine genre_mode) as [items|]; [|done].
    match goal with |- context [combine_all ?a ?b ?c ?d ?e] =>
      destruct (combine_all_flow env title a b c d e) as [Hw Hcombine];
      destruct (combine_all a b c d e) as [[copied'| |exn] w1] end;
      simpl in *; subst; done.
  - run_try. eapply finished_snoc; [done|lia|lia|by left].
Qed.

Lemma finish_trace base temp_dir copied w :
  upto env 3 92 base (written w) →
  finished env base (written (finish temp_dir copied w).2)
  ∧ ∀ e, (finish temp_dir copied w).1 ≠ Raised e.
Proof.
  intros Hupto. unfold finish. run_try. destruct copied; run_try.
  - split; [|done]. eapply finished_snoc; [done|lia|lia|by left].
  - split; [|done]. eapply finished_snoc; [done|lia|lia|by right].
Qed.

Lemma pipeline_trace base preset genre_mode temp_dir w :
  upto env 0 0 base (written w) →
  match pipeline preset genre_mode temp_dir w with
  | (Raised _, w') => upto env 3 92 base (written w')
  | (_, w') => finished env base (written w')
  end.
Proof.
  intros Hupto. unfold pipeline, mbind, Try_bind.
  pose proof (download_audio_trace base temp_dir w Hupto) as H1.
  destruct (download_audio temp_dir w) as [[audio_file| |e] w1]; try done.
  pose proof (separate_trace base preset temp_dir audio_file w1 H1) as H2.
  destruct (separate preset temp_dir audio_file w1) as [[[]| |e] w2]; try done.
  pose proof (organize_trace base preset genre_mode temp_dir audio_file w2 H2)
    as H3.
  destruct (organize preset genre_mode temp_dir audio_file w2)
    as [[copied| |e] w3]; try done.
  destruct (finish_trace base temp_dir copied w3 H3) as [H4 Hflow].
  destruct (finish temp_dir copied w3) as [[[]| |e] w4]; try done.
  by destruct (Hflow e).
Qed.

(** What a finished history says about order. *)
Lemma finished_ordered base history :
  finished env base history →
  ∃ new, history = base ++ new
    ∧ StronglySorted rank_le new
    ∧ Forall (λ x, Progress.stage x = Error → Progress.percent x = 0) new
    ∧ (bounded_output env →
       StronglySorted percent_le
         (filter (λ x, Progress.stage x ≠ Error) new)).
Proof.
  intros (body & t & -> & (Hall & Hrank & Hpercent) & Ht).
  exists (body ++ [t]). split; [done|].
  rewrite Forall_forall in Hall. split; [|split].
  - apply StronglySorted_app_2; [|done|repeat constructor].
    intros y ? Hy ->%list_elem_of_singleton.
    destruct (Hall y Hy) as (? & ? & _). unfold rank_le.
    assert (stage_rank (Progress.stage t) = 4%nat) as ->; [|lia].
    by destruct Ht as [[-> _]|[-> _]].
  - apply Forall_app. split.
    + apply Forall_forall. intros y Hy Herr.
      destruct (Hall y Hy) as (Hmid & _). by rewrite Herr in Hmid.
    + repeat constructor. by destruct Ht as [[_ ->]|[-> _]].
  - intros HB. rewrite filter_app.
    assert (filter (λ x, Progress.stage x ≠ Error) body = body) as ->.
    { clear -Hall. induction body as [|y body IH]; [done|].
      rewrite filter_cons_True.
      - f_equal. apply IH. intros z Hz. apply Hall. by right.
      - destruct (Hall y) as (Hmid & _); [by left|].
        intros Herr. by rewrite Herr in Hmid. }
    apply StronglySorted_app_2; [|by apply Hpercent|].
    + intros y z Hy Hz. destruct (Hall y Hy) as (_ & _ & Hy').
      specialize (Hy' HB).
      destruct Ht as [[Hs Hp]|[Hs Hp]].
      * rewrite filter_cons_False in Hz by (by intros H; apply H).
        by apply elem_of_nil in Hz.
      * rewrite filter_cons_True in Hz by (by rewrite Hs).
        apply list_elem_of_singleton in Hz as ->. unfold percent_le. lia.
    + destruct Ht as [[Hs Hp]|[Hs Hp]].
      * rewrite filter_cons_False by (by intros H; apply H). constructor.
      * rewrite filter_cons_True by (by rewrite Hs). repeat constructor.
Qed.

(** C6, as amended: the records written by one run of the worker are
    ordered by stage rank; every [error] record carries percent 0; and, if
    the engine prints no percentage above 100, the records other than
    [error] are ordered by percent. *)
Theorem worker_writes_monotone w :
  let r := run_stem_separation_background env job_id url quality genre title w in
  ∃ new, written r.2 = written w ++ new
    ∧ StronglySorted rank_le new
    ∧ Forall (λ x, Progress.stage x = Error → Progress.percent x = 0) new
    ∧ (bounded_output env →
       StronglySorted percent_le
         (filter (λ x, Progress.stage x ≠ Error) new)).
Proof.
  simpl. unfold run_stem_separation_background.
  destruct (demucs_available env); simpl.
  - destruct (raises env AtMkdtemp).
    { simpl. exists []. rewrite app_nil_r. repeat split; constructor. }
    fold (workspace_created env job_id url quality genre title w).
    match goal with |- context [pipeline ?p ?g ?d ?w1] =>
      pose proof (pipeline_trace (written w) p g d w1 (upto_start _)) as Hrun;
      destruct (pipeline p g d w1) as [[[]| |e] w2] end; simpl.
    + by apply finished_ordered.
    + by apply finished_ordered.
    + apply finished_ordered.
      eapply finished_snoc; [done|lia|lia|by left].
  - apply finished_ordered.
    eapply finished_snoc; [apply upto_start|lia|lia|by left].
Qed.

End TraceFacts.

(** ** Worker: counting the output files *)

Section OutputFacts.
Context (env : WorkerEnv) (job_id url quality genre title : string).

#[local] Abbreviation copy_stems := (copy_stems env title).
#[local] Abbreviation combine_all := (combine_all env title).
#[local] Abbreviation last_record :=
  (last_record job_id quality genre title).

Ltac run_try :=
  unfold mbind, Try_bind, mret, Try_ret, call, effect, return_now, raise,
    fail_and_clean; simpl.

(** Only names of [stem_mapping] become keys of [stem_files]. *)
Lemma collect_stems_keys listing name :
  is_Some (collect_stems listing !! name) → is_Some (stem_mapping !! name).
Proof.
  unfold collect_stems.
  assert (∀ acc : gmap string File,
            (is_Some (acc !! name) → is_Some (stem_mapping !! name)) →
            is_Some (foldl (λ stem_files stem_file,
                       let stem_name := lower (file_stem stem_file) in
                       if decide (is_Some (stem_mapping !! stem_name))
                       then <[stem_name := stem_file]> stem_files
                       else stem_files) acc listing !! name) →
            is_Some (stem_mapping !! name)) as Hgen.
  { induction listing as [|f listing IH]; intros acc Hacc; simpl; [done|].
    apply IH. case_decide as Hkey; [|done].
    destruct (decide (lower (file_stem f) = name)) as [<-|Hne]; [done|].
    by rewrite lookup_insert_ne. }
  apply Hgen. by rewrite lookup_empty; intros [? ?].
Qed.

(** When no copy raises, every stem of the mode that was found is copied
    and counted. *)
Lemma copy_stems_count stem_files names : ∀ copied w,
  (∀ name, raises env (AtCopy name) = None) →
  (∀ name, is_Some (stem_files !! name) → is_Some (stem_mapping !! name)) →
  ∃ more,
    copy_stems stem_files names copied w = (Next (copied ++ more), w)
    ∧ length more
      = length (filter (λ name, is_Some (stem_files !! name)) names).
Proof.
  induction names as [|name names IH]; intros copied w Hno Hkeys; simpl.
  - exists []. by rewrite app_nil_r.
  - destruct (stem_files !! name) as [f|] eqn:Hf.
    + destruct (Hkeys name) as [label Hlabel]; [by rewrite Hf|].
      rewrite Hlabel. run_try. rewrite Hno. simpl.
      destruct (IH (copied ++ [title +:+ " - " +:+ label +:+ file_suffix f])
                  w Hno Hkeys) as (more & -> & Hlen).
      exists ((title +:+ " - " +:+ label +:+ file_suffix f) :: more).
      split; [by rewrite <- app_assoc|].
      rewrite filter_cons_True by (by rewrite Hf). simpl. by rewrite Hlen.
    + destruct (IH copied w Hno Hkeys) as (more & -> & Hlen).
      exists more. split; [done|].
      rewrite filter_cons_False; [done|]. rewrite Hf. by intros [? ?].
Qed.

(** When the mixing tool fails on every command, no combined file is
    counted. *)
Lemma combine_all_mix_fails stem_files folder items : ∀ copied w,
  (∀ name, raises env (AtCombine name) = None) →
  (∀ cmd, run_ffmpeg env cmd ≠ Some 0) →
  combine_all stem_files folder items copied w = (Next copied, w).
Proof.
  induction items as [|[name sources] items IH]; intros copied w Hno Hmix;
    simpl; [done|].
  run_try. rewrite Hno. simpl.
  destruct (omap _ sources) as [|f fs]; [by apply IH|].
  assert (∀ files out, combine_stems env files out = false) as ->.
  { intros files out. unfold combine_stems.
    destruct (run_ffmpeg env _) as [returncode|] eqn:Hrun; [|done].
    apply bool_decide_eq_false_2. intros ->. by eapply Hmix. }
  by apply IH.
Qed.

(** C8: the run reaches the organizing step without a failure, the genre
    mode has a [combine] entry and the mixing tool fails on every command.
    Then the files counted are the stems of the mode found among the
    engine's output, one each, and no combined file; with none of them the
    last record is [error] with error text "No output files", and otherwise
    it is [complete] at percent 100 with the message "Created n stem
    files".  In every run the last step writes that record for the number
    of files it is given. *)
Theorem mix_failure_still_counts_stems
    w genre_mode items audio_file others listing :
  demucs_available env = true →
  (∀ p, raises env p = None) →
  (∀ cmd, (run_ytdlp env cmd).1 = 0) →
  glob_audio env (mkdtemp env) = audio_file :: others →
  (∀ cmd, demucs_returncode env cmd = 0) →
  GENRE_MODES !! genre = Some genre_mode →
  combine genre_mode = Some items →
  find_stems env
    (default (QUALITY_PRESETS !!! "fast") (QUALITY_PRESETS !! quality))
    (mkdtemp env) audio_file = Some listing →
  (∀ cmd, run_ffmpeg env cmd ≠ Some 0) →
  let r := run_stem_separation_background env job_id url quality genre title w in
  let n := length (filter (λ name, is_Some (collect_stems listing !! name))
                          (stems genre_mode)) in
  progress_file r.2 = Some (last_record (clock w) n)
  ∧ ∀ temp_dir copied_files w',
      progress_file (finish job_id quality genre title temp_dir copied_files w').2
      = Some (last_record (clock w') (length copied_files)).
Proof.
  intros Havail Hno Hdl Haudio Hrc Hmode Hcombine Hfind Hmix.
  split; [|intros temp_dir [|? ?] w'; done].
  unfold run_stem_separation_background.
  rewrite Havail, Hno, Hmode. simpl.
  unfold pipeline, download_audio. run_try. rewrite !Hno. simpl.
  specialize (Hdl ([ytdlp_path env; "--extract-audio"; "--audio-format"; "wav";
     "--audio-quality"; "0"; "--output"; path_join (mkdtemp env) "audio.wav";
     "--no-playlist"; url])).
  destruct (run_ytdlp env _) as [returncode stderr]. simpl in Hdl. subst.
  rewrite decide_False by (by intros H; apply H). run_try.
  rewrite Haudio. simpl.
  unfold separate. run_try. rewrite !Hno. simpl.
  match goal with |- context [read_stderr ?a ?b ?c ?d ?e ?f ?g ?h ?i ?j] =>
    destruct (read_stderr_run a b c d e f h g i j)
      as (reported & Hw & _ & _ & Hlast);
    destruct (Hlast (λ k, Hno (AtReadline k))) as (last' & Hflow & _);
    destruct (read_stderr a b c d e f g h i j) as [flow w1] end.
  simpl in Hflow, Hw. subst flow. simpl.
  rewrite decide_False by (intros H; apply H; apply Hrc). run_try.
  unfold organize. run_try. rewrite !Hno. simpl. rewrite Hfind. run_try.
  destruct (copy_stems_count (collect_stems listing) (stems genre_mode) []
              (report job_id quality genre title Finalizing
                 "Organizing stem files..." 92 None None
                 (set_active_process None
                    (set_procs (procs w1 ∖ {[popen_demucs env
                       (demucs_cmd env
                          (default (QUALITY_PRESETS !!! "fast")
                                   (QUALITY_PRESETS !! quality))
                          (mkdtemp env) audio_file)]}) w1)))
              (λ name, Hno (AtCopy name)) (collect_stems_keys listing))
    as (copied & Hcopy & Hlen).
  simpl in Hcopy. rewrite Hcopy. rewrite Hcombine.
  rewrite combine_all_mix_fails by (done || intros; apply Hno).
  unfold finish. run_try. rewrite <- Hlen.
  assert (clock w1 = clock w) as Hclock.
  { rewrite Hw. by rewrite (proj1 (proj2 (reports_fields _ _ _ _ _ _ _))). }
  destruct copied; run_try; by rewrite Hclock.
Qed.

End OutputFacts.

(** ** Unrecognised quality and genre *)

Lemma unknown_quality (quality : string) :
  quality ∉ ["fast"; "balanced"; "high"] →
  QUALITY_PRESETS !! quality = None
  ∧ fallback_estimates !! quality = None
  ∧ quality_suffix !! quality = None.
Proof.
  intros Hq. unfold QUALITY_PRESETS, fallback_estimates, quality_suffix.
  rewrite !lookup_insert_ne, !lookup_empty by set_solver. done.
Qed.

Lemma unknown_genre (genre : string) :
  genre ∉ ["full"; "hiphop"; "rock"] →
  GENRE_MODES !! genre = None ∧ genre_suffix !! genre = None.
Proof.
  intros Hg. unfold GENRE_MODES, genre_suffix.
  rewrite !lookup_insert_ne, !lookup_empty by set_solver. done.
Qed.

Section AlikeFacts.
Context (env : WorkerEnv) (job_id url title : string).

Lemma alike_bind {A B} (m1 m2 : Try A) (k1 k2 : A → Try B) :
  alike m1 m2 → (∀ a, alike (k1 a) (k2 a)) → alike (m1 ≫= k1) (m2 ≫= k2).
Proof.
  intros Hm Hk w1 w2 Hw. unfold mbind, Try_bind.
  destruct (Hm w1 w2 Hw) as [Hflow Hshown].
  destruct (m1 w1) as [f1 w1'], (m2 w2) as [f2 w2']. simpl in *. subst f2.
  destruct f1; [by apply Hk|done|done].
Qed.

Lemma alike_pure {A} (f : Flow A) : alike (λ w, (f, w)) (λ w, (f, w)).
Proof. by intros w1 w2 Hw. Qed.

Lemma alike_call p : alike (call env p) (call env p).
Proof. unfold call. destruct (raises env p); apply alike_pure. Qed.

Lemma alike_effect (f1 f2 : World → World) :
  (∀ w1 w2, shown w1 = shown w2 → shown (f1 w1) = shown (f2 w2)) →
  alike (effect f1) (effect f2).
Proof. intros Hf w1 w2 Hw. split; [done|]. by apply Hf. Qed.

Lemma shown_report q1 g1 q2 g2 stage message percent e1 e2 error w1 w2 :
  shown w1 = shown w2 →
  shown (report job_id q1 g1 title stage message percent e1 error w1)
  = shown (report job_id q2 g2 title stage message percent e2 error w2).
Proof. unfold shown. simpl. rewrite !fmap_app. by intros ->. Qed.

Lemma alike_fail_and_clean q1 g1 q2 g2 temp_dir message error :
  alike (fail_and_clean job_id q1 g1 title temp_dir message error)
        (fail_and_clean job_id q2 g2 title temp_dir message error).
Proof.
  unfold fail_and_clean.
  repeat (apply alike_bind; [|intros _]); apply alike_effect; try done.
  intros. by apply shown_report.
Qed.

Lemma alike_read_stderr q1 g1 q2 g2 e1 e2 lines : ∀ i last,
  alike (read_stderr env job_id q1 g1 title e1 i lines last)
        (read_stderr env job_id q2 g2 title e2 i lines last).
Proof.
  induction lines as [|line lines IH]; intros i last; simpl.
  - apply alike_pure.
  - apply alike_bind; [apply alike_call|intros _].
    destruct (parse_demucs_progress line); [|apply IH].
    case_decide; [|apply IH].
    apply alike_bind; [|intros _; apply IH].
    apply alike_effect. intros. by apply shown_report.
Qed.

Lemma alike_refl_flow {A} (m : Try A) :
  (∀ w, (m w).2 = w) → (∀ w1 w2, (m w1).1 = (m w2).1) → alike m m.
Proof.
  intros Hw Hf w1 w2 Hshown. split; [apply Hf|]. by rewrite !Hw.
Qed.

Lemma copy_stems_pure stem_files names : ∀ copied,
  ∃ f, ∀ w, copy_stems env title stem_files names copied w = (f, w).
Proof.
  induction names as [|name names IH]; intros copied; simpl.
  - by eexists.
  - destruct (stem_files !! name); [|apply IH].
    destruct (stem_mapping !! name); [|by eexists].
    unfold mbind, Try_bind, call.
    destruct (raises env (AtCopy name)); [by eexists|]. simpl. apply IH.
Qed.

Lemma combine_all_pure stem_files folder items : ∀ copied,
  ∃ f, ∀ w, combine_all env title stem_files folder items copied w = (f, w).
Proof.
  induction items as [|[name sources] items IH]; intros copied; simpl.
  - by eexists.
  - unfold mbind, Try_bind, call.
    destruct (raises env (AtCombine name)); [by eexists|]. simpl.
    destruct (omap _ sources); [apply IH|].
    destruct (combine_stems _ _ _); apply IH.
Qed.

Lemma alike_download q1 g1 q2 g2 temp_dir :
  alike (download_audio env job_id url q1 g1 title temp_dir)
        (download_audio env job_id url q2 g2 title temp_dir).
Proof.
  unfold download_audio.
  apply alike_bind; [apply alike_effect; intros; by apply shown_report|intros _].
  apply alike_bind; [apply alike_call|intros _].
  destruct (run_ytdlp env _) as [returncode stderr]. case_decide.
  - apply alike_bind; [apply alike_fail_and_clean|intros _; apply alike_pure].
  - apply alike_bind; [apply alike_call|intros _].
    destruct (glob_audio env temp_dir); [|apply alike_pure].
    apply alike_bind; [apply alike_fail_and_clean|intros _; apply alike_pure].
Qed.

Lemma alike_separate q1 g1 q2 g2 preset temp_dir audio_file :
  alike (separate env job_id q1 g1 title preset temp_dir audio_file)
        (separate env job_id q2 g2 title preset temp_dir audio_file).
Proof.
  unfold separate.
  apply alike_bind; [apply alike_call|intros _].
  apply alike_bind; [apply alike_effect; intros; by apply shown_report|intros _].
  apply alike_bind; [apply alike_call|intros _].
  apply alike_bind; [by apply alike_effect|intros _].
  apply alike_bind; [apply alike_read_stderr|intros _].
  apply alike_bind; [apply alike_call|intros _].
  apply alike_bind; [by apply alike_effect|intros _].
  case_decide; [|by apply alike_effect].
  apply alike_bind; [apply alike_effect; intros; by apply shown_report|intros _].
  repeat (apply alike_bind; [by apply alike_effect|intros _]).
  apply alike_pure.
Qed.

Lemma alike_organize q1 g1 q2 g2 preset genre_mode temp_dir audio_file :
  default EmptyString (quality_suffix !! q1) = default EmptyString (quality_suffix !! q2) →
  default "Stems" (genre_suffix !! g1) = default "Stems" (genre_suffix !! g2) →
  alike (organize env job_id q1 g1 title preset genre_mode temp_dir audio_file)
        (organize env job_id q2 g2 title preset genre_mode temp_dir audio_file).
Proof.
  intros Hq Hg. unfold organize. rewrite Hq, Hg.
  apply alike_bind; [apply alike_effect; intros; by apply shown_report|intros _].
  apply alike_bind; [apply alike_call|intros _].
  apply alike_bind; [apply alike_call|intros _].
  destruct (find_stems env preset temp_dir audio_file) as [listing|].
  - apply alike_bind; [apply alike_call|intros _].
    apply alike_bind.
    + destruct (copy_stems_pure (collect_stems listing) (stems genre_mode) [])
        as [f Hf].
      apply alike_refl_flow; intros; by rewrite !Hf.
    + intros copied. destruct (combine genre_mode) as [items|];
        [|apply alike_pure].
      match goal with |- alike (combine_all _ _ ?a ?b ?c ?d) _ =>
        destruct (combine_all_pure a b c d) as [f Hf] end.
      apply alike_refl_flow; intros; by rewrite !Hf.
  - apply alike_bind; [apply alike_fail_and_clean|intros _; apply alike_pure].
Qed.

Lemma alike_finish q1 g1 q2 g2 temp_dir copied :
  alike (finish job_id q1 g1 title temp_dir copied)
        (finish job_id q2 g2 title temp_dir copied).
Proof.
  unfold finish.
  repeat (apply alike_bind; [by apply alike_effect|intros _]).
  destruct copied.
  - apply alike_bind; [|intros _; apply alike_pure].
    apply alike_effect; intros; by apply shown_report.
  - apply alike_effect; intros; by apply shown_report.
Qed.

(** The worker takes the same path and shows the same records for two
    pairs of quality and genre that select the same preset, the same genre
    mode, and the same folder suffixes. *)
Lemma alike_run q1 g1 q2 g2 w :
  default (QUALITY_PRESETS !!! "fast") (QUALITY_PRESETS !! q1)
  = default (QUALITY_PRESETS !!! "fast") (QUALITY_PRESETS !! q2) →
  default (GENRE_MODES !!! "full") (GENRE_MODES !! g1)
  = default (GENRE_MODES !!! "full") (GENRE_MODES !! g2) →
  default EmptyString (quality_suffix !! q1) = default EmptyString (quality_suffix !! q2) →
  default "Stems" (genre_suffix !! g1) = default "Stems" (genre_suffix !! g2) →
  let r1 := run_stem_separation_background env job_id url q1 g1 title w in
  let r2 := run_stem_separation_background env job_id url q2 g2 title w in
  r1.1 = r2.1 ∧ shown r1.2 = shown r2.2.
Proof.
  intros Hpreset Hmode Hq Hg. simpl. unfold run_stem_separation_background.
  rewrite Hpreset, Hmode. destruct (demucs_available env); simpl;
    [|split; [done|by apply shown_report]].
  destruct (raises env AtMkdtemp); [done|].
  match goal with
  | |- context [pipeline env job_id url q1 g1 title ?p ?g ?d ?wa] =>
    match goal with
    | |- context [pipeline env job_id url q2 g2 title p g d ?wb] =>
      assert (alike (pipeline env job_id url q1 g1 title p g d)
                    (pipeline env job_id url q2 g2 title p g d)) as Halike;
      [|destruct (Halike wa wb) as [Hflow Hshown]; [done|];
        destruct (pipeline env job_id url q1 g1 title p g d wa) as [f1 w1];
        destruct (pipeline env job_id url q2 g2 title p g d wb) as [f2 w2]]
    end
  end.
  { unfold pipeline.
    apply alike_bind; [apply alike_download|intros audio_file].
    apply alike_bind; [apply alike_separate|intros _].
    apply alike_bind; [by apply alike_organize|intros copied].
    apply alike_finish. }
  simpl in *. subst f2. destruct f1; try done. simpl. split; [done|].
  by apply shown_report.
Qed.

End AlikeFacts.

(** What holds once the values have reached the pipeline: a quality outside
    fast, balanced, high selects the preset of 'fast', and a genre outside
    full, hiphop, rock selects the mode of 'full' with its four stems and
    no combination; the host answers such a request as it answers one for
    'fast' and 'full'; and the pipeline takes the same path and shows the
    same records (stage, message, percent and error text) as it does for
    'fast', respectively 'full'. *)
Lemma unrecognised_quality_and_genre
    (henv : HostEnv) (env : WorkerEnv) (job_id url title quality genre : string)
    (w : World) :
  (quality ∉ ["fast"; "balanced"; "high"] →
     default (QUALITY_PRESETS !!! "fast") (QUALITY_PRESETS !! quality)
       = preset_fast
     ∧ (start_stems_job henv url quality genre w).1
       = (start_stems_job henv url "fast" genre w).1
     ∧ (run_stem_separation_background env job_id url quality genre title w).1
       = (run_stem_separation_background env job_id url "fast" genre title w).1
     ∧ shown (run_stem_separation_background env job_id url quality genre title w).2
       = shown (run_stem_separation_background env job_id url "fast" genre title w).2)
  ∧ (genre ∉ ["full"; "hiphop"; "rock"] →
     default (GENRE_MODES !!! "full") (GENRE_MODES !! genre) = mode_full
     ∧ stems mode_full = ["vocals"; "drums"; "bass"; "other"]
     ∧ combine mode_full = None
     ∧ (start_stems_job henv url quality genre w).1
       = (start_stems_job henv url quality "full" w).1
     ∧ (run_stem_separation_background env job_id url quality genre title w).1
       = (run_stem_separation_background env job_id url quality "full" title w).1
     ∧ shown (run_stem_separation_background env job_id url quality genre title w).2
       = shown (run_stem_separation_background env job_id url quality "full" title w).2).
Proof.
  assert (∀ q g q' g', (start_stems_job henv url q g w).1
                       = (start_stems_job henv url q' g' w).1) as Hhost.
  { intros. unfold start_stems_job. by destruct (check_active_job w). }
  split.
  - intros (Hpreset & _ & Hsuffix)%unknown_quality.
    assert (default (QUALITY_PRESETS !!! "fast") (QUALITY_PRESETS !! quality)
            = preset_fast) as Hfast by (by rewrite Hpreset).
    split; [done|]. split; [apply Hhost|].
    apply alike_run; try done. by rewrite Hsuffix.
  - intros (Hmode & Hsuffix)%unknown_genre.
    assert (default (GENRE_MODES !!! "full") (GENRE_MODES !! genre)
            = mode_full) as Hfull by (by rewrite Hmode).
    split; [done|]. split; [done|]. split; [done|]. split; [apply Hhost|].
    apply alike_run; try done. by rewrite Hsuffix.
Qed.

(** ** Worker: instances *)

Lemma read_stderr_reports_witness :
  let env := Sample.tools Sample.no_fault 0 Sample.tqdm 1 in
  let loop := read_stderr env "job_1700000000" "fast" "hiphop" "Song" 110 0 in
  parse_demucs_progress " 16%|#6        | 20/123" = Some 16
  ∧ ∃ reported : list Z,
      StronglySorted Z.lt (10 :: reported)
      ∧ written (loop (take 3 Sample.tqdm) 10 Sample.spawned).2
        = written (loop (take 2 Sample.tqdm) 10 Sample.spawned).2
          ++ (if decide (Forall (λ q, q < 16) (10 :: reported))
              then [separation_update "job_1700000000" "fast" "hiphop" "Song"
                      110 1700000000 16]
              else []).
Proof.
  split; [reflexivity|].
  destruct (read_stderr_reports
              (Sample.tools Sample.no_fault 0 Sample.tqdm 1)
              "job_1700000000" "fast" "hiphop" "Song" 110
              (take 2 Sample.tqdm) " 16%|#6        | 20/123" 16 Sample.spawned
              (λ _, eq_refl) eq_refl)
    as (reported & _ & Hsorted & _ & Hafter & _).
  exists reported. split; [exact Hsorted|exact Hafter].
Defined.

(** C5 fails as stated: the first line carries 5%, nothing has been
    reported for an earlier line, and no update is written; and the
    updates for 15% and for 16% both carry percent 22. *)
Lemma read_stderr_skips_and_repeats :
  let env := Sample.tools Sample.no_fault 0 Sample.tqdm 1 in
  let loop := read_stderr env "job_1700000000" "fast" "hiphop" "Song" 110 0 in
  parse_demucs_progress "  5%|5         | 6/123" = Some 5
  ∧ written (loop (take 1 Sample.tqdm) 10 Sample.spawned).2
    = written Sample.spawned
  ∧ (Progress.percent
       <$> drop (length (written Sample.spawned))
                (written (loop Sample.tqdm 10 Sample.spawned).2))
    = [22; 22; 90].
Proof. repeat split. Qed.

Lemma sample_output_bounded raises ytdlp ffmpeg :
  bounded_output (Sample.tools raises ytdlp Sample.tqdm ffmpeg).
Proof.
  intros cmd line p Hin Hp. simpl in Hin.
  repeat (apply elem_of_cons in Hin as [->|Hin]);
    try (vm_compute in Hp; injection Hp as <-; done).
  by apply elem_of_nil in Hin.
Qed.

Lemma worker_writes_monotone_witness :
  let r := Sample.run (Sample.tools Sample.no_fault 0 Sample.tqdm 1) "fast" in
  bounded_output (Sample.tools Sample.no_fault 0 Sample.tqdm 1)
  ∧ ∃ new, written r.2 = written Sample.spawned ++ new
      ∧ StronglySorted rank_le new
      ∧ StronglySorted percent_le
          (filter (λ x, Progress.stage x ≠ Error) new).
Proof.
  split; [apply sample_output_bounded|].
  destruct (worker_writes_monotone
              (Sample.tools Sample.no_fault 0 Sample.tqdm 1)
              "job_1700000000" "https://youtu.be/x" "fast" "hiphop" "Song"
              Sample.spawned)
    as (new & Hnew & Hrank & _ & Hpercent).
  exists new. split; [exact Hnew|]. split; [exact Hrank|].
  apply Hpercent, sample_output_bounded.
Defined.

(** C6 fails as stated: when the download fails, the worker writes percent
    5 and then, with the [error] record, percent 0. *)
Lemma worker_error_resets_percent :
  let r := Sample.run (Sample.tools Sample.no_fault 1 Sample.tqdm 1) "fast" in
  Sample.stages_added r = [Downloading; Error]
  ∧ Sample.percents_added r = [5; 0]
  ∧ ¬ StronglySorted Z.le (Sample.percents_added r).
Proof.
  split; [reflexivity|]. split; [reflexivity|].
  change (Sample.percents_added _) with [5; 0].
  intros [_ H]%StronglySorted_inv. apply Forall_inv in H. lia.
Qed.

Lemma worker_cleans_up_example :
  let env := Sample.tools Sample.copy_fault 0 Sample.tqdm 1 in
  let r := Sample.run env "fast" in
  raises env AtMkdtemp = None
  ∧ r.1 = None ∧ job_file r.2 = None ∧ (mkdtemp env ∉ dirs r.2)
  ∧ ∃ p, progress_file r.2 = Some p ∧ Progress.stage p = Error
         ∧ Progress.message p = "No space left on device".
Proof.
  split; [reflexivity|].
  destruct (worker_cleans_up
              (Sample.tools Sample.copy_fault 0 Sample.tqdm 1)
              "job_1700000000" "https://youtu.be/x" "fast" "hiphop" "Song"
              Sample.spawned (or_intror eq_refl))
    as (Hret & Hjob & Hdir & _ & Herr).
  split; [exact Hret|]. split; [exact Hjob|]. split; [exact (Hdir eq_refl)|].
  destruct (Herr "No space left on device" eq_refl eq_refl)
    as (p & Hp & Hstage & Hmsg & _).
  exists p. split; [exact Hp|]. split; [exact Hstage|exact Hmsg].
Defined.

(** C7, at the failing input: [tempfile.mkdtemp] raises.  The exception
    leaves the function, nothing is written or removed, the job file
    written by the host stays, and the stored record is the host's
    [downloading] record. *)
Theorem worker_dies_before_try :
  let env := Sample.tools Sample.mkdtemp_fault 0 Sample.tqdm 1 in
  let r := Sample.run env "fast" in
  r.1 = Some "No usable temporary directory found"
  ∧ r.2 = Sample.spawned
  ∧ (Job.pid <$> job_file r.2) = Some (Some 4321)
  ∧ (Progress.stage <$> progress_file r.2) = Some Downloading.
Proof. repeat split. Qed.

Lemma mix_failure_still_counts_stems_witness :
  let env := Sample.tools Sample.no_fault 0 Sample.tqdm 1 in
  let r := Sample.run env "fast" in
  (∀ cmd, run_ffmpeg env cmd ≠ Some 0)
  ∧ length (filter (λ name, is_Some (collect_stems Sample.stems_found !! name))
                   (stems mode_hiphop)) = 1%nat
  ∧ progress_file r.2
    = Some (Progress.mk Complete "Created 1 stem files" 100 None (Some "Song")
              (Some "job_1700000000") (Some "download_stems") (Some "fast")
              (Some "hiphop") None (Some 1700000000)).
Proof.
  assert (∀ cmd, run_ffmpeg (Sample.tools Sample.no_fault 0 Sample.tqdm 1) cmd
                 ≠ Some 0) as Hmix by (intros cmd [=]).
  split; [exact Hmix|]. split; [reflexivity|].
  exact (proj1 (mix_failure_still_counts_stems
           (Sample.tools Sample.no_fault 0 Sample.tqdm 1)
           "job_1700000000" "https://youtu.be/x" "fast" "hiphop" "Song"
           Sample.spawned mode_hiphop [("beat", ["drums"; "bass"; "other"])]
           (mkFile "/tmp/centrifugue_b/audio.wav" "audio" ".wav") []
           Sample.stems_found
           eq_refl (λ _, eq_refl) (λ _, eq_refl) eq_refl (λ _, eq_refl)
           eq_refl eq_refl eq_refl Hmix)).
Defined.

(** With a working mixing tool the combined file is counted as well. *)
Lemma mix_success_counts_beat :
  Progress.message
    <$> progress_file
          (Sample.run (Sample.tools Sample.no_fault 0 Sample.tqdm 0) "fast").2
  = Some "Created 2 stem files".
Proof. reflexivity. Qed.

Lemma unrecognised_quality_and_genre_example :
  let env := Sample.tools Sample.no_fault 0 Sample.tqdm 1 in
  ("ultra" ∉ ["fast"; "balanced"; "high"])
  ∧ default (QUALITY_PRESETS !!! "fast") (QUALITY_PRESETS !! "ultra")
    = preset_fast
  ∧ shown (Sample.run env "ultra").2 = shown (Sample.run env "fast").2.
Proof.
  assert ("ultra" ∉ ["fast"; "balanced"; "high"]) as Hq by set_solver.
  split; [exact Hq|].
  destruct (unrecognised_quality_and_genre Sample.host
              (Sample.tools Sample.no_fault 0 Sample.tqdm 1)
              "job_1700000000" "https://youtu.be/x" "Song" "ultra" "hiphop"
              Sample.spawned) as [H _].
  destruct (H Hq) as (Hpreset & _ & _ & Hshown).
  split; [exact Hpreset|exact Hshown].
Defined.

(** ** The worker's command line *)

(** A value that the parser reads as an option ends the worker before the
    pipeline is entered. *)
Lemma option_like_value_ends_worker env job_id url quality genre title w :
  taken_as_value quality = false →
  run_worker_mode env job_id url quality genre title w = (ExitUsage, w).
Proof.
  intros Hq. unfold run_worker_mode, parse_args. simpl. rewrite Hq.
  by rewrite !andb_false_r.
Qed.

(** Values that the parser reads as values reach the pipeline unchanged. *)
Lemma plain_values_reach_pipeline env job_id url quality genre title w :
  Forall (λ v, taken_as_value v = true) [job_id; url; quality; genre; title] →
  run_worker_mode env job_id url quality genre title w
  = match run_stem_separation_background env job_id url quality genre title w
    with
    | (None, w) => (ExitOk, w)
    | (Some e, w) => (ExitTraceback e, w)
    end.
Proof.
  intros Hall. unfold run_worker_mode, parse_args. simpl.
  repeat (apply Forall_cons in Hall as [-> Hall]). done.
Qed.

(** C10, at the failing input: the request names the quality ["-x"].  The
    host accepts it and spawns the worker; the parser reads ["-x"] as an
    option and ends the worker with status 2 before the pipeline, so that
    no preset is selected and nothing is written; at its next start the
    host finds the worker dead and turns the [downloading] record into
    [error], "Previous job was interrupted". *)
Theorem option_like_quality_ends_in_error :
  let env := Sample.tools Sample.no_fault 0 Sample.tqdm 0 in
  let accepted :=
    start_stems_job Sample.host "https://youtu.be/x" "-x" "full"
                    (Sample.empty_world 1700000000) in
  let ended :=
    worker_process env "job_1700000000" "https://youtu.be/x" "-x" "full" "Song"
                   accepted.2 in
  let later := check_stale_job (set_clock 1700000002 ended.2) in
  ("-x" ∉ ["fast"; "balanced"; "high"])
  ∧ accepted.1 = RespStarted "job_1700000000" "Song" "Stem separation started"
  ∧ ended.1 = ExitUsage
  ∧ written ended.2 = written accepted.2
  ∧ progress_file later
    = Some (Progress.mk Error "Previous job was interrupted" 0 None
              (Some "Song") (Some "job_1700000000") None None None
              (Some "Job interrupted") (Some 1700000002)).
Proof. split; [set_solver|]. repeat split. Qed.

(** ** File names *)

Lemma contains_remove_unsafe c name :
  c ∈ unsafe_chars → contains c (remove_unsafe name) = false.
Proof.
  intros Hc. induction name as [|a name IH]; simpl; [done|].
  case_bool_decide as Ha; [done|]. simpl.
  case_decide; [by subst|done].
Qed.

Lemma contains_collapse_spaces c name : ∀ in_run,
  c ≠ " "%char → contains c name = false →
  contains c (collapse_spaces in_run name) = false.
Proof.
  induction name as [|a name IH]; intros in_run Hc; simpl; [done|].
  case_decide; [done|]. intros Hname.
  destruct (isspace a), in_run; simpl; rewrite ?decide_False by done; auto.
Qed.

Lemma contains_lstrip c s : contains c s = false → contains c (lstrip s) = false.
Proof.
  induction s as [|a s IH]; simpl; [done|].
  case_decide; [done|]. intros Hs.
  destruct (isspace a); simpl; [auto|]. by rewrite decide_False.
Qed.

Lemma contains_rstrip c s : contains c s = false → contains c (rstrip s) = false.
Proof.
  induction s as [|a s IH]; simpl; [done|].
  case_decide; [done|]. intros Hs. specialize (IH Hs).
  destruct (rstrip s); simpl.
  - destruct (isspace a); simpl; [done|]. by rewrite decide_False.
  - rewrite decide_False by done. done.
Qed.

Lemma contains_substring c n s :
  contains c s = false → contains c (substring 0 n s) = false.
Proof.
  revert s. induction n as [|n IH]; intros [|a s]; simpl; try done.
  case_decide; [done|]. auto.
Qed.

Lemma length_substring n s :
  (String.length (substring 0 n s) ≤ n)%nat
  ∧ ((n ≤ String.length s)%nat → String.length (substring 0 n s) = n).
Proof.
  revert s. induction n as [|n IH]; intros [|a s]; simpl; try (split; lia).
  destruct (IH s). split; [lia|]. intros ?. f_equal. apply H0. lia.
Qed.

Lemma sanitize_filename_unfold name :
  sanitize_filename name
  = if decide (tidy name = EmptyString) then "download"
    else if decide (100 < String.length (tidy name))%nat
         then substring 0 100 (tidy name) else tidy name.
Proof.
  unfold sanitize_filename. fold (tidy name). cbv zeta.
  destruct (decide (tidy name = EmptyString)) as [->|Hne]; [done|].
  destruct (decide (100 < String.length (tidy name))%nat) as [Hlen|Hlen];
    [|by rewrite decide_False].
  rewrite decide_False; [done|].
  intros Hsub. pose proof (proj2 (length_substring 100 (tidy name)) ltac:(lia)) as H.
  by rewrite Hsub in H.
Qed.

Lemma contains_tidy c name : c ∈ unsafe_chars → contains c (tidy name) = false.
Proof.
  intros Hc. apply contains_rstrip, contains_lstrip, contains_collapse_spaces.
  - intros ->. apply (bool_decide_pack _) in Hc. by vm_compute in Hc.
  - by apply contains_remove_unsafe.
Qed.

Lemma single_spaced_weaken s : single_spaced true s = true → single_spaced false s = true.
Proof.
  destruct s as [|a s]; simpl; [done|]. destruct (isspace a); [|done].
  by rewrite andb_false_r.
Qed.

Lemma single_spaced_collapse name : ∀ in_run,
  single_spaced in_run (collapse_spaces in_run name) = true.
Proof.
  induction name as [|a name IH]; intros in_run; simpl; [done|].
  destruct (isspace a) eqn:Ha.
  - destruct in_run; [apply IH|]. simpl. apply IH.
  - simpl. rewrite Ha. apply IH.
Qed.

Lemma single_spaced_lstrip s : ∀ b b',
  single_spaced b s = true → single_spaced b' (lstrip s) = true.
Proof.
  induction s as [|a s IH]; intros b b'; simpl; [done|].
  destruct (isspace a) eqn:Ha.
  - intros (_ & H)%andb_prop. by eapply IH.
  - simpl. by rewrite Ha.
Qed.

Lemma single_spaced_rstrip s : ∀ b,
  single_spaced b s = true → single_spaced b (rstrip s) = true.
Proof.
  induction s as [|a s IH]; intros b; simpl; [done|].
  destruct (isspace a) eqn:Ha.
  - intros ((Hsp & Hb)%andb_prop & H)%andb_prop. specialize (IH true H).
    destruct (rstrip s); [done|]. simpl in *. rewrite Ha, Hsp, Hb. done.
  - intros H. specialize (IH false H).
    destruct (rstrip s); simpl in *; by rewrite Ha.
Qed.

Lemma single_spaced_substring n : ∀ s b,
  single_spaced b s = true → single_spaced b (substring 0 n s) = true.
Proof.
  induction n as [|n IH]; intros [|a s] b; simpl; try done.
  destruct (isspace a).
  - intros (-> & H)%andb_prop. simpl. by apply IH.
  - by apply IH.
Qed.

Lemma ends_in_space_rstrip s : ends_in_space (rstrip s) = false.
Proof.
  induction s as [|a s IH]; simpl; [done|].
  destruct (rstrip s) as [|b kept]; [by destruct (isspace a) eqn:Ha|done].
Qed.

Lemma single_spaced_tidy name : single_spaced true (tidy name) = true.
Proof.
  apply single_spaced_rstrip.
  apply (single_spaced_lstrip _ false), single_spaced_collapse.
Qed.

(** What [single_spaced] and [ends_in_space] say, position by position. *)
Lemma single_spaced_get s : ∀ b i c,
  single_spaced b s = true → get i s = Some c → isspace c = true →
  c = " "%char ∧ (b = true → i ≠ 0%nat) ∧ get (S i) s ≠ Some " "%char.
Proof.
  induction s as [|a s IH]; intros b i c; simpl; [by destruct i|].
  destruct i as [|i].
  - intros H [= ->] Hc. rewrite Hc in H.
    apply andb_prop in H as ((Ha%bool_decide_eq_true & Hb)%andb_prop & H).
    split; [done|]. split; [by intros ->|].
    destruct s as [|d s]; simpl; [done|]. intros [= ->]. simpl in H.
    done.
  - intros H Hget Hc.
    assert (∃ b', single_spaced b' s = true) as [b' Hs].
    { destruct (isspace a); [|by eauto]. apply andb_prop in H as [_ H]. eauto. }
    destruct (IH b' i c Hs Hget Hc) as (Hsp & _ & Hnext). done.
Qed.

Lemma ends_in_space_get s : ∀ i c,
  ends_in_space s = false → get i s = Some c → isspace c = true →
  is_Some (get (S i) s).
Proof.
  induction s as [|a s IH]; intros i c; [by destruct i|].
  destruct i as [|i]; simpl.
  - destruct s; [by intros H [= ->] Hc; rewrite Hc in H|]. by eauto.
  - destruct s; [by destruct i|]. apply IH.
Qed.

(** Steps that leave a name as it is. *)
Lemma remove_unsafe_id s :
  forallb (λ c, negb (contains c s)) unsafe_chars = true → remove_unsafe s = s.
Proof.
  intros H. rewrite forallb_forall in H.
  assert (∀ c, c ∈ unsafe_chars → contains c s = false) as Hall.
  { intros c Hc%list_elem_of_In. apply negb_true_iff. by apply H. }
  clear H. induction s as [|a s IH]; simpl; [done|].
  case_bool_decide as Ha.
  - specialize (Hall a Ha). simpl in Hall. by rewrite decide_True in Hall.
  - f_equal. apply IH. intros c Hc. specialize (Hall c Hc). simpl in Hall.
    by case_decide.
Qed.

Lemma collapse_spaces_id s : ∀ b,
  single_spaced b s = true → collapse_spaces b s = s.
Proof.
  induction s as [|a s IH]; intros b; simpl; [done|].
  destruct (isspace a).
  - intros ((->%bool_decide_eq_true & Hb)%andb_prop & H)%andb_prop.
    destruct b; [done|]. f_equal. by apply IH.
  - intros H. f_equal. by apply IH.
Qed.

Lemma lstrip_id s : single_spaced true s = true → lstrip s = s.
Proof.
  destruct s as [|a s]; simpl; [done|]. destruct (isspace a); [|done].
  by rewrite andb_false_r.
Qed.

Lemma rstrip_id s : ends_in_space s = false → rstrip s = s.
Proof.
  induction s as [|a s IH]; [done|]. simpl.
  destruct s as [|b s]; [by intros ->|].
  intros H. by rewrite (IH H).
Qed.

Lemma clean_name_fixed s : clean_name s = true → sanitize_filename s = s.
Proof.
  unfold clean_name.
  intros ((((Hsafe & Hsp)%andb_prop & Hend%negb_true_iff)%andb_prop
           & Hne%negb_true_iff%bool_decide_eq_false)%andb_prop
          & Hlen%bool_decide_eq_true)%andb_prop.
  assert (tidy s = s) as Htidy.
  { unfold tidy, strip. rewrite remove_unsafe_id by done.
    rewrite collapse_spaces_id by (by apply single_spaced_weaken).
    rewrite lstrip_id by done. by apply rstrip_id. }
  rewrite sanitize_filename_unfold, Htidy.
  rewrite decide_False by done. rewrite decide_False by lia. done.
Qed.

(** The result is clean unless the cut at 100 characters left a space at
    its end. *)
Lemma sanitize_filename_clean name :
  ends_in_space (sanitize_filename name) = false →
  clean_name (sanitize_filename name) = true.
Proof.
  rewrite sanitize_filename_unfold.
  destruct (decide (tidy name = EmptyString)) as [Hempty|Hne]; [done|].
  set (r := if decide (100 < String.length (tidy name))%nat
            then substring 0 100 (tidy name) else tidy name).
  intros Hend.
  assert (forallb (λ c, negb (contains c r)) unsafe_chars = true) as H1.
  { apply forallb_forall. intros c Hc%list_elem_of_In. apply negb_true_iff.
    unfold r. case_decide; [apply contains_substring|]; by apply contains_tidy. }
  assert (single_spaced true r = true) as H2.
  { unfold r. case_decide; [apply single_spaced_substring|];
      apply single_spaced_tidy. }
  assert (r ≠ EmptyString ∧ (String.length r ≤ 100)%nat) as [H3 H4].
  { unfold r. case_decide as Hlen; [|split; [done|lia]].
    pose proof (length_substring 100 (tidy name)) as [Hle Heq].
    split; [|done]. intros Hsub. rewrite Hsub in Heq. simpl in Heq. lia. }
  unfold clean_name. rewrite H1, H2, Hend.
  rewrite bool_decide_eq_false_2 by done.
  by rewrite bool_decide_eq_true_2 by done.
Qed.

Lemma short_result_ends_well name :
  (String.length (sanitize_filename name) < 100)%nat →
  ends_in_space (sanitize_filename name) = false.
Proof.
  rewrite sanitize_filename_unfold.
  destruct (decide (tidy name = EmptyString)) as [Hempty|Hne]; [done|].
  case_decide as Hlen; [|intros _; apply ends_in_space_rstrip].
  rewrite (proj2 (length_substring 100 (tidy name))) by lia. lia.
Qed.

Lemma sanitize_filename_bounds name :
  sanitize_filename name ≠ EmptyString
  ∧ (String.length (sanitize_filename name) ≤ 100)%nat
  ∧ ∀ c, c ∈ unsafe_chars → contains c (sanitize_filename name) = false.
Proof.
  rewrite sanitize_filename_unfold.
  destruct (decide (tidy name = EmptyString)) as [Hempty|Hne].
  { split; [done|]. split; [simpl; lia|].
    apply Forall_forall. by repeat constructor. }
  case_decide as Hlen.
  - pose proof (length_substring 100 (tidy name)) as [Hle Heq].
    split; [|split; [done|]].
    + intros Hsub. rewrite Hsub in Heq. simpl in Heq. lia.
    + intros c Hc. by apply contains_substring, contains_tidy.
  - split; [done|]. split; [lia|]. intros c Hc. by apply contains_tidy.
Qed.

(** X11: the result of [sanitize_filename] is never empty, has at most 100
    characters, and holds none of the nine unsafe characters. *)
Theorem sanitize_filename_safe name :
  sanitize_filename name ≠ EmptyString
  ∧ (0 < String.length (sanitize_filename name) ≤ 100)%nat
  ∧ ∀ c, c ∈ unsafe_chars → contains c (sanitize_filename name) = false.
Proof.
  destruct (sanitize_filename_bounds name) as (Hne & Hlen & Hsafe).
  split; [done|]. split; [|done]. split; [|done].
  destruct (sanitize_filename name); [done|simpl; lia].
Qed.

(** X12: whitespace in the result of [sanitize_filename] is normalised:
    every whitespace character of the result is a space, it is not the
    first character, no second space follows it, and, if the result has
    fewer than 100 characters, it is not the last character either. *)
Theorem sanitize_filename_spacing name i c :
  get i (sanitize_filename name) = Some c → isspace c = true →
  c = " "%char ∧ i ≠ 0%nat
  ∧ get (S i) (sanitize_filename name) ≠ Some " "%char
  ∧ ((String.length (sanitize_filename name) < 100)%nat →
     is_Some (get (S i) (sanitize_filename name))).
Proof.
  intros Hget Hc.
  assert (single_spaced true (sanitize_filename name) = true) as Hsp.
  { rewrite sanitize_filename_unfold.
    destruct (decide (tidy name = EmptyString)); [done|].
    case_decide; [apply single_spaced_substring|]; apply single_spaced_tidy. }
  destruct (single_spaced_get _ _ _ _ Hsp Hget Hc) as (-> & Hi & Hnext).
  split; [done|]. split; [by apply Hi|]. split; [done|].
  intros Hlen. eapply ends_in_space_get; [|done..].
  by apply short_result_ends_well.
Qed.

(** X13: a clean name is returned as it is, and a result of fewer than 100
    characters is clean: sanitising it again changes nothing. *)
Theorem sanitize_filename_idempotent name :
  (clean_name name = true → sanitize_filename name = name)
  ∧ ((String.length (sanitize_filename name) < 100)%nat →
     clean_name (sanitize_filename name) = true
     ∧ sanitize_filename (sanitize_filename name) = sanitize_filename name).
Proof.
  split; [apply clean_name_fixed|].
  intros Hlen%short_result_ends_well%sanitize_filename_clean.
  split; [done|]. by apply clean_name_fixed.
Qed.

Lemma byte_value_of n : byte_value (byte_of n) = n mod 256.
Proof.
  unfold byte_value, byte_of.
  pose proof (Z.mod_pos_bound n 256 ltac:(lia)) as Hm.
  destruct (Byte.of_N (Z.to_N (n `mod` 256))) as [b|] eqn:Hb; simpl.
  - apply Byte.to_of_N in Hb. rewrite Hb. lia.
  - apply Byte.of_N_None_iff in Hb. lia.
Qed.

Lemma byte_of_value b : byte_of (byte_value b) = b.
Proof.
  unfold byte_value, byte_of. pose proof (Byte.to_N_bounded b) as Hb.
  rewrite Z.mod_small by lia. rewrite N2Z.id. by rewrite Byte.of_to_N.
Qed.

Lemma byte_value_range b : 0 ≤ byte_value b < 256.
Proof. unfold byte_value. pose proof (Byte.to_N_bounded b). lia. Qed.

Lemma in_order_twice {A} order (l : list A) :
  in_order order (in_order order l) = l.
Proof. destruct order; simpl; [done|apply reverse_involutive]. Qed.

Lemma in_order_length {A} order (l : list A) :
  length (in_order order l) = length l.
Proof. destruct order; simpl; [done|apply length_reverse]. Qed.

Lemma unpack_pack order n raw :
  pack_I order n = Some raw → unpack_I order raw = Some n ∧ length raw = 4%nat.
Proof.
  unfold pack_I, unpack_I. case_decide as Hn; [|done]. intros [= <-].
  rewrite in_order_twice, in_order_length. split; [|done].
  rewrite !byte_value_of. f_equal.
  change (2 ^ 8) with 256. change (2 ^ 16) with 65536.
  change (2 ^ 24) with 16777216. change (2 ^ 32) with 4294967296 in Hn.
  Z.div_mod_to_equations. lia.
Qed.

Lemma pack_unpack order n raw :
  unpack_I order raw = Some n → pack_I order n = Some raw.
Proof.
  unfold pack_I, unpack_I.
  destruct (in_order order raw) as [|b0 [|b1 [|b2 [|b3 [|]]]]] eqn:Hraw;
    try done.
  intros [= <-].
  pose proof (byte_value_range b0) as R0.
  pose proof (byte_value_range b1) as R1.
  pose proof (byte_value_range b2) as R2.
  pose proof (byte_value_range b3) as R3.
  change (2 ^ 8) with 256. change (2 ^ 16) with 65536.
  change (2 ^ 24) with 16777216. change (2 ^ 32) with 4294967296.
  rewrite decide_True by lia. f_equal.
  rewrite <- (in_order_twice order raw), Hraw. f_equal.
  set (n := byte_value b0 + 256 * byte_value b1 + 65536 * byte_value b2
            + 16777216 * byte_value b3).
  assert (n mod 256 = byte_value b0) as H0
    by (unfold n; Z.div_mod_to_equations; lia).
  assert ((n / 256) mod 256 = byte_value b1) as H1
    by (unfold n; Z.div_mod_to_equations; lia).
  assert ((n / 65536) mod 256 = byte_value b2) as H2
    by (unfold n; Z.div_mod_to_equations; lia).
  assert ((n / 16777216) mod 256 = byte_value b3) as H3
    by (unfold n; Z.div_mod_to_equations; lia).
  rewrite <- (byte_of_value b0), <- (byte_of_value b1),
    <- (byte_of_value b2), <- (byte_of_value b3).
  rewrite <- H0, <- H1, <- H2, <- H3.
  unfold byte_of. by rewrite !Z.mod_mod by lia.
Qed.

(** ** Native messaging *)

Section NativeMessagingFacts.
Context {J : Type} (order : ByteOrder).
Context (json_loads : list byte → option J) (json_dumps : J → list byte).

(** X17: [send_message] writes a frame exactly when the encoded message has
    fewer than 2^32 bytes; the frame is four bytes longer than the encoded
    message, and [read_message] on input that starts with the frame hands
    exactly the encoded message to the decoder and leaves what follows the
    frame unread. *)
Theorem read_message_send_message message :
  (is_Some (send_message order json_dumps message)
   ↔ Z.of_nat (length (json_dumps message)) < 2 ^ 32)
  ∧ ∀ frame rest,
      send_message order json_dumps message = Some frame →
      length frame = (4 + length (json_dumps message))%nat
      ∧ read_message order json_loads (frame ++ rest)
        = (match json_loads (json_dumps message) with
           | Some value => Decoded value
           | None => DecodeError
           end, rest).
Proof.
  unfold send_message. split.
  - unfold pack_I. case_decide as Hn.
    + split; [lia|by eauto].
    + split; [by intros [? ?]|lia].
  - intros frame rest.
    destruct (pack_I order _) as [prefix|] eqn:Hpack; [|done].
    intros [= <-]. apply unpack_pack in Hpack as [Hunpack Hlen].
    split; [rewrite length_app; lia|].
    unfold read_message. rewrite <- app_assoc.
    rewrite take_app_length' by done. rewrite drop_app_length' by done.
    destruct prefix as [|b prefix]; [done|].
    rewrite Hunpack, Nat2Z.id.
    rewrite take_app_length, drop_app_length.
    by destruct (json_loads (json_dumps message)).
Qed.

(** X18: on empty input [read_message] returns [None]; on one, two or three
    bytes it raises [struct.error]; in both cases nothing is decoded. *)
Theorem read_message_short_input stdin :
  (length stdin < 4)%nat →
  read_message order json_loads stdin
  = (if decide (stdin = []) then NoMessage else StructError, []).
Proof.
  intros Hlen. unfold read_message.
  rewrite take_ge, drop_ge by lia.
  destruct stdin as [|b stdin]; [done|]. rewrite decide_False by done.
  unfold unpack_I.
  pose proof (in_order_length order (b :: stdin)) as Hlen'.
  destruct (in_order order (b :: stdin)) as [|b0 [|b1 [|b2 [|b3 [|]]]]];
    simpl in *; try done; lia.
Qed.

End NativeMessagingFacts.

Lemma read_message_send_message_witness :
  send_message LittleEndian id [x7b; x7d] = Some [x02; x00; x00; x00; x7b; x7d]
  ∧ read_message LittleEndian Some ([x02; x00; x00; x00; x7b; x7d] ++ [x01])
    = (Decoded [x7b; x7d], [x01]).
Proof.
  split; [reflexivity|].
  exact (proj2 (proj2 (read_message_send_message LittleEndian Some id
                         [x7b; x7d]) _ [x01] eq_refl)).
Defined.

Lemma read_message_short_input_witness :
  (length [x02; x00] < 4)%nat
  ∧ read_message (J := unit) BigEndian (λ _, None) [x02; x00] = (StructError, []).
Proof.
  split; [simpl; lia|].
  apply (read_message_short_input BigEndian (λ _, None) [x02; x00]).
  simpl. lia.
Defined.

(** ** The host's tools *)

Lemma first_executable_spec executable locations :
  match first_executable executable locations with
  | Some loc =>
      executable loc = true
      ∧ ∃ earlier later, locations = earlier ++ loc :: later
                         ∧ Forall (λ l, executable l = false) earlier
  | None => Forall (λ l, executable l = false) locations
  end.
Proof.
  induction locations as [|loc locations IH]; simpl; [constructor|].
  destruct (executable loc) eqn:Hloc.
  - split; [done|]. by exists [], locations.
  - destruct (first_executable executable locations) as [found|].
    + destruct IH as (Hfound & earlier & later & -> & Hearlier).
      split; [done|]. exists (loc :: earlier), later. split; [done|].
      by constructor.
    + by constructor.
Qed.

(** X14: each of [find_ytdlp], [find_ffmpeg] and [find_ffprobe] returns the
    first of the tool's three locations that is an executable file; when
    none is, the first two return the bare command name and [find_ffprobe]
    returns [None]. *)
Theorem find_tools_take_first_executable os :
  let found tool := first_executable (executable os) (locations_of tool) in
  find_ytdlp os = default "yt-dlp" (found "yt-dlp")
  ∧ find_ffmpeg os = default "ffmpeg" (found "ffmpeg")
  ∧ find_ffprobe os = found "ffprobe"
  ∧ ∀ tool,
      match found tool with
      | Some loc =>
          executable os loc = true
          ∧ ∃ earlier later, locations_of tool = earlier ++ loc :: later
              ∧ Forall (λ l, executable os l = false) earlier
      | None => Forall (λ l, executable os l = false) (locations_of tool)
      end.
Proof.
  intros found. split; [done|]. split; [done|]. split; [done|].
  intros tool. apply first_executable_spec.
Qed.

Lemma split_on_fields c s :
  split_on c s ≠ [] ∧ Forall (λ field, contains c field = false) (split_on c s).
Proof.
  induction s as [|a s [IH1 IH2]]; simpl; [by repeat constructor|].
  case_decide as Ha; [by split; [|constructor]|].
  destruct (split_on c s) as [|field fields]; [done|]. split; [done|].
  apply Forall_cons in IH2 as [Hf Hfs]. constructor; [|done].
  simpl. by rewrite decide_False.
Qed.

Lemma last_field_empty c s :
  isspace c = true → s ≠ EmptyString →
  last (split_on c s) = Some EmptyString → ends_in_space s = true.
Proof.
  intros Hc. induction s as [|a s IH]; [done|]. intros _. simpl.
  destruct (split_on_fields c s) as [Hne _].
  assert (s ≠ EmptyString → last (split_on c s) = Some EmptyString →
          (match s with EmptyString => isspace a | _ => ends_in_space s end)
          = true) as Hrest.
  { intros Hs Hlast. destruct s; [done|]. by apply IH. }
  case_decide as Ha.
  - subst a. destruct (split_on c s) as [|field fields] eqn:Hsplit; [done|].
    destruct s as [|b s]; [done|]. intros Hlast. by apply IH.
  - destruct (split_on c s) as [|field fields] eqn:Hsplit; [done|].
    destruct fields as [|field' fields]; [done|].
    intros Hlast. destruct s as [|b s]; [by simplify_eq/=|]. by apply IH.
Qed.

Lemma contains_basename c p :
  contains c p = false → contains c (basename p) = false.
Proof.
  induction p as [|a p IH]; simpl; [done|].
  case_decide; [done|]. intros Hp.
  destruct (contains "/" p); [auto|].
  case_decide; [done|]. simpl. by rewrite decide_False.
Qed.

Lemma basename_no_slash p : contains "/" (basename p) = false.
Proof.
  induction p as [|a p IH]; simpl; [done|].
  destruct (contains "/" p) eqn:Hp; [done|].
  case_decide as Ha; [done|]. simpl. by rewrite decide_False.
Qed.

(** X15: the title under which an accepted job runs is never empty, has at
    most 100 characters and holds no unsafe character.  It is the
    sanitised output of yt-dlp when yt-dlp exits with status 0, even when
    it prints nothing (the title is then "download"), and "stems" only when
    yt-dlp does not exit with status 0. *)
Theorem resolved_title_is_safe os exe script popen url quality genre w
    job_id title message :
  (start_stems_job (host_on os exe script popen) url quality genre w).1
    = RespStarted job_id title message →
  title ≠ EmptyString
  ∧ (String.length title ≤ 100)%nat
  ∧ (∀ c, c ∈ unsafe_chars → contains c title = false)
  ∧ match run_process os [find_ytdlp os; "--get-title"; "--no-playlist"; url]
    with
    | Completed 0 stdout _ => title = sanitize_filename (strip stdout)
    | _ => title = "stems"
    end.
Proof.
  unfold start_stems_job. destruct (check_active_job w) as [busy|w1] eqn:Hc.
  { simpl. intros Hbusy. unfold check_active_job in Hc.
    destruct (read_progress w). repeat case_match; simplify_eq. }
  simpl. intros [= _ <- _]. unfold Ytdlp.get_video_title.
  destruct (run_process os _) as [returncode stdout stderr| | |];
    try (repeat split; try done; simpl; try lia;
         apply Forall_forall; by repeat constructor).
  destruct (decide (returncode = 0)) as [->|Hrc]; simpl.
  - destruct (sanitize_filename_bounds (strip stdout)) as (Hne & Hlen & Hsafe).
    unfold truthy_str. rewrite decide_False by done. simpl.
    repeat split; done.
  - assert (match returncode with
            | 0 => "stems" = sanitize_filename (strip stdout)
            | _ => "stems" = "stems"
            end) by (by destruct returncode).
    repeat split; try done; simpl; try lia.
    apply Forall_forall. by repeat constructor.
Qed.

(** X16: when yt-dlp exits with status 0, [download_mp3] reports the last
    line of its stripped output, or the base name of that line if it names
    an existing path.  The split never yields an empty list, so the
    placeholder "download complete" is never used: the line is empty
    exactly when yt-dlp printed nothing but whitespace.  The reported name
    holds no newline, and no slash when the path exists. *)
Theorem download_mp3_filename os exe script popen url stdout stderr :
  run_process os (Ytdlp.mp3_cmd os url) = Completed 0 stdout stderr →
  ∃ line,
    last (split_on "010" (strip stdout)) = Some line
    ∧ (line = EmptyString ↔ strip stdout = EmptyString)
    ∧ let filename :=
        if os_path_exists os line then basename line else line in
      download_mp3 (host_on os exe script popen) url
        = RespDownloaded filename "Download completed successfully"
      ∧ contains "010" filename = false
      ∧ (os_path_exists os line = true → contains "/" filename = false).
Proof.
  intros Hrun. unfold download_mp3. simpl. unfold Ytdlp.download_mp3.
  rewrite Hrun. simpl.
  destruct (split_on_fields "010" (strip stdout)) as [Hne Hfields].
  destruct (last (split_on "010" (strip stdout))) as [line|] eqn:Hlast;
    [|by apply last_None in Hlast].
  exists line. split; [done|]. split.
  { split.
    - intros ->. destruct (decide (strip stdout = EmptyString)) as [|Hs]; [done|].
      pose proof (last_field_empty "010" (strip stdout) eq_refl Hs Hlast) as H.
      unfold strip in H. by rewrite ends_in_space_rstrip in H.
    - intros Hs. rewrite Hs in Hlast. by simplify_eq/=. }
  simpl. split; [done|].
  assert (contains "010" line = false) as Hline.
  { rewrite Forall_forall in Hfields. apply Hfields.
    by apply last_Some_elem_of. }
  split.
  - destruct (os_path_exists os line); [by apply contains_basename|done].
  - intros ->. apply basename_no_slash.
Qed.

Lemma resolved_title_is_safe_witness :
  let os := mkHostOS (λ _, false)
              (λ _, Completed 0 (String "010" EmptyString) EmptyString)
              (λ _, false) "/home/u/Downloads" in
  (start_stems_job (host_on os "python3" "host.py" (λ _, 4321))
     "https://youtu.be/x" "fast" "full" (Sample.empty_world 50)).1
  = RespStarted "job_50" "download" "Stem separation started"
  ∧ (String.length "download" ≤ 100)%nat.
Proof.
  split; [reflexivity|].
  refine (proj1 (proj2 (resolved_title_is_safe
            (mkHostOS (λ _, false)
               (λ _, Completed 0 (String "010" EmptyString) EmptyString)
               (λ _, false) "/home/u/Downloads")
            "python3" "host.py" (λ _, 4321) "https://youtu.be/x" "fast" "full"
            (Sample.empty_world 50) "job_50" "download"
            "Stem separation started" _))).
  reflexivity.
Defined.

Lemma download_mp3_filename_witness :
  let os := mkHostOS (λ _, false)
              (λ _, Completed 0 "/home/u/Downloads/Song.mp3" EmptyString)
              (λ _, true) "/home/u/Downloads" in
  download_mp3 (host_on os "python3" "host.py" (λ _, 4321)) "https://youtu.be/x"
  = RespDownloaded "Song.mp3" "Download completed successfully".
Proof.
  destruct (download_mp3_filename
              (mkHostOS (λ _, false)
                 (λ _, Completed 0 "/home/u/Downloads/Song.mp3" EmptyString)
                 (λ _, true) "/home/u/Downloads")
              "python3" "host.py" (λ _, 4321) "https://youtu.be/x"
              "/home/u/Downloads/Song.mp3" EmptyString eq_refl)
    as (line & Hline & _ & Hname & _).
  injection Hline as <-. exact Hname.
Defined.

(** ** Progress store and supervisor: further facts *)

(** X1: a record is read back as it was written, at whatever instant,
    unless it is a [processing] record and more than 600 seconds have
    passed, in which case it is read back as [stale]. *)
Theorem write_progress_read_progress
    stage message percent est title job_id action quality genre error w t :
  let p := Progress.mk stage message percent est title job_id action quality
             genre error (Some (clock w)) in
  let w' := set_clock t (write_progress stage message percent est title job_id
                           action quality genre error w) in
  read_progress w'
  = (if decide (stage = Processing ∧ t - clock w > 600)
     then Progress.with_stale p else p, w').
Proof.
  simpl. unfold read_progress. simpl.
  destruct (decide (stage = Processing)) as [->|Hs].
  - destruct (decide (t - clock w > 600)).
    + by rewrite decide_True.
    + rewrite decide_False; [done|]. by intros [_ ?].
  - rewrite decide_False; [done|]. by intros [? _].
Qed.

Section HostFacts.
Context (env : HostEnv).

Lemma check_stale_job_settles w : job_settled (check_stale_job w).
Proof.
  unfold check_stale_job, load_job_state, job_settled.
  destruct (job_file w) as [job|] eqn:Hjob; [|by rewrite Hjob].
  destruct (truthy_pid (Job.pid job)) as [pid|] eqn:Hpid.
  - destruct (process_exists pid w) eqn:Hlive.
    + rewrite Hjob. exists pid. unfold truthy_pid in Hpid.
      destruct (Job.pid job) as [n|]; [|done]. case_decide; [done|].
      simplify_eq. split; [done|]. split; [done|].
      by apply bool_decide_eq_true in Hlive.
    + destruct (read_progress _) as [p w1] eqn:Hread.
      pose proof (read_progress_world
                    (clear_job_state
                       match truthy_str (Job.temp_dir job) with
                       | Some temp_dir =>
                           if path_exists temp_dir w then rmtree temp_dir w else w
                       | None => w
                       end)) as Hw.
      rewrite Hread in Hw. simpl in Hw. subst w1.
      by destruct (mid_flight _).
  - destruct (read_progress _) as [p w1] eqn:Hread.
    pose proof (read_progress_world
                  (clear_job_state
                     match truthy_str (Job.temp_dir job) with
                     | Some temp_dir =>
                         if path_exists temp_dir w then rmtree temp_dir w else w
                     | None => w
                     end)) as Hw.
    rewrite Hread in Hw. simpl in Hw. subst w1.
    by destruct (mid_flight _).
Qed.

Lemma check_stale_job_settled w t :
  job_settled w → check_stale_job (set_clock t w) = set_clock t w.
Proof.
  unfold job_settled, check_stale_job, load_job_state. simpl.
  destruct (job_file w) as [job|]; [|done].
  intros (pid & -> & Hnz & Hlive). simpl. rewrite decide_False by done.
  unfold process_exists. simpl. by rewrite bool_decide_eq_true_2.
Qed.

(** X2: the startup check is idempotent: once it has run, running it again,
    at whatever instant, changes nothing; hence a [get_progress] request
    that follows another one in the same second gets the same answer and
    leaves the same world. *)
Theorem check_stale_job_idempotent w :
  (∀ t, check_stale_job (set_clock t (check_stale_job w))
        = set_clock t (check_stale_job w))
  ∧ main env poll (main env poll w).2 = main env poll w.
Proof.
  assert (∀ t, check_stale_job (set_clock t (check_stale_job w))
               = set_clock t (check_stale_job w)) as Hidem.
  { intros t. apply check_stale_job_settled, check_stale_job_settles. }
  split; [done|].
  assert (∀ w0, main env poll w0
                = (RespProgress (read_progress (check_stale_job w0)).1,
                   check_stale_job w0)) as Hpoll.
  { intros w0. unfold main, poll. simpl.
    pose proof (read_progress_world (check_stale_job w0)) as Hw.
    destruct (read_progress (check_stale_job w0)) as [p w1]. simpl in *.
    by subst. }
  rewrite !Hpoll. simpl.
  assert (check_stale_job (check_stale_job w) = check_stale_job w) as ->; [|done].
  specialize (Hidem (clock (check_stale_job w))).
  by destruct (check_stale_job w).
Qed.


Lemma write_progress_settled stage message percent est title job_id action
    quality genre error w :
  job_settled w →
  job_settled (write_progress stage message percent est title job_id action
                 quality genre error w).
Proof. done. Qed.

(** What a successful cancellation leaves. *)
Lemma cancel_job_cases w :
  cancel_job w = (RespError "No active job to cancel", w)
  ∨ ((cancel_job w).1 = RespDone "Job cancelled"
     ∧ mid_flight (Progress.stage (read_progress w).1) = true
     ∧ progress_file (cancel_job w).2 = None
     ∧ job_file (cancel_job w).2 = None
     ∧ active_job (cancel_job w).2 = None
     ∧ active_process (cancel_job w).2 = None
     ∧ written (cancel_job w).2 = written w
     ∧ clock (cancel_job w).2 = clock w
     ∧ procs (cancel_job w).2
       = procs w
         ∖ match job_file w with
           | Some job => match truthy_pid (Job.pid job) with
                         | Some pid => {[pid]}
                         | None => ∅
                         end
           | None => ∅
           end
         ∖ match active_process w with Some child => {[child]} | None => ∅ end
     ∧ dirs (cancel_job w).2
       = dirs w
         ∖ match job_file w with
           | Some job => match truthy_str (Job.temp_dir job) with
                         | Some temp_dir => {[temp_dir]}
                         | None => ∅
                         end
           | None => ∅
           end).
Proof.
  unfold cancel_job.
  pose proof (read_progress_world w) as Hw.
  destruct (read_progress w) as [p w0]. simpl in Hw. subst w0.
  destruct (mid_flight (Progress.stage p)) eqn:Hmid; [right|by left]. simpl.
  set (w1 := match load_job_state w with
             | Some job_state =>
                 match truthy_str (Job.temp_dir job_state) with
                 | Some temp_dir =>
                     if path_exists temp_dir
                          match truthy_pid (Job.pid job_state) with
                          | Some pid => os_kill_term pid w
                          | None => w
                          end
                     then rmtree temp_dir
                            match truthy_pid (Job.pid job_state) with
                            | Some pid => os_kill_term pid w
                            | None => w
                            end
                     else match truthy_pid (Job.pid job_state) with
                          | Some pid => os_kill_term pid w
                          | None => w
                          end
                 | None =>
                     match truthy_pid (Job.pid job_state) with
                     | Some pid => os_kill_term pid w
                     | None => w
                     end
                 end
             | None => w
             end).
  assert (active_process w1 = active_process w ∧ written w1 = written w
          ∧ clock w1 = clock w
          ∧ procs w1
            = procs w
              ∖ match job_file w with
                | Some job => match truthy_pid (Job.pid job) with
                              | Some pid => {[pid]}
                              | None => ∅
                              end
                | None => ∅
                end
          ∧ dirs w1
            = dirs w
              ∖ match job_file w with
                | Some job => match truthy_str (Job.temp_dir job) with
                              | Some temp_dir => {[temp_dir]}
                              | None => ∅
                              end
                | None => ∅
                end) as (Hap & Hwr & Hcl & Hprocs & Hdirs).
  { unfold w1, load_job_state.
    destruct (job_file w) as [job|]; simpl;
      [|repeat split; try done; apply leibniz_equiv; set_solver].
    destruct (truthy_pid (Job.pid job)) as [pid|],
      (truthy_str (Job.temp_dir job)) as [temp_dir|]; simpl;
      try (unfold path_exists; simpl; case_bool_decide as Hdir); simpl;
      repeat split; try done; apply leibniz_equiv; set_solver. }
  clearbody w1. rewrite <- Hap.
  destruct (active_process w1) as [child|] eqn:Hchild; simpl;
    rewrite Hprocs, Hdirs;
    (split; [done|]); (split; [done|]); (split; [done|]); (split; [done|]);
    (split; [done|]); (split; [done|]); (split; [done|]); (split; [done|]);
    split; apply leibniz_equiv; set_solver.
Qed.

(** X3: after any request, a job file that is present names a process that
    is alive: an orphaned job file does not survive a run of the host. *)
Theorem main_settles_job message w :
  (∀ cmd, popen_worker env cmd ≠ 0) →
  job_settled (main env message w).2.
Proof.
  intros Hpid. unfold main.
  pose proof (check_stale_job_settles w) as Hsettled.
  destruct message as [message|]; [|done]. simpl.
  repeat case_decide.
  - destruct (truthy_str (msg_url message)); [|done]. simpl.
    destruct (download_mp3 env s); by repeat apply write_progress_settled.
  - destruct (truthy_str (msg_url message)) as [url|]; [|done].
    unfold start_stems_job.
    destruct (check_active_job (check_stale_job w)) as [busy|w1] eqn:Hfree;
      [done|].
    simpl. unfold job_settled. simpl. eexists. split; [done|].
    split; [apply Hpid|set_solver].
  - pose proof (read_progress_world (check_stale_job w)) as Hw.
    destruct (read_progress (check_stale_job w)) as [p w1]. simpl in *.
    by subst.
  - destruct (cancel_job_cases (check_stale_job w))
      as [->|(_ & _ & _ & Hjob & _)]; [done|].
    unfold job_settled. by rewrite Hjob.
  - done.
  - done.
Qed.


(** X4: [start_stems_job] refuses a request only when the progress it reads
    is mid-flight and the job file names a non-zero process that is alive;
    a refusal leaves the world as it was. *)
Theorem start_stems_job_refuses_only_live_job url quality genre w :
  success (start_stems_job env url quality genre w).1 = false →
  (start_stems_job env url quality genre w).2 = w
  ∧ mid_flight (Progress.stage (read_progress w).1) = true
  ∧ ∃ job pid, job_file w = Some job ∧ Job.pid job = Some pid ∧ pid ≠ 0
               ∧ pid ∈ procs w.
Proof.
  unfold start_stems_job.
  destruct (check_active_job w) as [busy|w1] eqn:Hfree; [|done].
  intros _. split; [done|]. unfold check_active_job in Hfree.
  pose proof (read_progress_world w) as Hw.
  destruct (read_progress w) as [p w0]. simpl in Hw. subst w0. simpl.
  destruct (mid_flight (Progress.stage p)); [|done]. split; [done|].
  unfold load_job_state in Hfree.
  destruct (job_file w) as [job|]; [|done].
  unfold truthy_pid in Hfree.
  destruct (Job.pid job) as [pid|] eqn:Hpid; [|done].
  case_decide; [done|].
  destruct (process_exists pid w) eqn:Hlive; [|done].
  exists job, pid. repeat split; try done.
  unfold process_exists in Hlive. by apply bool_decide_eq_true in Hlive.
Qed.


(** X6: a [processing] record that is more than 600 seconds old is read as
    [stale], and [cancel_job] then refuses: it answers "No active job to
    cancel" and changes nothing, whether or not the worker is alive. *)
Theorem cancel_job_refuses_stale_job w p :
  progress_file w = Some p → Progress.stage p = Processing →
  clock w - default 0 (Progress.timestamp p) > 600 →
  cancel_job w = (RespError "No active job to cancel", w)
  ∧ main env (Some (mkMessage (Some "cancel_job") None None None)) w
    = (RespError "No active job to cancel", check_stale_job w).
Proof.
  intros Hfile Hstage Hage.
  assert (∀ w0, progress_file w0 = Some p → clock w0 = clock w →
                cancel_job w0 = (RespError "No active job to cancel", w0))
    as Hrefuse.
  { intros w0 Hf Hc. unfold cancel_job, read_progress. rewrite Hf, Hc.
    rewrite decide_True by done. by rewrite decide_True by done. }
  split; [by apply Hrefuse|].
  unfold main. simpl.
  assert (progress_file (check_stale_job w) = Some p
          ∧ clock (check_stale_job w) = clock w) as [Hf Hc].
  { unfold check_stale_job, load_job_state.
    destruct (job_file w) as [job|]; [|done].
    destruct (match truthy_pid (Job.pid job) with
              | Some pid => process_exists pid w
              | None => false
              end); [done|].
    set (w1 := clear_job_state _).
    assert (progress_file w1 = Some p ∧ clock w1 = clock w) as [Hf1 Hc1].
    { unfold w1. destruct (truthy_str (Job.temp_dir job)); [|done].
      by destruct (path_exists _ _). }
    unfold read_progress. rewrite Hf1, Hc1.
    rewrite decide_True by done. rewrite decide_True by done. done. }
  by rewrite Hrefuse.
Qed.

(** X8: a [download], [download_mp3] or [download_stems] request whose URL
    is missing or empty is answered "No URL provided" and does nothing
    beyond the startup check; a [download_stems] request without quality or
    genre is handled as one for 'fast' and 'full'. *)
Theorem download_request_defaults action url quality genre w :
  action ∈ ["download"; "download_mp3"; "download_stems"] →
  (truthy_str url = None →
   main env (Some (mkMessage (Some action) url quality genre)) w
   = (RespError "No URL provided", check_stale_job w))
  ∧ main env (Some (mkMessage (Some "download_stems") url None None)) w
    = main env (Some (mkMessage (Some "download_stems") url (Some "fast")
                        (Some "full"))) w.
Proof.
  intros Haction. split; [|done]. intros Hurl. unfold main. simpl.
  rewrite Hurl.
  repeat (apply elem_of_cons in Haction as [->|Haction]);
    [done|done|done|by apply elem_of_nil in Haction].
Qed.

(** X9: the job ids of two accepted requests are equal exactly when the
    requests were accepted in the same second. *)
Theorem job_ids_by_second url1 quality1 genre1 w1 url2 quality2 genre2 w2
    id1 title1 message1 id2 title2 message2 :
  (start_stems_job env url1 quality1 genre1 w1).1
    = RespStarted id1 title1 message1 →
  (start_stems_job env url2 quality2 genre2 w2).1
    = RespStarted id2 title2 message2 →
  id1 = "job_" +:+ pretty (clock w1)
  ∧ (id1 = id2 ↔ clock w1 = clock w2).
Proof.
  assert (∀ url quality genre w id title message,
            (start_stems_job env url quality genre w).1
              = RespStarted id title message →
            id = "job_" +:+ pretty (clock w)) as Hid.
  { intros url quality genre w id title message. unfold start_stems_job.
    destruct (check_active_job w) as [busy|w0] eqn:Hfree.
    - simpl. intros ->. unfold check_active_job in Hfree.
      destruct (read_progress w). repeat case_match; simplify_eq.
    - destruct (check_active_job_free _ _ Hfree) as (-> & _).
      simpl. by intros [= <- _ _]. }
  intros ->%Hid ->%Hid. split; [done|]. split.
  - intros H%(inj (String.app "job_")). by apply (inj pretty) in H.
  - by intros ->.
Qed.

End HostFacts.

(** ** The engine's progress lines *)

Lemma search_percent_digit run c rest :
  is_digit c = true →
  search_percent run (String c rest)
  = search_percent (Some (10 * default 0 run + (Z.of_nat (nat_of_ascii c) - 48)))
                   rest.
Proof. intros Hc. simpl. by rewrite Hc. Qed.

Lemma search_percent_other run c rest :
  is_digit c = false →
  search_percent run (String c rest)
  = if bool_decide (c = "%"%char) && String.prefix "|" rest
    then match run with
         | Some value => Some value
         | None => search_percent None rest
         end
    else search_percent None rest.
Proof.
  intros Hc. destruct (decide (c = "%"%char)) as [->|Hne].
  - rewrite bool_decide_eq_true_2 by done. destruct run as [value|].
    + destruct rest as [|d rest]; [done|].
      destruct (decide (d = "|"%char)) as [->|Hd].
      { simpl. by destruct rest. }
      destruct d as [[] [] [] [] [] [] [] []]; done.
    + by destruct (true && String.prefix "|" rest), rest.
  - rewrite bool_decide_eq_false_2 by done.
    destruct c as [[] [] [] [] [] [] [] []]; try done;
      by destruct run.
Qed.

Lemma pretty_N_char_digit k :
  (k < 10)%N →
  is_digit (pretty_N_char k) = true
  ∧ Z.of_nat (nat_of_ascii (pretty_N_char k)) - 48 = Z.of_N k.
Proof.
  intros Hk.
  assert (k = 0 ∨ k = 1 ∨ k = 2 ∨ k = 3 ∨ k = 4 ∨ k = 5 ∨ k = 6 ∨ k = 7
          ∨ k = 8 ∨ k = 9)%N as Hcases by lia.
  repeat (destruct Hcases as [->|Hcases]; [done|]). by subst.
Qed.

Lemma pretty_N_go_app x : ∀ s t, pretty_N_go x s +:+ t = pretty_N_go x (s +:+ t).
Proof.
  induction (N.lt_wf_0 x) as [x _ IH]; intros s t.
  destruct (decide (x = 0)%N) as [->|Hx].
  { by rewrite !pretty_N_go_0. }
  rewrite (pretty_N_go_step x s), (pretty_N_go_step x (s +:+ t)) by lia.
  rewrite IH by (apply N.div_lt; lia). done.
Qed.

Lemma search_percent_pretty_N x : ∀ s,
  (0 < x)%N →
  search_percent None (pretty_N_go x s) = search_percent (Some (Z.of_N x)) s.
Proof.
  induction (N.lt_wf_0 x) as [x _ IH]; intros s Hx.
  rewrite pretty_N_go_step by done.
  destruct (pretty_N_char_digit (x `mod` 10)) as [Hdigit Hvalue];
    [by apply N.mod_lt|].
  destruct (decide (x `div` 10 = 0)%N) as [Hq|Hq].
  - rewrite Hq, pretty_N_go_0, search_percent_digit by done.
    rewrite Hvalue. simpl. do 2 f_equal.
    pose proof (N.div_mod x 10 ltac:(done)) as H. rewrite Hq in H. lia.
  - rewrite IH; [|by apply N.div_lt|by apply N.neq_0_lt_0].
    rewrite search_percent_digit by done. rewrite Hvalue. simpl.
    do 2 f_equal. pose proof (N.div_mod x 10 ltac:(done)) as H.
    rewrite N2Z.inj_div. change (Z.of_N 10) with 10.
    pose proof (N2Z.inj_mod x 10) as Hmod. change (Z.of_N 10) with 10 in Hmod.
    rewrite Hmod. pose proof (Z.div_mod (Z.of_N x) 10 ltac:(done)). lia.
Qed.

Lemma search_percent_pretty (n : Z) s :
  0 ≤ n → search_percent None (pretty n +:+ s) = search_percent (Some n) s.
Proof.
  intros Hn. destruct n as [|p|p]; [done| |lia].
  unfold pretty, pretty_Z, pretty, pretty_positive, pretty, pretty_N.
  rewrite decide_False by done. rewrite pretty_N_go_app.
  by rewrite search_percent_pretty_N.
Qed.

(** A prefix without a percent sign that does not end in a digit is
    skipped. *)
Lemma search_percent_skip pre tail : ∀ run,
  contains "%" pre = false → ends_in_digit pre = false →
  search_percent run (pre +:+ tail)
  = if decide (pre = EmptyString) then search_percent run tail
    else search_percent None tail.
Proof.
  induction pre as [|c pre IH]; intros run Hpercent Hend; [done|].
  rewrite decide_False by done. simpl in Hpercent.
  destruct (decide (c = "%"%char)) as [|Hc]; [done|].
  change (String c pre +:+ tail) with (String c (pre +:+ tail)).
  destruct (is_digit c) eqn:Hdigit.
  - rewrite search_percent_digit by done.
    destruct pre as [|d pre]; [by simpl in Hend; rewrite Hdigit in Hend|].
    rewrite IH by done. by rewrite decide_False.
  - rewrite search_percent_other by done.
    rewrite bool_decide_eq_false_2 by done. simpl.
    destruct pre as [|d pre]; [done|].
    rewrite IH by done. by rewrite decide_False.
Qed.

(** X19: a line in which the decimal text of [n], followed by a percent sign
    and a bar, comes after a prefix that holds no percent sign and does not
    end in a digit, is parsed as [n]: the loop reads back the percentage
    that the engine's progress bar prints. *)
Theorem parse_demucs_progress_bar pre n rest :
  0 ≤ n → contains "%" pre = false → ends_in_digit pre = false →
  parse_demucs_progress (pre +:+ pretty n +:+ "%|" +:+ rest) = Some n.
Proof.
  intros Hn Hpercent Hend. unfold parse_demucs_progress.
  rewrite search_percent_skip by done.
  assert (search_percent None (pretty n +:+ "%|" +:+ rest) = Some n) as Hrun.
  { by rewrite search_percent_pretty. }
  by case_decide.
Qed.

Lemma search_percent_sound line : ∀ run p,
  (∀ value, run = Some value → 0 ≤ value) →
  search_percent run line = Some p →
  0 ≤ p
  ∧ ∃ pre rest, line = pre +:+ "%|" +:+ rest
                ∧ (ends_in_digit pre = true
                   ∨ (pre = EmptyString ∧ is_Some run)).
Proof.
  induction line as [|c line IH]; intros run p Hrun; [done|].
  destruct (is_digit c) eqn:Hdigit.
  - rewrite search_percent_digit by done. intros Hp.
    apply IH in Hp as (Hp & pre & rest & -> & Hpre).
    + split; [done|]. exists (String c pre), rest. split; [done|]. left.
      destruct Hpre as [Hpre|[-> _]]; [|done].
      simpl. by destruct pre.
    + intros value [= <-]. unfold is_digit in Hdigit.
      apply andb_prop in Hdigit as [H48%Nat.leb_le _].
      assert (0 ≤ default 0 run) by (destruct run; simpl; auto; lia). lia.
  - rewrite search_percent_other by done.
    destruct (bool_decide (c = "%"%char) && String.prefix "|" line) eqn:Hbar.
    + apply andb_prop in Hbar as [->%bool_decide_eq_true Hbar].
      apply prefix_correct in Hbar. destruct line as [|d line]; [done|].
      simpl in Hbar. injection Hbar as -> _.
      destruct run as [value|].
      * intros [= <-]. split; [by apply Hrun|].
        exists EmptyString, line. split; [done|]. right. by eauto.
      * intros Hp. apply IH in Hp as (Hp & pre & rest & Hline & Hpre); [|done].
        split; [done|]. exists (String "%" pre), rest. rewrite Hline.
        split; [done|]. left. destruct Hpre as [Hpre|[_ [? ?]]]; [|done].
        simpl. by destruct pre.
    + intros Hp. apply IH in Hp as (Hp & pre & rest & Hline & Hpre); [|done].
      split; [done|]. exists (String c pre), rest. rewrite Hline.
      split; [done|]. left. destruct Hpre as [Hpre|[_ [? ?]]]; [|done].
      simpl. by destruct pre.
Qed.

(** X20: a percentage parsed from a line is never negative, and the line
    holds a percent sign and a bar directly after a digit; so a line
    without a percent sign, such as the engine's "Separating track" line,
    yields [None]. *)
Theorem parse_demucs_progress_sound line :
  (∀ p, parse_demucs_progress line = Some p →
        0 ≤ p
        ∧ ∃ pre rest, line = pre +:+ "%|" +:+ rest ∧ ends_in_digit pre = true)
  ∧ (contains "%" line = false → parse_demucs_progress line = None).
Proof.
  assert (∀ p, parse_demucs_progress line = Some p →
               0 ≤ p
               ∧ ∃ pre rest, line = pre +:+ "%|" +:+ rest
                             ∧ ends_in_digit pre = true) as Hsound.
  { intros p Hp. apply search_percent_sound in Hp
      as (Hp & pre & rest & Hline & [Hpre|[_ [? ?]]]); try done.
    split; [done|]. by exists pre, rest. }
  split; [done|]. intros Hpercent.
  destruct (parse_demucs_progress line) as [p|] eqn:Hp; [|done].
  destruct (Hsound p eq_refl) as (_ & pre & rest & -> & _).
  exfalso. clear -Hpercent. induction pre as [|c pre IH]; [done|].
  simpl in Hpercent. case_decide; [done|]. auto.
Qed.

Lemma parse_demucs_progress_bar_witness :
  parse_demucs_progress ("Separating track 1/1:  " +:+ pretty 50 +:+ "%|"
                         +:+ "#####     | 617/1234")
  = Some 50.
Proof.
  apply (parse_demucs_progress_bar "Separating track 1/1:  " 50); [lia|done..].
Defined.

(** ** What the worker writes *)

Section WriteFacts.
Context (env : WorkerEnv) (job_id url quality genre title : string).
Context (P : Progress.t → Prop) (allowed : Stage → Z → Prop).
Context (HP : holds_at job_id quality genre title P allowed).

Lemma writes_only_bind {A B} (m : Try A) (k : A → Try B) :
  writes_only P m → (∀ a, writes_only P (k a)) → writes_only P (m ≫= k).
Proof.
  intros Hm Hk w. unfold mbind, Try_bind.
  destruct (Hm w) as (new1 & Hw1 & H1).
  destruct (m w) as [[a| |e] w1]; simpl in *; [|by eauto..].
  destruct (Hk a w1) as (new2 & Hw2 & H2).
  exists (new1 ++ new2). rewrite Hw2, Hw1, app_assoc. split; [done|].
  by apply Forall_app.
Qed.

Lemma writes_only_silent {A} (m : Try A) :
  (∀ w, written (m w).2 = written w) → writes_only P m.
Proof. intros Hm w. exists []. by rewrite app_nil_r, Hm. Qed.

Lemma writes_only_call p : writes_only P (call env p).
Proof.
  apply writes_only_silent. intros w. unfold call.
  by destruct (raises env p).
Qed.

Lemma writes_only_report stage message percent est error :
  allowed stage percent →
  writes_only P (effect (report job_id quality genre title stage message
                           percent est error)).
Proof.
  intros Hok w. eexists [_]. split; [done|]. repeat constructor.
  by apply HP.
Qed.

Lemma writes_only_fail_and_clean temp_dir message error :
  allowed Error 0 →
  writes_only P (fail_and_clean job_id quality genre title temp_dir message
                   error).
Proof.
  intros Hok. unfold fail_and_clean.
  apply writes_only_bind; [by apply writes_only_report|intros _].
  apply writes_only_bind; [by apply writes_only_silent|intros _].
  by apply writes_only_silent.
Qed.

Lemma writes_only_copy_stems stem_files names copied :
  writes_only P (copy_stems env title stem_files names copied).
Proof.
  apply writes_only_silent. intros w.
  by rewrite (proj1 (copy_stems_flow env title stem_files names copied w)).
Qed.

Lemma writes_only_combine_all stem_files folder items copied :
  writes_only P (combine_all env title stem_files folder items copied).
Proof.
  apply writes_only_silent. intros w.
  by rewrite (proj1 (combine_all_flow env title stem_files folder items
                       copied w)).
Qed.

Lemma writes_only_read_stderr est lines : ∀ i last,
  updates_allowed allowed lines →
  writes_only P (read_stderr env job_id quality genre title est i lines last).
Proof.
  induction lines as [|line lines IH]; intros i last Hlines; simpl.
  - by apply writes_only_silent.
  - assert (updates_allowed allowed lines) as Hrest.
    { intros l p Hin. apply Hlines. by right. }
    apply writes_only_bind; [apply writes_only_call|intros _].
    destruct (parse_demucs_progress line) as [p|] eqn:Hparse; [|by apply IH].
    case_decide; [|by apply IH].
    apply writes_only_bind; [|intros _; by apply IH].
    apply writes_only_report. apply (Hlines line); [by left|done].
Qed.

Lemma writes_only_download_audio temp_dir :
  allowed Downloading 5 → allowed Error 0 →
  writes_only P (download_audio env job_id url quality genre title temp_dir).
Proof.
  intros H5 H0. unfold download_audio.
  apply writes_only_bind; [by apply writes_only_report|intros _].
  apply writes_only_bind; [apply writes_only_call|intros _].
  destruct (run_ytdlp env _) as [returncode stderr]. case_decide.
  - apply writes_only_bind; [|intros _; by apply writes_only_silent].
    by apply writes_only_fail_and_clean.
  - apply writes_only_bind; [apply writes_only_call|intros _].
    destruct (glob_audio env temp_dir); [|by apply writes_only_silent].
    apply writes_only_bind; [|intros _; by apply writes_only_silent].
    by apply writes_only_fail_and_clean.
Qed.

Lemma writes_only_separate preset temp_dir audio_file :
  allowed Processing 10 → allowed Error 0 →
  (∀ cmd, updates_allowed allowed (demucs_stderr env cmd)) →
  writes_only P (separate env job_id quality genre title preset temp_dir
                   audio_file).
Proof.
  intros H10 H0 Hlines. unfold separate.
  apply writes_only_bind; [apply writes_only_call|intros _].
  apply writes_only_bind; [by apply writes_only_report|intros _].
  apply writes_only_bind; [apply writes_only_call|intros _].
  apply writes_only_bind; [by apply writes_only_silent|intros _].
  apply writes_only_bind; [by apply writes_only_read_stderr|intros _].
  apply writes_only_bind; [apply writes_only_call|intros _].
  apply writes_only_bind; [by apply writes_only_silent|intros _].
  case_decide; [|by apply writes_only_silent].
  apply writes_only_bind; [by apply writes_only_report|intros _].
  repeat (apply writes_only_bind; [by apply writes_only_silent|intros _]).
  by apply writes_only_silent.
Qed.

Lemma writes_only_organize preset genre_mode temp_dir audio_file :
  allowed Finalizing 92 → allowed Error 0 →
  writes_only P (organize env job_id quality genre title preset genre_mode
                   temp_dir audio_file).
Proof.
  intros H92 H0. unfold organize.
  apply writes_only_bind; [by apply writes_only_report|intros _].
  apply writes_only_bind; [apply writes_only_call|intros _].
  apply writes_only_bind; [apply writes_only_call|intros _].
  destruct (find_stems env preset temp_dir audio_file) as [listing|].
  - apply writes_only_bind; [apply writes_only_call|intros _].
    apply writes_only_bind; [apply writes_only_copy_stems|intros copied].
    destruct (combine genre_mode);
      [apply writes_only_combine_all|by apply writes_only_silent].
  - apply writes_only_bind; [|intros _; by apply writes_only_silent].
    by apply writes_only_fail_and_clean.
Qed.

Lemma writes_only_finish temp_dir copied :
  allowed Complete 100 → allowed Error 0 →
  writes_only P (finish job_id quality genre title temp_dir copied).
Proof.
  intros H100 H0. unfold finish.
  apply writes_only_bind; [by apply writes_only_silent|intros _].
  apply writes_only_bind; [by apply writes_only_silent|intros _].
  destruct copied.
  - apply writes_only_bind; [|intros _; by apply writes_only_silent].
    by apply writes_only_report.
  - by apply writes_only_report.
Qed.

(** Every stage and percent that the worker passes to [write_progress]
    is [allowed]. *)
Lemma writes_only_run w :
  allowed Downloading 5 → allowed Processing 10 →
  (∀ cmd, updates_allowed allowed (demucs_stderr env cmd)) →
  allowed Finalizing 92 → allowed Complete 100 → allowed Error 0 →
  ∃ new,
    written (run_stem_separation_background env job_id url quality genre
               title w).2 = written w ++ new
    ∧ Forall P new.
Proof.
  intros H5 H10 Hlines H92 H100 H0. unfold run_stem_separation_background.
  destruct (demucs_available env); simpl.
  - destruct (raises env AtMkdtemp).
    { exists []. by rewrite app_nil_r. }
    match goal with |- context [pipeline ?a ?b ?c ?d ?e ?f ?p ?g ?t ?w1] =>
      assert (writes_only P (pipeline a b c d e f p g t)) as Hpipeline;
      [|destruct (Hpipeline w1) as (new & Hnew & Hall);
        destruct (pipeline a b c d e f p g t w1) as [[[]| |e'] w2]]
    end; simpl in *; try by eauto.
    + unfold pipeline.
      apply writes_only_bind; [by apply writes_only_download_audio|].
      intros audio_file.
      apply writes_only_bind; [by apply writes_only_separate|intros _].
      apply writes_only_bind; [by apply writes_only_organize|intros copied].
      by apply writes_only_finish.
    + exists (new ++ [Progress.mk Error e' 0 None (Some title) (Some job_id)
                        (Some "download_stems") (Some quality) (Some genre)
                        (Some e') (Some (clock w2))]).
      rewrite Hnew, app_assoc. split; [done|]. apply Forall_app.
      split; [done|]. repeat constructor. by apply HP.
  - eexists [_]. split; [done|]. repeat constructor. by apply HP.
Qed.

End WriteFacts.

(** X22: every record that a run of the worker writes names the job: it
    carries the job id, the title, the action 'download_stems', the
    quality and the genre that the worker was started with; and its stage
    is never [idle] or [stale]. *)
Theorem worker_records_name_the_job env job_id url quality genre title w :
  ∃ new,
    written (run_stem_separation_background env job_id url quality genre
               title w).2 = written w ++ new
    ∧ Forall (names_job job_id quality genre title) new.
Proof.
  apply (writes_only_run env job_id url quality genre title _
           (λ stage _, stage ≠ Idle ∧ stage ≠ Stale)); done.
Qed.

(** X28: if the engine prints no percentage above 100, every record that a
    run of the worker writes carries a percent between 0 and 100. *)
Theorem worker_percent_in_range env job_id url quality genre title w :
  bounded_output env →
  ∃ new,
    written (run_stem_separation_background env job_id url quality genre
               title w).2 = written w ++ new
    ∧ Forall (λ p, 0 ≤ Progress.percent p ≤ 100) new.
Proof.
  intros Hbounded.
  apply (writes_only_run env job_id url quality genre title _
           (λ _ percent, 0 ≤ percent ≤ 100)); try done.
  { by intros stage message percent est error clock Hrange. }
  intros cmd line p Hin Hparse.
  pose proof (Hbounded cmd line p Hin Hparse) as Hhi.
  apply search_percent_sound in Hparse as [Hlo _]; [|done].
  pose proof (overall_percent_range p). lia.
Qed.

Lemma worker_percent_in_range_witness :
  bounded_output (Sample.tools Sample.no_fault 0 Sample.tqdm 1)
  ∧ ∃ new,
      written (run_stem_separation_background
                 (Sample.tools Sample.no_fault 0 Sample.tqdm 1)
                 "job_1700000000" "https://youtu.be/x" "fast" "hiphop" "Song"
                 Sample.spawned).2
      = written Sample.spawned ++ new
      ∧ Forall (λ p, 0 ≤ Progress.percent p ≤ 100) new.
Proof.
  split; [apply sample_output_bounded|].
  apply (worker_percent_in_range
           (Sample.tools Sample.no_fault 0 Sample.tqdm 1)
           "job_1700000000" "https://youtu.be/x" "fast" "hiphop" "Song"
           Sample.spawned).
  apply sample_output_bounded.
Defined.

(** ** What a [complete] record tells *)

Section CompleteFacts.
Context (env : WorkerEnv) (job_id url quality genre title : string).

#[local] Abbreviation not_complete :=
  (λ p : Progress.t, Progress.stage p ≠ Complete).

#[local] Abbreviation unfinished :=
  (λ (stage : Stage) (_ : Z), stage ≠ Complete).

Lemma not_complete_unfinished :
  holds_at job_id quality genre title not_complete unfinished.
Proof. by intros stage message percent est error clock Hs. Qed.

Lemma download_audio_next temp_dir w audio_file w' :
  download_audio env job_id url quality genre title temp_dir w
    = (Next audio_file, w') →
  (run_ytdlp env (download_cmd env url temp_dir)).1 = 0
  ∧ ∃ others, glob_audio env temp_dir = audio_file :: others.
Proof.
  unfold download_audio, download_cmd, mbind, Try_bind, call, effect,
    fail_and_clean, return_now. simpl.
  destruct (raises env AtDownload); [done|]. simpl.
  destruct (run_ytdlp env _) as [returncode stderr]. simpl.
  case_decide as Hrc; [done|].
  destruct (raises env AtGlob); [done|]. simpl.
  destruct (glob_audio env temp_dir) as [|f others]; [done|].
  intros [= <- _]. split; [|by eauto].
  by destruct (decide (returncode = 0)).
Qed.

Lemma separate_next preset temp_dir audio_file w u w' :
  separate env job_id quality genre title preset temp_dir audio_file w
    = (Next u, w') →
  demucs_returncode env (demucs_cmd env preset temp_dir audio_file) = 0.
Proof.
  unfold separate, mbind, Try_bind, call, effect, return_now. simpl.
  destruct (raises env AtEstimate); [done|]. simpl.
  destruct (raises env AtPopen); [done|]. simpl.
  destruct (read_stderr _ _ _ _ _ _ _ _ _ _) as [[last'| |e] w1]; try done.
  destruct (raises env AtWait); [done|]. simpl.
  case_decide as Hrc; [done|]. intros _.
  by destruct (decide (demucs_returncode env
                         (demucs_cmd env preset temp_dir audio_file) = 0)).
Qed.

Lemma organize_next preset genre_mode temp_dir audio_file w copied w' :
  organize env job_id quality genre title preset genre_mode temp_dir
    audio_file w = (Next copied, w') →
  is_Some (find_stems env preset temp_dir audio_file).
Proof.
  unfold organize, mbind, Try_bind, call, effect, fail_and_clean, return_now.
  simpl.
  destruct (raises env AtMkdir); [done|]. simpl.
  destruct (raises env AtLocate); [done|]. simpl.
  by destruct (find_stems env preset temp_dir audio_file).
Qed.

(** The [try] block writes a [complete] record only as its last record,
    and only after every step has succeeded. *)
Lemma pipeline_complete preset genre_mode temp_dir w :
  let r := pipeline env job_id url quality genre title preset genre_mode
             temp_dir w in
  ∃ new, written r.2 = written w ++ new
    ∧ (Forall not_complete new
       ∨ ∃ body audio_file (copied : list string),
           new = body ++ [last_record job_id quality genre title (clock r.2)
                            (length copied)]
           ∧ Forall not_complete body
           ∧ copied ≠ []
           ∧ r.1 = Next tt
           ∧ progress_file r.2
             = Some (last_record job_id quality genre title (clock r.2)
                       (length copied))
           ∧ job_file r.2 = None
           ∧ (temp_dir ∉ dirs r.2)
           ∧ (run_ytdlp env (download_cmd env url temp_dir)).1 = 0
           ∧ (∃ others, glob_audio env temp_dir = audio_file :: others)
           ∧ demucs_returncode env
               (demucs_cmd env preset temp_dir audio_file) = 0
           ∧ is_Some (find_stems env preset temp_dir audio_file)).
Proof.
  simpl. unfold pipeline, mbind, Try_bind.
  destruct (writes_only_download_audio env job_id url quality genre title
              not_complete unfinished not_complete_unfinished temp_dir
              ltac:(done) ltac:(done) w)
    as (new1 & Hw1 & H1).
  destruct (download_audio env job_id url quality genre title temp_dir w)
    as [[audio_file| |e] w1] eqn:Hdl; simpl in *; [|by eauto..].
  apply download_audio_next in Hdl as [Hrc Hglob].
  destruct (writes_only_separate env job_id quality genre title
              not_complete unfinished not_complete_unfinished preset temp_dir
              audio_file ltac:(done) ltac:(done) ltac:(done) w1)
    as (new2 & Hw2 & H2).
  destruct (separate env job_id quality genre title preset temp_dir
              audio_file w1) as [[[]| |e] w2] eqn:Hsep; simpl in *;
    [|exists (new1 ++ new2); rewrite Hw2, Hw1, app_assoc;
      (split; [done|]); left; by apply Forall_app..].
  apply separate_next in Hsep.
  destruct (writes_only_organize env job_id quality genre title
              not_complete unfinished not_complete_unfinished preset
              genre_mode temp_dir audio_file ltac:(done) ltac:(done) w2)
    as (new3 & Hw3 & H3).
  destruct (organize env job_id quality genre title preset genre_mode
              temp_dir audio_file w2) as [[copied| |e] w3] eqn:Horg;
    simpl in *;
    [|exists (new1 ++ new2 ++ new3); rewrite Hw3, Hw2, Hw1, !app_assoc;
      (split; [done|]); left; rewrite <- app_assoc;
      by repeat (apply Forall_app; split)..].
  apply organize_next in Horg.
  assert (Forall not_complete (new1 ++ new2 ++ new3)) as Hbody
    by (by repeat (apply Forall_app; split)).
  assert (written w3 = written w ++ (new1 ++ new2 ++ new3)) as Hw
    by (by rewrite Hw3, Hw2, Hw1, !app_assoc).
  unfold finish, mbind, Try_bind, effect, return_now. simpl.
  destruct copied as [|name copied]; simpl.
  - eexists (_ ++ [_]). rewrite Hw, <- app_assoc. split; [done|]. left.
    apply Forall_app. split; [done|]. by repeat constructor.
  - eexists (_ ++ [_]). rewrite Hw, <- app_assoc. split; [done|]. right.
    exists (new1 ++ new2 ++ new3), audio_file, (name :: copied).
    split; [done|]. split; [done|]. split; [done|]. split; [done|].
    split; [done|]. split; [done|]. split; [set_solver|]. done.
Qed.

(** X23: a run of the worker writes a [complete] record only when the engine
    is installed, yt-dlp exited with status 0, a downloaded audio file was
    found, the engine exited with status 0, the directory of the stems was
    found and at least one output file was counted.  The record is then the
    last one written and the stored one, its message gives the count, its
    percent is 100, and the job file and the workspace are gone. *)
Theorem complete_means_every_step_succeeded w p :
  let r := run_stem_separation_background env job_id url quality genre
             title w in
  let preset :=
    default (QUALITY_PRESETS !!! "fast") (QUALITY_PRESETS !! quality) in
  p ∈ drop (length (written w)) (written r.2) →
  Progress.stage p = Complete →
  demucs_available env = true
  ∧ (run_ytdlp env (download_cmd env url (mkdtemp env))).1 = 0
  ∧ ∃ audio_file others n,
      glob_audio env (mkdtemp env) = audio_file :: others
      ∧ demucs_returncode env
          (demucs_cmd env preset (mkdtemp env) audio_file) = 0
      ∧ is_Some (find_stems env preset (mkdtemp env) audio_file)
      ∧ (0 < n)%nat
      ∧ Progress.message p = "Created " +:+ pretty n +:+ " stem files"
      ∧ Progress.percent p = 100
      ∧ last (written r.2) = Some p
      ∧ progress_file r.2 = Some p
      ∧ r.1 = None
      ∧ job_file r.2 = None
      ∧ (mkdtemp env ∉ dirs r.2).
Proof.
  simpl. unfold run_stem_separation_background.
  destruct (demucs_available env); simpl.
  - destruct (raises env AtMkdtemp).
    { simpl. rewrite drop_all. by intros ?%elem_of_nil. }
    fold (workspace_created env job_id url quality genre title w).
    match goal with |- context [pipeline ?a ?b ?c ?d ?e ?f ?pr ?g ?t ?w1] =>
      destruct (pipeline_complete pr g t w1)
        as (new & Hnew & [Hall|(body & audio_file & copied & -> & Hbody & Hne
              & Hflow & Hfile & Hjob & Hdir & Hrc & [others Hglob] & Hdemucs
              & Hfind)]);
      destruct (pipeline a b c d e f pr g t w1) as [flow w2]
    end; simpl in *.
    + assert (∀ w3 extra, written w3 = written w2 ++ extra →
                Forall not_complete extra →
                p ∈ drop (length (written w)) (written w3) →
                Progress.stage p = Complete → False) as Hnone.
      { intros w3 extra Hw3 Hextra. rewrite Hw3, Hnew, <- app_assoc.
        rewrite drop_app_length. intros Hin Hstage.
        assert (Forall not_complete (new ++ extra)) as Hboth
          by (by apply Forall_app).
        rewrite Forall_forall in Hboth. by apply (Hboth p). }
      destruct flow as [[]| |e].
      * intros ? ?. exfalso. eapply (Hnone w2 []); eauto.
        by rewrite app_nil_r.
      * intros ? ?. exfalso. eapply (Hnone w2 []); eauto.
        by rewrite app_nil_r.
      * intros ? ?. exfalso.
        eapply (Hnone _ [_]); [| |done..]; [done|by repeat constructor].
    + subst flow. simpl. rewrite Hnew, drop_app_length.
      intros [Hin|Hin]%elem_of_app Hstage.
      { rewrite Forall_forall in Hbody. by destruct (Hbody p Hin). }
      apply list_elem_of_singleton in Hin as ->.
      split; [done|]. split; [done|].
      exists audio_file, others, (length copied).
      assert (0 < length copied)%nat as Hlen
        by (destruct copied; [done|simpl; lia]).
      revert Hfile. unfold last_record.
      rewrite decide_False by lia. intros Hfile.
      split; [done|]. split; [done|]. split; [done|]. split; [done|].
      split; [done|]. split; [done|].
      split; [by rewrite app_assoc, last_snoc|]. split; [done|]. done.
  - rewrite drop_app_length.
    by intros ->%list_elem_of_singleton.
Qed.

End CompleteFacts.

(** ** Worker: further facts *)

(** X21: [stem_files] maps each of the four stem names to the last file of
    the listing whose stem, in lower case, is that name, and holds no other
    key. *)
Theorem collect_stems_lookup listing name :
  collect_stems listing !! name
  = if decide (is_Some (stem_mapping !! name))
    then last (filter (λ f, lower (file_stem f) = name) listing)
    else None.
Proof.
  unfold collect_stems.
  assert (∀ acc : gmap string File,
            foldl (λ stem_files stem_file,
                     let stem_name := lower (file_stem stem_file) in
                     if decide (is_Some (stem_mapping !! stem_name))
                     then <[stem_name := stem_file]> stem_files
                     else stem_files) acc listing !! name
            = if decide (is_Some (stem_mapping !! name))
              then match last (filter (λ f, lower (file_stem f) = name) listing)
                   with
                   | Some f => Some f
                   | None => acc !! name
                   end
              else acc !! name) as Hgen.
  { induction listing as [|f listing IH]; intros acc; simpl.
    - by case_decide.
    - rewrite IH. destruct (decide (lower (file_stem f) = name)) as [Hf|Hf].
      + rewrite filter_cons_True by done. rewrite last_cons. rewrite Hf.
        destruct (decide (is_Some (stem_mapping !! name))). 2:{ done. }
        rewrite lookup_insert_eq. by destruct (last _).
      + rewrite filter_cons_False by done.
        assert ((if decide (is_Some (stem_mapping !! lower (file_stem f)))
                 then <[lower (file_stem f) := f]> acc else acc) !! name
                = acc !! name) as ->; [|done].
        destruct (decide (is_Some (stem_mapping !! lower (file_stem f))));
          [|done].
        by rewrite lookup_insert_ne. }
  rewrite Hgen, lookup_empty. case_decide; [|done].
  by destruct (last _).
Qed.

(** X26: values that do not start with a dash are read as values, and so is
    every job id that the host generates: the worker then runs the pipeline
    with exactly the job id, URL, quality, genre and title of its command
    line. *)
Theorem dashless_values_reach_pipeline env (t : Z) url quality genre title w :
  Forall (λ v, String.prefix "-" v = false) [url; quality; genre; title] →
  run_worker_mode env ("job_" +:+ pretty t) url quality genre title w
  = match run_stem_separation_background env ("job_" +:+ pretty t) url
            quality genre title w with
    | (None, w') => (ExitOk, w')
    | (Some e, w') => (ExitTraceback e, w')
    end.
Proof.
  intros Hall. apply plain_values_reach_pipeline.
  assert (∀ v, String.prefix "-" v = false → taken_as_value v = true) as Hv.
  { intros [|c v]; [done|]. simpl.
    destruct (ascii_dec "-" c) as [<-|Hc]; [by destruct v|]. intros _.
    unfold taken_as_value, reads_as_option.
    rewrite (bool_decide_eq_false_2 (c = "-"%char)) by done. simpl.
    rewrite andb_true_r. apply negb_true_iff, bool_decide_eq_false.
    intros [= ? _]. done. }
  constructor; [done|]. eapply Forall_impl; [exact Hall|]. exact Hv.
Qed.

Section AfterTheWorker.
Context (henv : HostEnv) (env : WorkerEnv).
Context (job_id url quality genre title : string).

(** X25: once a run of the worker has ended, by returning, the host is free
    again at whatever instant: the startup check changes nothing, a poll
    shows the [complete] or [error] record that the worker wrote last,
    [cancel_job] finds no active job, and a new request is accepted. *)
Theorem finished_worker_frees_host w t url' quality' genre' :
  demucs_available env = false ∨ raises env AtMkdtemp = None →
  let w' := set_clock t (run_stem_separation_background env job_id url quality
                           genre title w).2 in
  check_stale_job w' = w'
  ∧ (∃ p, main henv poll w' = (RespProgress p, w')
          ∧ last (written w') = Some p
          ∧ (Progress.stage p = Complete ∨ Progress.stage p = Error))
  ∧ cancel_job w' = (RespError "No active job to cancel", w')
  ∧ success (start_stems_job henv url' quality' genre' w').1 = true.
Proof.
  intros Hpre. simpl.
  destruct (worker_cleans_up env job_id url quality genre title w Hpre)
    as (_ & Hjob & _ & (p & Hfile & Hlast & Hstage) & _).
  set (w1 := (run_stem_separation_background env job_id url quality genre
                title w).2) in *.
  assert (check_stale_job (set_clock t w1) = set_clock t w1) as Hcheck.
  { unfold check_stale_job, load_job_state. simpl. by rewrite Hjob. }
  assert (read_progress (set_clock t w1) = (p, set_clock t w1)) as Hread.
  { apply read_progress_fresh; [done|]. intros [Hs _].
    destruct Hstage as [Hc|[He _]]; congruence. }
  assert (mid_flight (Progress.stage p) = false) as Hmid.
  { by destruct Hstage as [->|[-> _]]. }
  split; [done|]. split; [|split].
  - exists p. unfold main, poll. rewrite Hcheck. simpl. rewrite Hread.
    split; [done|]. split; [done|]. destruct Hstage as [?|[? _]]; auto.
  - unfold cancel_job. by rewrite Hread, Hmid.
  - apply start_stems_job_success. exists (set_clock t w1).
    unfold check_active_job. by rewrite Hread, Hmid.
Qed.

End AfterTheWorker.

(** X10: the host writes at most three records for a request, each of stage
    [downloading], [complete] or [error]: the [processing] and [finalizing]
    records, and with them every record that can be read as [stale], come
    from the worker. *)
Theorem host_writes_no_processing_record env message w :
  ∃ new,
    written (main env message w).2 = written w ++ new
    ∧ (length new ≤ 3)%nat
    ∧ Forall (λ p, Progress.stage p ∈ [Downloading; Complete; Error]) new.
Proof.
  assert (∃ new0, written (check_stale_job w) = written w ++ new0
                  ∧ (length new0 ≤ 1)%nat
                  ∧ Forall (λ p, Progress.stage p ∈ [Downloading; Complete; Error])
                           new0) as (new0 & Hw0 & Hlen0 & Hall0).
  { assert (∀ w', written w' = written w →
              ∃ new0, written w' = written w ++ new0 ∧ (length new0 ≤ 1)%nat
                ∧ Forall (λ p, Progress.stage p ∈ [Downloading; Complete; Error])
                         new0) as Hnone.
    { intros w' ->. exists []. rewrite app_nil_r. split; [done|].
      split; [simpl; lia|done]. }
    unfold check_stale_job. destruct (load_job_state w) as [job|];
      [|by apply Hnone].
    destruct (match truthy_pid (Job.pid job) with
              | Some pid => process_exists pid w
              | None => false
              end); [by apply Hnone|].
    set (w1 := clear_job_state _).
    assert (written w1 = written w) as Hw1.
    { unfold w1. destruct (truthy_str (Job.temp_dir job)); [|done].
      by destruct (path_exists _ _). }
    clearbody w1.
    pose proof (read_progress_world w1) as Hread.
    destruct (read_progress w1) as [p w2]. simpl in Hread. subst w2.
    destruct (mid_flight (Progress.stage p)); [|by apply Hnone].
    eexists [_]. simpl. rewrite Hw1. split; [done|]. split; [lia|].
    repeat constructor. }
  assert (∀ more w', written w' = written (check_stale_job w) ++ more →
            (length more ≤ 2)%nat →
            Forall (λ p, Progress.stage p ∈ [Downloading; Complete; Error]) more →
            ∃ new, written w' = written w ++ new ∧ (length new ≤ 3)%nat
              ∧ Forall (λ p, Progress.stage p ∈ [Downloading; Complete; Error])
                       new) as Hmore.
  { intros more w' Hw' Hlen Hall. exists (new0 ++ more).
    rewrite Hw', Hw0, app_assoc. split; [done|].
    split; [rewrite length_app; lia|]. by apply Forall_app. }
  assert (∀ w', written w' = written (check_stale_job w) →
            ∃ new, written w' = written w ++ new ∧ (length new ≤ 3)%nat
              ∧ Forall (λ p, Progress.stage p ∈ [Downloading; Complete; Error])
                       new) as Hsame.
  { intros w' Hw'. apply (Hmore []); [by rewrite app_nil_r|simpl; lia|done]. }
  unfold main. destruct message as [message|]; [|by apply Hsame]. simpl.
  repeat case_decide.
  - destruct (truthy_str (msg_url message)) as [url|]; [|by apply Hsame].
    simpl. destruct (download_mp3 env url) eqn:Hmp3;
      try (unfold download_mp3 in Hmp3;
           by destruct (run_ytdlp_mp3 env url)).
    + eapply (Hmore [_; _]); [simpl; by rewrite <- app_assoc|simpl; lia|].
      repeat constructor.
    + eapply (Hmore [_; _]); [simpl; by rewrite <- app_assoc|simpl; lia|].
      repeat constructor.
  - destruct (truthy_str (msg_url message)) as [url|]; [|by apply Hsame].
    unfold start_stems_job.
    destruct (check_active_job (check_stale_job w)) as [busy|w1] eqn:Hfree;
      [by apply Hsame|].
    destruct (check_active_job_free _ _ Hfree) as (_ & _ & _ & Hw1).
    eapply (Hmore [_]); [simpl; by rewrite Hw1|simpl; lia|].
    repeat constructor.
  - pose proof (read_progress_world (check_stale_job w)) as Hread.
    destruct (read_progress (check_stale_job w)) as [p w1]. simpl in *.
    subst. by apply Hsame.
  - destruct (cancel_job_cases (check_stale_job w))
      as [->|(_ & _ & _ & _ & _ & _ & Hwr & _)]; by apply Hsame.
  - by apply Hsame.
  - by apply Hsame.
Qed.

(** ** What the worker leaves alone *)

Section FrameFacts.
Context (env : WorkerEnv) (job_id url quality genre title : string).
Context (temp_dir : string) (w0 : World).

#[local] Abbreviation kept := (preserves (same_outside env temp_dir w0)).

Lemma preserves_bind {A B} (I : World → Prop) (m : Try A) (k : A → Try B) :
  preserves I m → (∀ a, preserves I (k a)) → preserves I (m ≫= k).
Proof.
  intros Hm Hk w Hw. unfold mbind, Try_bind. specialize (Hm w Hw).
  destruct (m w) as [[a| |e] w1]; simpl in *; [by apply Hk|done..].
Qed.

Lemma preserves_still {A} (I : World → Prop) (m : Try A) :
  (∀ w, (m w).2 = w) → preserves I m.
Proof. intros Hm w Hw. by rewrite Hm. Qed.

Lemma kept_call p : kept (call env p).
Proof.
  apply preserves_still. intros w. unfold call. by destruct (raises env p).
Qed.

Lemma kept_report stage message percent est error :
  kept (effect (report job_id quality genre title stage message percent est
                  error)).
Proof. by intros w Hw. Qed.

Lemma kept_rmtree : kept (effect (rmtree temp_dir)).
Proof.
  intros w (Hc & Ha & Hd & Hp). split; [done|]. split; [done|].
  split; [|done]. intros d Hne. simpl. rewrite <- (Hd d Hne). set_solver.
Qed.

Lemma kept_clear_job_state : kept (effect clear_job_state).
Proof. by intros w Hw. Qed.

Lemma kept_set_active_process child : kept (effect (set_active_process child)).
Proof. by intros w Hw. Qed.

Lemma kept_spawn cmd :
  kept (effect (λ w, set_active_process (Some (popen_demucs env cmd))
                       (set_procs ({[popen_demucs env cmd]} ∪ procs w) w))).
Proof.
  intros w (Hc & Ha & Hd & Hp). split; [done|]. split; [done|].
  split; [done|]. intros pid Hpid. simpl. rewrite <- (Hp pid Hpid).
  specialize (Hpid cmd). set_solver.
Qed.

Lemma kept_reap cmd :
  kept (effect (λ w, set_procs (procs w ∖ {[popen_demucs env cmd]}) w)).
Proof.
  intros w (Hc & Ha & Hd & Hp). split; [done|]. split; [done|].
  split; [done|]. intros pid Hpid. simpl. rewrite <- (Hp pid Hpid).
  specialize (Hpid cmd). set_solver.
Qed.

Lemma kept_fail_and_clean message error :
  kept (fail_and_clean job_id quality genre title temp_dir message error).
Proof.
  unfold fail_and_clean.
  apply preserves_bind; [apply kept_report|intros _].
  apply preserves_bind; [apply kept_rmtree|intros _].
  apply kept_clear_job_state.
Qed.

Lemma kept_read_stderr est lines : ∀ i last,
  kept (read_stderr env job_id quality genre title est i lines last).
Proof.
  induction lines as [|line lines IH]; intros i last; simpl.
  - by apply preserves_still.
  - apply preserves_bind; [apply kept_call|intros _].
    destruct (parse_demucs_progress line); [|apply IH].
    case_decide; [|apply IH].
    apply preserves_bind; [apply kept_report|intros _; apply IH].
Qed.

Lemma kept_pipeline preset genre_mode :
  kept (pipeline env job_id url quality genre title preset genre_mode temp_dir).
Proof.
  unfold pipeline. apply preserves_bind.
  { unfold download_audio.
    apply preserves_bind; [apply kept_report|intros _].
    apply preserves_bind; [apply kept_call|intros _].
    destruct (run_ytdlp env _) as [returncode stderr]. case_decide.
    - apply preserves_bind; [apply kept_fail_and_clean|intros _].
      by apply preserves_still.
    - apply preserves_bind; [apply kept_call|intros _].
      destruct (glob_audio env temp_dir); [|by apply preserves_still].
      apply preserves_bind; [apply kept_fail_and_clean|intros _].
      by apply preserves_still. }
  intros audio_file. apply preserves_bind.
  { unfold separate.
    apply preserves_bind; [apply kept_call|intros _].
    apply preserves_bind; [apply kept_report|intros _].
    apply preserves_bind; [apply kept_call|intros _].
    apply preserves_bind; [apply kept_spawn|intros _].
    apply preserves_bind; [apply kept_read_stderr|intros _].
    apply preserves_bind; [apply kept_call|intros _].
    apply preserves_bind; [apply kept_reap|intros _].
    case_decide; [|apply kept_set_active_process].
    apply preserves_bind; [apply kept_report|intros _].
    apply preserves_bind; [apply kept_rmtree|intros _].
    apply preserves_bind; [apply kept_clear_job_state|intros _].
    apply preserves_bind; [apply kept_set_active_process|intros _].
    by apply preserves_still. }
  intros _. apply preserves_bind.
  { unfold organize.
    apply preserves_bind; [apply kept_report|intros _].
    apply preserves_bind; [apply kept_call|intros _].
    apply preserves_bind; [apply kept_call|intros _].
    destruct (find_stems env preset temp_dir audio_file) as [listing|].
    - apply preserves_bind; [apply kept_call|intros _].
      apply preserves_bind.
      { apply preserves_still. intros w. apply copy_stems_flow. }
      intros copied. destruct (combine genre_mode);
        [|by apply preserves_still].
      apply preserves_still. intros w. apply combine_all_flow.
    - apply preserves_bind; [apply kept_fail_and_clean|intros _].
      by apply preserves_still. }
  intros copied. unfold finish.
  apply preserves_bind; [apply kept_rmtree|intros _].
  apply preserves_bind; [apply kept_clear_job_state|intros _].
  destruct copied; [|apply kept_report].
  apply preserves_bind; [apply kept_report|intros _].
  by apply preserves_still.
Qed.

End FrameFacts.


(** ** Recovery after a crash *)

Section RecoveryFacts.
Context (env : HostEnv).

Lemma check_stale_job_orphan w job :
  job_file w = Some job → orphan job w →
  job_file (check_stale_job w) = None
  ∧ clock (check_stale_job w) = clock w
  ∧ procs (check_stale_job w) = procs w
  ∧ dirs (check_stale_job w)
    = match truthy_str (Job.temp_dir job) with
      | Some temp_dir => dirs w ∖ {[temp_dir]}
      | None => dirs w
      end.
Proof.
  intros Hjob Horphan. unfold check_stale_job, load_job_state. rewrite Hjob.
  assert ((match truthy_pid (Job.pid job) with
           | Some pid => process_exists pid w
           | None => false
           end) = false) as ->.
  { unfold truthy_pid. destruct (Job.pid job) as [pid|] eqn:Hpid; [|done].
    case_decide; [done|]. unfold process_exists.
    apply bool_decide_eq_false_2. by apply Horphan. }
  set (w1 := match truthy_str (Job.temp_dir job) with
             | Some temp_dir =>
                 if path_exists temp_dir w then rmtree temp_dir w else w
             | None => w
             end).
  assert (clock w1 = clock w ∧ procs w1 = procs w
          ∧ dirs w1 = match truthy_str (Job.temp_dir job) with
                      | Some temp_dir => dirs w ∖ {[temp_dir]}
                      | None => dirs w
                      end) as (Hc & Hp & Hd).
  { unfold w1. destruct (truthy_str (Job.temp_dir job)) as [d|]; [|done].
    unfold path_exists. destruct (decide (d ∈ dirs w)) as [Hin|Hout].
    - by rewrite bool_decide_eq_true_2.
    - rewrite bool_decide_eq_false_2 by done.
      repeat split. apply leibniz_equiv. set_solver. }
  clearbody w1.
  pose proof (read_progress_world (clear_job_state w1)) as Hread.
  destruct (read_progress (clear_job_state w1)) as [p w2]. simpl in Hread.
  subst w2. by destruct (mid_flight (Progress.stage p)).
Qed.

(** X27: when the job file names no process that is alive, the next
    [download_stems] request with a URL is accepted whatever the progress
    file holds: the workspace of the old job is removed, the worker is
    spawned, and the job file names the new job and the spawned process. *)
Theorem orphaned_job_is_replaced url quality genre w job :
  job_file w = Some job → orphan job w → url ≠ EmptyString →
  let request :=
    Some (mkMessage (Some "download_stems") (Some url) (Some quality)
            (Some genre)) in
  let r := main env request w in
  let title := default "stems" (truthy_str (get_video_title env url)) in
  let job_id := "job_" +:+ pretty (clock w) in
  let worker_pid :=
    popen_worker env (worker_cmd env job_id url quality genre title) in
  r.1 = RespStarted job_id title "Stem separation started"
  ∧ job_file r.2
    = Some (Job.mk job_id (Some worker_pid) None title "download_stems"
              quality genre url (clock w))
  ∧ procs r.2 = {[worker_pid]} ∪ procs w
  ∧ (∀ temp_dir, Job.temp_dir job = Some temp_dir → temp_dir ≠ EmptyString →
       temp_dir ∉ dirs r.2).
Proof.
  intros Hjob Horphan Hurl. simpl.
  destruct (check_stale_job_orphan w job Hjob Horphan)
    as (Hnone & Hclock & Hprocs & Hdirs).
  unfold main. simpl. unfold truthy_str at 1. rewrite decide_False by done.
  assert (check_active_job (check_stale_job w) = inr (check_stale_job w))
    as Hfree.
  { unfold check_active_job, load_job_state.
    pose proof (read_progress_world (check_stale_job w)) as Hread.
    destruct (read_progress (check_stale_job w)) as [p w1]. simpl in Hread.
    subst w1. rewrite Hnone. by destruct (mid_flight _). }
  rewrite (start_stems_job_when_free env url quality genre _ _ Hfree).
  simpl. rewrite Hclock, Hprocs. split; [done|]. split; [done|].
  split; [done|]. intros temp_dir Htemp Hne. rewrite Hdirs, Htemp. simpl.
  rewrite decide_False by done. set_solver.
Qed.

End RecoveryFacts.

Lemma orphaned_job_is_replaced_witness :
  let request :=
    Some (mkMessage (Some "download_stems") (Some "https://youtu.be/x")
            (Some "fast") (Some "full")) in
  orphan (Sample.job_with 77 (Some "/tmp/centrifugue_a")) Sample.orphaned_late
  ∧ (main Sample.host request Sample.orphaned_late).1
    = RespStarted "job_701" "Song" "Stem separation started".
Proof.
  assert (orphan (Sample.job_with 77 (Some "/tmp/centrifugue_a"))
                 Sample.orphaned_late) as Horphan.
  { intros pid _ _. apply (bool_decide_unpack _). vm_compute. exact I. }
  split; [exact Horphan|].
  refine (proj1 (orphaned_job_is_replaced Sample.host "https://youtu.be/x"
                   "fast" "full" Sample.orphaned_late
                   (Sample.job_with 77 (Some "/tmp/centrifugue_a"))
                   eq_refl Horphan _)).
  discriminate.
Defined.

(** ** Further instances *)

Lemma sanitize_filename_spacing_witness :
  let name := String "a" (String "009" (String " " (String "b" EmptyString))) in
  sanitize_filename name = "a b"
  ∧ get 2 (sanitize_filename name) ≠ Some " "%char.
Proof.
  split; [reflexivity|].
  exact (proj1 (proj2 (proj2 (sanitize_filename_spacing
           (String "a" (String "009" (String " " (String "b" EmptyString))))
           1 " "%char eq_refl eq_refl)))).
Defined.

Lemma sanitize_filename_idempotent_witness :
  clean_name "Song - Live" = true
  ∧ sanitize_filename "Song - Live" = "Song - Live"
  ∧ sanitize_filename (sanitize_filename " a/b ") = sanitize_filename " a/b ".
Proof.
  split; [reflexivity|]. split.
  - exact (proj1 (sanitize_filename_idempotent "Song - Live") eq_refl).
  - refine (proj2 (proj2 (sanitize_filename_idempotent " a/b ") _)).
    vm_compute. lia.
Defined.

Lemma main_settles_job_witness :
  (∀ cmd, popen_worker Sample.host cmd ≠ 0)
  ∧ job_settled (main Sample.host poll Sample.orphaned).2.
Proof.
  assert (∀ cmd, popen_worker Sample.host cmd ≠ 0) as Hpid by (intros cmd [=]).
  split; [exact Hpid|].
  exact (main_settles_job Sample.host poll Sample.orphaned Hpid).
Defined.


Lemma start_stems_job_refuses_only_live_job_witness :
  success (start_stems_job Sample.host "https://youtu.be/y" "fast" "full"
             Sample.busy).1 = false
  ∧ (start_stems_job Sample.host "https://youtu.be/y" "fast" "full"
       Sample.busy).2 = Sample.busy.
Proof.
  split; [reflexivity|].
  exact (proj1 (start_stems_job_refuses_only_live_job Sample.host
                  "https://youtu.be/y" "fast" "full" Sample.busy eq_refl)).
Defined.


Lemma cancel_job_refuses_stale_job_witness :
  (77 ∈ procs Sample.silent)
  ∧ cancel_job Sample.silent
    = (RespError "No active job to cancel", Sample.silent).
Proof.
  split; [apply (bool_decide_unpack _); vm_compute; exact I|].
  refine (proj1 (cancel_job_refuses_stale_job Sample.host Sample.silent
                   (Sample.progress_at Processing 40 100) _ _ _)).
  - reflexivity.
  - reflexivity.
  - reflexivity.
Defined.

Lemma download_request_defaults_witness :
  main Sample.host
    (Some (mkMessage (Some "download_stems") (Some EmptyString) None None))
    (Sample.empty_world 5)
  = (RespError "No URL provided", check_stale_job (Sample.empty_world 5)).
Proof.
  refine (proj1 (download_request_defaults Sample.host "download_stems"
                   (Some EmptyString) None None (Sample.empty_world 5) _) _).
  - apply (bool_decide_unpack _). vm_compute. exact I.
  - reflexivity.
Defined.

Lemma job_ids_by_second_witness :
  "job_5" = "job_" +:+ pretty 5 ∧ ("job_5" = "job_6" ↔ 5 = 6).
Proof.
  exact (job_ids_by_second Sample.host
           "https://youtu.be/x" "fast" "full" (Sample.empty_world 5)
           "https://youtu.be/y" "high" "rock" (Sample.empty_world 6)
           "job_5" "Song" "Stem separation started"
           "job_6" "stems" "Stem separation started" eq_refl eq_refl).
Defined.

Lemma complete_means_every_step_succeeded_witness :
  let env := Sample.tools Sample.no_fault 0 Sample.tqdm 0 in
  let p := Progress.mk Complete "Created 2 stem files" 100 None (Some "Song")
             (Some "job_1700000000") (Some "download_stems") (Some "fast")
             (Some "hiphop") None (Some 1700000000) in
  last (written (Sample.run env "fast").2) = Some p
  ∧ job_file (Sample.run env "fast").2 = None.
Proof.
  pose proof (complete_means_every_step_succeeded
                (Sample.tools Sample.no_fault 0 Sample.tqdm 0)
                "job_1700000000" "https://youtu.be/x" "fast" "hiphop" "Song"
                Sample.spawned
                (Progress.mk Complete "Created 2 stem files" 100 None
                   (Some "Song") (Some "job_1700000000")
                   (Some "download_stems") (Some "fast") (Some "hiphop") None
                   (Some 1700000000))) as H.
  destruct H as (_ & _ & f & others & n & _ & _ & _ & _ & _ & _ & Hlast & _
                 & _ & Hjob & _).
  - vm_compute. repeat constructor.
  - reflexivity.
  - split; [exact Hlast|exact Hjob].
Defined.

Lemma dashless_values_reach_pipeline_witness :
  let env := Sample.tools Sample.no_fault 0 Sample.tqdm 0 in
  run_worker_mode env ("job_" +:+ pretty 1700000000) "https://youtu.be/x"
    "fast" "hiphop" "Song" Sample.spawned
  = match run_stem_separation_background env ("job_" +:+ pretty 1700000000)
            "https://youtu.be/x" "fast" "hiphop" "Song" Sample.spawned with
    | (None, w') => (ExitOk, w')
    | (Some e, w') => (ExitTraceback e, w')
    end.
Proof.
  apply (dashless_values_reach_pipeline
           (Sample.tools Sample.no_fault 0 Sample.tqdm 0) 1700000000).
  repeat constructor.
Defined.

Lemma finished_worker_frees_host_witness :
  let env := Sample.tools Sample.no_fault 1 Sample.tqdm 1 in
  success (start_stems_job Sample.host "https://youtu.be/y" "high" "rock"
             (set_clock 1700000100 (Sample.run env "fast").2)).1 = true.
Proof.
  exact (proj2 (proj2 (proj2 (finished_worker_frees_host Sample.host
           (Sample.tools Sample.no_fault 1 Sample.tqdm 1)
           "job_1700000000" "https://youtu.be/x" "fast" "hiphop" "Song"
           Sample.spawned 1700000100 "https://youtu.be/y" "high" "rock"
           (or_intror eq_refl))))).
Defined.

Lemma parse_demucs_progress_sound_witness :
  contains "%" "Separating track 1/1" = false
  ∧ parse_demucs_progress "Separating track 1/1" = None.
Proof.
  split; [reflexivity|].
  exact (proj2 (parse_demucs_progress_sound "Separating track 1/1") eq_refl).
Defined.
